(** * The OCR inference engine of yomihon (ocr_inference.cpp)

    A shallow embedding of [mihon::OcrInference]: the backend compiler
    ([TryCompileWithGpu], [TryCompileWithCpu], [GetOptimalThreadCount]),
    the buffer pool and warmup ([CreateBuffers], [PerformWarmup]), the
    greedy decode loop ([FindMaxLogitToken], [UpdateEmbedding],
    [InferTokens]) and the lifecycle ([Initialize], [Close]).

    C++ [int] and [size_t] values are integers of [Z]; none of the
    arithmetic of the engine leaves the 32-bit range.  The element type
    of the tensors (C++ [float]) is a parameter [T] of the development,
    together with the constants [0.0f], [1.0f] and the comparison
    [operator>]; nothing is assumed about the comparison, so that every
    result holds for IEEE comparisons too (where [x > NaN] is false). *)

From Stdlib Require Import ZArith Lia Bool List Floats.
From Stdlib Require String.
From stdpp Require Import base list.
Import ListNotations.

Local Open Scope Z_scope.

(** ** Model constants (ocr_inference.h) *)

Definition IMAGE_SIZE : Z := 224.
Definition MAX_SEQUENCE_LENGTH : Z := 300.
Definition VOCAB_SIZE : Z := 6144.
Definition HIDDEN_SIZE : Z := 768.
Definition START_TOKEN_ID : Z := 2.
Definition END_TOKEN_ID : Z := 3.
Definition PAD_TOKEN_ID : Z := 0.

(** ** Thread count of the CPU fallback *)

(** [std::min(hw_threads, 4u)] *)
Definition std_min (a b : Z) : Z := if b <? a then b else a.

(** [OcrInference::GetOptimalThreadCount], with the value returned by
    [std::thread::hardware_concurrency()] (an [unsigned int]) as argument. *)
Definition GetOptimalThreadCount (hw_threads : Z) : Z :=
  if hw_threads =? 0 then 2 (* Fallback if detection fails *)
  else std_min hw_threads 4.

(** ** Tensor elements *)

(** What the engine does with a C++ [float]: it writes [0.0f] and [1.0f]
    and compares two logits with [operator>]. *)
Class FloatOps (T : Type) := {
  fzero : T;
  fone : T;
  fgt : T -> T -> bool
}.

(** ** LiteRT and asset objects *)

(** [litert::Environment], known by its handle. *)
Record Environment := { env_id : Z }.

(** [AAsset]: its handle, [AAsset_getLength] in bytes and the content of
    [AAsset_getBuffer] read as an array of [float]. *)
Record AAsset (T : Type) := {
  asset_id : Z;
  asset_length : Z;
  asset_floats : list T
}.
Arguments asset_id {T} _.
Arguments asset_length {T} _.
Arguments asset_floats {T} _.

(** [litert::TensorBuffer]: its handle, the result of [Size()] (an
    [Expected<size_t>], in bytes) and the floats it holds. *)
Record TensorBuffer (T : Type) := {
  buf_id : Z;
  buf_size : option Z;
  buf_data : list T
}.
Arguments buf_id {T} _.
Arguments buf_size {T} _.
Arguments buf_data {T} _.

(** [litert::CompiledModel]: its handle and the results of the queries the
    engine makes on it after compilation. *)
Record CompiledModel (T : Type) := {
  model_id : Z;
  IsFullyAccelerated : option bool;
  CreateInputBuffers : option (list (TensorBuffer T));
  CreateOutputBuffers : option (list (TensorBuffer T))
}.
Arguments model_id {T} _.
Arguments IsFullyAccelerated {T} _.
Arguments CreateInputBuffers {T} _.
Arguments CreateOutputBuffers {T} _.

(** [struct OcrInference::LiteRtObjects] *)
Record LiteRtObjects (T : Type) := {
  cpu_env : option Environment;
  compiled_encoder : option (CompiledModel T);
  compiled_decoder : option (CompiledModel T);
  encoder_input_buffers : list (TensorBuffer T);
  encoder_output_buffers : list (TensorBuffer T);
  decoder_input_buffers : list (TensorBuffer T);
  decoder_output_buffers : list (TensorBuffer T);
  encoder_hidden_states : list T;
  decoder_logits : list T;
  using_gpu : bool;
  encoder_using_gpu : bool;
  decoder_using_gpu : bool
}.
Arguments cpu_env {T} _.
Arguments compiled_encoder {T} _.
Arguments compiled_decoder {T} _.
Arguments encoder_input_buffers {T} _.
Arguments encoder_output_buffers {T} _.
Arguments decoder_input_buffers {T} _.
Arguments decoder_output_buffers {T} _.
Arguments encoder_hidden_states {T} _.
Arguments decoder_logits {T} _.
Arguments using_gpu {T} _.
Arguments encoder_using_gpu {T} _.
Arguments decoder_using_gpu {T} _.

(** The data members of [class OcrInference].  [embeddings_data_] points
    into the buffer of the embeddings asset: the model keeps the floats it
    points to. *)
Record OcrInference (T : Type) := {
  litert_ : option (LiteRtObjects T);
  encoder_asset_ : option (AAsset T);
  decoder_asset_ : option (AAsset T);
  embeddings_asset_ : option (AAsset T);
  embeddings_data_ : list T;
  embedding_count_ : Z;
  embeddings_input_ : list T;
  attention_mask_ : list T;
  initialized_ : bool;
  encoder_output_size_ : Z;
  decoder_output_size_ : Z
}.
Arguments litert_ {T} _.
Arguments encoder_asset_ {T} _.
Arguments decoder_asset_ {T} _.
Arguments embeddings_asset_ {T} _.
Arguments embeddings_data_ {T} _.
Arguments embedding_count_ {T} _.
Arguments embeddings_input_ {T} _.
Arguments attention_mask_ {T} _.
Arguments initialized_ {T} _.
Arguments encoder_output_size_ {T} _.
Arguments decoder_output_size_ {T} _.

(** What the engine asks of the outside world, in the order of the calls. *)
Inductive Event :=
| SharedEnvCreate            (* litert::Environment::Create(env_options) *)
| CpuEnvCreate               (* litert::Environment::Create({}) *)
| PagesAdvised (asset : Z)   (* madvise(MADV_DONTNEED) on an asset buffer *)
| BufferDestroyed (buf : Z)  (* ~TensorBuffer *)
| ModelDestroyed (model : Z) (* ~CompiledModel *)
| EnvDestroyed (env : Z)     (* ~Environment *)
| AssetClosed (asset : Z)    (* AAsset_close *)
| Slept100ms.                (* std::this_thread::sleep_for *)

(** The state of the process outside the engine object: the global
    [g_persist_env] and the calls made so far, oldest first. *)
Record Process := {
  g_persist_env : option Environment;
  calls : list Event
}.

Definition emit (evs : list Event) (p : Process) : Process :=
  {| g_persist_env := g_persist_env p; calls := calls p ++ evs |}.

(** The outcome of each LiteRT call of an inference: whether a [Write] or
    a [Read] has a value, and what a [Run] leaves in the output buffers
    for the data in the input buffers.  The calls of the decode loop get
    the loop variable [step], so that a backend may fail at a chosen step. *)
Record Backend (T : Type) := {
  encoder_input_write : list T -> bool;
  encoder_run : list (list T) -> option (list (list T));
  encoder_output_read : list T -> bool;
  decoder_hidden_write : list T -> bool;
  decoder_mask_write : Z -> list T -> bool;
  decoder_emb_write : Z -> list T -> bool;
  decoder_run : Z -> list (list T) -> option (list (list T));
  decoder_logits_read : Z -> list T -> bool
}.
Arguments encoder_input_write {T} _.
Arguments encoder_run {T} _.
Arguments encoder_output_read {T} _.
Arguments decoder_hidden_write {T} _.
Arguments decoder_mask_write {T} _.
Arguments decoder_emb_write {T} _.
Arguments decoder_run {T} _.
Arguments decoder_logits_read {T} _.

Section Engine.
Context {T : Type} `{FloatOps T}.

(** ** Assignments to the members of [LiteRtObjects] *)

Definition set_encoder_input_buffers (v : list (TensorBuffer T))
    (l : LiteRtObjects T) : LiteRtObjects T :=
  {| cpu_env := cpu_env l; compiled_encoder := compiled_encoder l;
     compiled_decoder := compiled_decoder l;
     encoder_input_buffers := v;
     encoder_output_buffers := encoder_output_buffers l;
     decoder_input_buffers := decoder_input_buffers l;
     decoder_output_buffers := decoder_output_buffers l;
     encoder_hidden_states := encoder_hidden_states l;
     decoder_logits := decoder_logits l; using_gpu := using_gpu l;
     encoder_using_gpu := encoder_using_gpu l;
     decoder_using_gpu := decoder_using_gpu l |}.

Definition set_encoder_output_buffers (v : list (TensorBuffer T))
    (l : LiteRtObjects T) : LiteRtObjects T :=
  {| cpu_env := cpu_env l; compiled_encoder := compiled_encoder l;
     compiled_decoder := compiled_decoder l;
     encoder_input_buffers := encoder_input_buffers l;
     encoder_output_buffers := v;
     decoder_input_buffers := decoder_input_buffers l;
     decoder_output_buffers := decoder_output_buffers l;
     encoder_hidden_states := encoder_hidden_states l;
     decoder_logits := decoder_logits l; using_gpu := using_gpu l;
     encoder_using_gpu := encoder_using_gpu l;
     decoder_using_gpu := decoder_using_gpu l |}.

Definition set_decoder_input_buffers (v : list (TensorBuffer T))
    (l : LiteRtObjects T) : LiteRtObjects T :=
  {| cpu_env := cpu_env l; compiled_encoder := compiled_encoder l;
     compiled_decoder := compiled_decoder l;
     encoder_input_buffers := encoder_input_buffers l;
     encoder_output_buffers := encoder_output_buffers l;
     decoder_input_buffers := v;
     decoder_output_buffers := decoder_output_buffers l;
     encoder_hidden_states := encoder_hidden_states l;
     decoder_logits := decoder_logits l; using_gpu := using_gpu l;
     encoder_using_gpu := encoder_using_gpu l;
     decoder_using_gpu := decoder_using_gpu l |}.

Definition set_decoder_output_buffers (v : list (TensorBuffer T))
    (l : LiteRtObjects T) : LiteRtObjects T :=
  {| cpu_env := cpu_env l; compiled_encoder := compiled_encoder l;
     compiled_decoder := compiled_decoder l;
     encoder_input_buffers := encoder_input_buffers l;
     encoder_output_buffers := encoder_output_buffers l;
     decoder_input_buffers := decoder_input_buffers l;
     decoder_output_buffers := v;
     encoder_hidden_states := encoder_hidden_states l;
     decoder_logits := decoder_logits l; using_gpu := using_gpu l;
     encoder_using_gpu := encoder_using_gpu l;
     decoder_using_gpu := decoder_using_gpu l |}.

Definition set_encoder_hidden_states (v : list T)
    (l : LiteRtObjects T) : LiteRtObjects T :=
  {| cpu_env := cpu_env l; compiled_encoder := compiled_encoder l;
     compiled_decoder := compiled_decoder l;
     encoder_input_buffers := encoder_input_buffers l;
     encoder_output_buffers := encoder_output_buffers l;
     decoder_input_buffers := decoder_input_buffers l;
     decoder_output_buffers := decoder_output_buffers l;
     encoder_hidden_states := v;
     decoder_logits := decoder_logits l; using_gpu := using_gpu l;
     encoder_using_gpu := encoder_using_gpu l;
     decoder_using_gpu := decoder_using_gpu l |}.

Definition set_decoder_logits (v : list T)
    (l : LiteRtObjects T) : LiteRtObjects T :=
  {| cpu_env := cpu_env l; compiled_encoder := compiled_encoder l;
     compiled_decoder := compiled_decoder l;
     encoder_input_buffers := encoder_input_buffers l;
     encoder_output_buffers := encoder_output_buffers l;
     decoder_input_buffers := decoder_input_buffers l;
     decoder_output_buffers := decoder_output_buffers l;
     encoder_hidden_states := encoder_hidden_states l;
     decoder_logits := v; using_gpu := using_gpu l;
     encoder_using_gpu := encoder_using_gpu l;
     decoder_using_gpu := decoder_using_gpu l |}.

(** ** Tensor buffer calls *)

Definition set_data (d : list T) (b : TensorBuffer T) : TensorBuffer T :=
  {| buf_id := buf_id b; buf_size := buf_size b; buf_data := d |}.

(** [bufs[i].Write<float>(span)]: with a value, buffer [i] holds the span.
    ([bufs[i]] past the end of the vector is undefined in C++; the model
    leaves the vector as it is.) *)
Definition Write (has_value : bool) (bufs : list (TensorBuffer T)) (i : nat)
    (span : list T) : option (list (TensorBuffer T)) :=
  if has_value then Some (alter (set_data span) i bufs) else None.

(** The output buffers after a run: buffer [k] holds the [k]-th output
    (nothing, where the run left none). *)
Definition store_outputs (outs : list (list T))
    (outputs : list (TensorBuffer T)) : list (TensorBuffer T) :=
  imap (fun k b => set_data (nth k outs []) b) outputs.

(** [model->Run(inputs, outputs)] *)
Definition Run (model : list (list T) -> option (list (list T)))
    (inputs outputs : list (TensorBuffer T)) : option (list (TensorBuffer T)) :=
  match model (map buf_data inputs) with
  | Some outs => Some (store_outputs outs outputs)
  | None => None
  end.

(** The floats of [bufs[i]] (none past the end of the vector, where C++
    is undefined). *)
Definition data_at (bufs : list (TensorBuffer T)) (i : nat) : list T :=
  match bufs !! i with Some b => buf_data b | None => [] end.

(** [bufs[i].Read<float>(span)] into a vector sized from the buffer: with
    a value, the vector holds the floats of the buffer. *)
Definition Read (has_value : list T -> bool) (bufs : list (TensorBuffer T))
    (i : nat) : option (list T) :=
  if has_value (data_at bufs i) then Some (data_at bufs i) else None.

(** ** Greedy selection *)

(** [logits[i]] for the pointer [logits = data + base].  A read outside
    the vector is undefined in C++; the model reads [fzero] there. *)
Definition read_at (data : list T) (base i : Z) : T :=
  nth (Z.to_nat (base + i)) data fzero.

(** The [for] loop of [FindMaxLogitToken]: [n] iterations remain and
    [vocab_idx] is the loop variable. *)
Fixpoint max_logit_loop (data : list T) (base : Z) (n : nat)
    (vocab_idx : Z) (max_logit : T) (max_token : Z) : Z :=
  match n with
  | O => max_token
  | S n' =>
      let logit := read_at data base vocab_idx in
      if fgt logit max_logit
      then max_logit_loop data base n' (vocab_idx + 1) logit vocab_idx
      else max_logit_loop data base n' (vocab_idx + 1) max_logit max_token
  end.

(** [OcrInference::FindMaxLogitToken] on the vector [litert_->decoder_logits] *)
Definition FindMaxLogitToken (decoder_logits : list T) (seq_len : Z) : Z :=
  let last_token_pos := seq_len - 1 in
  let base := last_token_pos * VOCAB_SIZE in
  let max_logit := read_at decoder_logits base 0 in
  let max_token := 0 in
  max_logit_loop decoder_logits base (Z.to_nat (VOCAB_SIZE - 1)) 1
    max_logit max_token.

(** [std::memcpy(dst + doff, src + soff, n * sizeof(float))].  Where C++ is
    undefined the model copies less: only the floats [src] has, and only
    into the positions [dst] has. *)
Definition memcpy (dst : list T) (doff : Z) (src : list T) (soff n : Z) : list T :=
  list_inserts (Z.to_nat doff) (take (Z.to_nat n) (drop (Z.to_nat soff) src)) dst.

(** [OcrInference::UpdateEmbedding], returning the new [embeddings_input_] *)
Definition UpdateEmbedding (embeddings_data embeddings_input : list T)
    (token_id index : Z) : list T :=
  let embed_offset := token_id * HIDDEN_SIZE in
  let output_offset := index * HIDDEN_SIZE in
  memcpy embeddings_input output_offset embeddings_data embed_offset HIDDEN_SIZE.

(** [std::fill(v.begin(), v.end(), 0.0f)] *)
Definition fill_zero (v : list T) : list T := replicate (length v) fzero.

(** [absl::MakeConstSpan(p, n)] *)
Definition span (v : list T) (n : Z) : list T := take (Z.to_nat n) v.

(** ** The decode loop *)

(** What an iteration of the decode loop works on: the objects behind
    [litert_], the members [embeddings_input_] and [attention_mask_], the
    caller's array [out_tokens] and the local [token_count]. *)
Record DecodeState := {
  ds_litert : LiteRtObjects T;
  ds_embeddings_input : list T;
  ds_attention_mask : list T;
  ds_out_tokens : list Z;
  ds_token_count : Z
}.

Definition with_litert (l : LiteRtObjects T) (s : DecodeState) : DecodeState :=
  {| ds_litert := l; ds_embeddings_input := ds_embeddings_input s;
     ds_attention_mask := ds_attention_mask s;
     ds_out_tokens := ds_out_tokens s; ds_token_count := ds_token_count s |}.

(** How an iteration ends: by [break], or at the end of the body. *)
Inductive Flow := Break (s : DecodeState) | Next (s : DecodeState).

(** The body of the [for] loop of [InferTokens], at [step]. *)
Definition decode_step (B : Backend T) (embeddings_data : list T)
    (max_tokens : Z) (step : Z) (s : DecodeState) : Flow :=
  let l := ds_litert s in
  let mask := span (ds_attention_mask s) MAX_SEQUENCE_LENGTH in
  match Write (decoder_mask_write B step mask) (decoder_input_buffers l) 1 mask with
  | None => Break s
  | Some bufs =>
  let l := set_decoder_input_buffers bufs l in
  let emb := span (ds_embeddings_input s) (MAX_SEQUENCE_LENGTH * HIDDEN_SIZE) in
  match Write (decoder_emb_write B step emb) (decoder_input_buffers l) 2 emb with
  | None => Break (with_litert l s)
  | Some bufs =>
  let l := set_decoder_input_buffers bufs l in
  match Run (decoder_run B step) (decoder_input_buffers l) (decoder_output_buffers l) with
  | None => Break (with_litert l s)
  | Some outs =>
  let l := set_decoder_output_buffers outs l in
  match Read (decoder_logits_read B step) (decoder_output_buffers l) 0 with
  | None => Break (with_litert l s)
  | Some logits =>
  let l := set_decoder_logits logits l in
  let token_count := ds_token_count s in
  let next_token := FindMaxLogitToken (decoder_logits l) token_count in
  if (next_token <? 0) || (next_token =? END_TOKEN_ID) then Break (with_litert l s)
  else
    let out_tokens := <[Z.to_nat token_count := next_token]> (ds_out_tokens s) in
    let embeddings_input :=
      UpdateEmbedding embeddings_data (ds_embeddings_input s) next_token token_count in
    let attention_mask := <[Z.to_nat token_count := fone]> (ds_attention_mask s) in
    let token_count := token_count + 1 in
    let s' := {| ds_litert := l; ds_embeddings_input := embeddings_input;
                 ds_attention_mask := attention_mask;
                 ds_out_tokens := out_tokens; ds_token_count := token_count |} in
    if (token_count >=? max_tokens) || (token_count >=? MAX_SEQUENCE_LENGTH)
    then Break s' else Next s'
  end end end end.

(** [for (int step = ...; step < MAX_SEQUENCE_LENGTH - 1; ++step)], with
    [n] iterations left before the bound. *)
Fixpoint decode_loop (B : Backend T) (embeddings_data : list T)
    (max_tokens : Z) (n : nat) (step : Z) (s : DecodeState) : DecodeState :=
  match n with
  | O => s
  | S n' =>
      match decode_step B embeddings_data max_tokens step s with
      | Break s' => s'
      | Next s' => decode_loop B embeddings_data max_tokens n' (step + 1) s'
      end
  end.

(** The engine after an inference that went through [l]. *)
Definition with_objects (l : LiteRtObjects T) (embeddings_input attention_mask : list T)
    (e : OcrInference T) : OcrInference T :=
  {| litert_ := Some l; encoder_asset_ := encoder_asset_ e;
     decoder_asset_ := decoder_asset_ e;
     embeddings_asset_ := embeddings_asset_ e;
     embeddings_data_ := embeddings_data_ e;
     embedding_count_ := embedding_count_ e;
     embeddings_input_ := embeddings_input;
     attention_mask_ := attention_mask;
     initialized_ := initialized_ e;
     encoder_output_size_ := encoder_output_size_ e;
     decoder_output_size_ := decoder_output_size_ e |}.

(** [OcrInference::InferTokens]: the value returned, the array
    [out_tokens] and the engine after the call.  None of the calls made
    here throws, so the [catch] clause is not entered.  ([litert_] is
    never null in an initialized engine; the model returns 0 there.) *)
Definition InferTokens (B : Backend T) (e : OcrInference T)
    (image_data : list T) (out_tokens : list Z) (max_tokens : Z)
    : Z * list Z * OcrInference T :=
  if negb (initialized_ e) then (0, out_tokens, e) else
  match litert_ e with
  | None => (0, out_tokens, e)
  | Some l =>
  let image_data_size := IMAGE_SIZE * IMAGE_SIZE * 3 in
  let image := span image_data image_data_size in
  match Write (encoder_input_write B image) (encoder_input_buffers l) 0 image with
  | None => (0, out_tokens, e)
  | Some bufs =>
  let l := set_encoder_input_buffers bufs l in
  match Run (encoder_run B) (encoder_input_buffers l) (encoder_output_buffers l) with
  | None => (0, out_tokens, with_objects l (embeddings_input_ e) (attention_mask_ e) e)
  | Some outs =>
  let l := set_encoder_output_buffers outs l in
  match Read (encoder_output_read B) (encoder_output_buffers l) 0 with
  | None => (0, out_tokens, with_objects l (embeddings_input_ e) (attention_mask_ e) e)
  | Some hidden =>
  let l := set_encoder_hidden_states hidden l in
  let embeddings_input := fill_zero (embeddings_input_ e) in
  let attention_mask := fill_zero (attention_mask_ e) in
  let out_tokens := <[0%nat := START_TOKEN_ID]> out_tokens in
  let embeddings_input :=
    UpdateEmbedding (embeddings_data_ e) embeddings_input START_TOKEN_ID 0 in
  let attention_mask := <[0%nat := fone]> attention_mask in
  let token_count := 1 in
  match Write (decoder_hidden_write B (encoder_hidden_states l))
          (decoder_input_buffers l) 0 (encoder_hidden_states l) with
  | None => (0, out_tokens, with_objects l embeddings_input attention_mask e)
  | Some bufs =>
  let l := set_decoder_input_buffers bufs l in
  let s := decode_loop B (embeddings_data_ e) max_tokens
             (Z.to_nat (MAX_SEQUENCE_LENGTH - 1)) 0
             {| ds_litert := l; ds_embeddings_input := embeddings_input;
                ds_attention_mask := attention_mask;
                ds_out_tokens := out_tokens; ds_token_count := token_count |} in
  (ds_token_count s, ds_out_tokens s,
   with_objects (ds_litert s) (ds_embeddings_input s) (ds_attention_mask s) e)
  end end end end end.

(** The token sequence handed back to the caller: the first [count]
    entries of [out_tokens]. *)
Definition tokens_of (r : Z * list Z * OcrInference T) : list Z :=
  take (Z.to_nat (fst (fst r))) (snd (fst r)).

(** ** Shutdown *)

(** The destructor calls of a vector of buffers and of an optional model
    or environment. *)
Definition destroy_buffers (bufs : list (TensorBuffer T)) : list Event :=
  map (fun b => BufferDestroyed (buf_id b)) bufs.

Definition destroy_model (m : option (CompiledModel T)) : list Event :=
  match m with Some m => [ModelDestroyed (model_id m)] | None => [] end.

Definition destroy_env (v : option Environment) : list Event :=
  match v with Some v => [EnvDestroyed (env_id v)] | None => [] end.

(** [~LiteRtObjects]: the members are destroyed in the reverse order of
    their declaration. *)
Definition destroy_objects (l : LiteRtObjects T) : list Event :=
  destroy_buffers (decoder_output_buffers l)
  ++ destroy_buffers (decoder_input_buffers l)
  ++ destroy_buffers (encoder_output_buffers l)
  ++ destroy_buffers (encoder_input_buffers l)
  ++ destroy_model (compiled_decoder l)
  ++ destroy_model (compiled_encoder l)
  ++ destroy_env (cpu_env l).

(** The four [clear()] and two [reset()] calls at the head of [Close]. *)
Definition release_objects (l : LiteRtObjects T) : list Event :=
  destroy_buffers (encoder_input_buffers l)
  ++ destroy_buffers (encoder_output_buffers l)
  ++ destroy_buffers (decoder_input_buffers l)
  ++ destroy_buffers (decoder_output_buffers l)
  ++ destroy_model (compiled_encoder l)
  ++ destroy_model (compiled_decoder l).

Definition released (l : LiteRtObjects T) : LiteRtObjects T :=
  {| cpu_env := cpu_env l; compiled_encoder := None; compiled_decoder := None;
     encoder_input_buffers := []; encoder_output_buffers := [];
     decoder_input_buffers := []; decoder_output_buffers := [];
     encoder_hidden_states := encoder_hidden_states l;
     decoder_logits := decoder_logits l; using_gpu := using_gpu l;
     encoder_using_gpu := encoder_using_gpu l;
     decoder_using_gpu := decoder_using_gpu l |}.

(** [if (asset) { AAsset_close(asset); asset = nullptr; }] *)
Definition close_asset (a : option (AAsset T)) : list Event :=
  match a with Some a => [AssetClosed (asset_id a)] | None => [] end.

(** [OcrInference::Close].  [g_persist_env] is not touched.  The pointer
    [embeddings_data_] and the vector [embeddings_input_] are left as
    they are. *)
Definition Close (p : Process) (e : OcrInference T) : Process * OcrInference T :=
  let p :=
    match litert_ e with
    | Some l =>
        let p := emit (release_objects l) p in
        let l := released l in
        let p := if using_gpu l then emit [Slept100ms] p else p in
        (* litert_.reset() *)
        emit (destroy_objects l) p
    | None => p
    end in
  let p := emit (close_asset (encoder_asset_ e)) p in
  let p := emit (close_asset (decoder_asset_ e)) p in
  let p := emit (close_asset (embeddings_asset_ e)) p in
  (p, {| litert_ := None; encoder_asset_ := None; decoder_asset_ := None;
         embeddings_asset_ := None;
         embeddings_data_ := embeddings_data_ e;
         embedding_count_ := embedding_count_ e;
         embeddings_input_ := embeddings_input_ e;
         attention_mask_ := [];
         initialized_ := if initialized_ e then false else initialized_ e;
         encoder_output_size_ := encoder_output_size_ e;
         decoder_output_size_ := decoder_output_size_ e |}).

(** The engine as its constructor leaves it. *)
Definition new_engine : OcrInference T :=
  {| litert_ := None; encoder_asset_ := None; decoder_asset_ := None;
     embeddings_asset_ := None; embeddings_data_ := []; embedding_count_ := 0;
     embeddings_input_ := []; attention_mask_ := []; initialized_ := false;
     encoder_output_size_ := 0; decoder_output_size_ := 0 |}.

(** [OcrInference::IsEncoderUsingGpu] and [OcrInference::IsDecoderUsingGpu] *)
Definition IsEncoderUsingGpu (e : OcrInference T) : bool :=
  match litert_ e with None => false | Some l => encoder_using_gpu l end.

Definition IsDecoderUsingGpu (e : OcrInference T) : bool :=
  match litert_ e with None => false | Some l => decoder_using_gpu l end.

Definition IsInitialized (e : OcrInference T) : bool := initialized_ e.

(** ** Initialization *)

(** What the platform answers during one [Initialize]: the results of the
    LiteRT, [dlopen] and allocation calls.  A [bool] tells whether an
    [Expected] has a value; the fields named [_throws] tell whether the
    call throws a [std::exception]. *)
Record InitWorld := {
  make_unique_throws : bool;      (* std::make_unique<LiteRtObjects>() *)
  shared_env_result : option Environment; (* Environment::Create(env_options) *)
  opencl_lib : bool;              (* one of the four dlopen calls succeeds *)
  gpu_options_create : bool;      (* Options::Create(), encoder *)
  gpu_set_accelerators : bool;    (* SetHardwareAccelerators(kGpu), encoder *)
  gpu_decoder_options_create : bool;
  async_throws : bool;            (* std::async(std::launch::async, ...) *)
  gpu_encoder_result : option (CompiledModel T);
  gpu_decoder_result : option (CompiledModel T);
  hardware_concurrency : Z;       (* std::thread::hardware_concurrency() *)
  cpu_env_result : option Environment;    (* Environment::Create({}) *)
  cpu_encoder_options_create : bool;
  cpu_encoder_set_accelerators : bool;
  cpu_encoder_cpu_options : bool; (* GetCpuOptions() *)
  cpu_decoder_options_create : bool;
  cpu_decoder_set_accelerators : bool;
  cpu_decoder_cpu_options : bool;
  (* CompiledModel::Create on the CPU, by the thread count set, if any *)
  cpu_encoder_result : option Z -> option (CompiledModel T);
  cpu_decoder_result : option Z -> option (CompiledModel T);
  warmup_backend : Backend T;     (* the LiteRT calls of the warmup *)
  resize_throws : bool            (* embeddings_input_.resize(...) *)
}.

(** A call returns a value or leaves by an exception. *)
Inductive Outcome (A : Type) := Returned (a : A) | Thrown.
#[global] Arguments Returned {A} _.
#[global] Arguments Thrown {A}.

Definition with_models (enc dec : CompiledModel T) (gpu : bool)
    (l : LiteRtObjects T) : LiteRtObjects T :=
  {| cpu_env := cpu_env l; compiled_encoder := Some enc;
     compiled_decoder := Some dec;
     encoder_input_buffers := encoder_input_buffers l;
     encoder_output_buffers := encoder_output_buffers l;
     decoder_input_buffers := decoder_input_buffers l;
     decoder_output_buffers := decoder_output_buffers l;
     encoder_hidden_states := encoder_hidden_states l;
     decoder_logits := decoder_logits l; using_gpu := gpu;
     encoder_using_gpu := gpu; decoder_using_gpu := gpu |}.

(** [r.HasValue() && !r.Value()] on the result of [IsFullyAccelerated()] *)
Definition not_fully_accelerated (m : CompiledModel T) : bool :=
  match IsFullyAccelerated m with Some v => negb v | None => false end.

(** [OcrInference::TryCompileWithGpu] on [*litert_].  The encoder is
    compiled by the task of [std::async] and the decoder by the caller;
    both results are there at [encoder_future.get()].  A compiled model
    that is not moved into [litert_] is destroyed on return, the
    encoder's result first: it is declared after the decoder's. *)
Definition TryCompileWithGpu (w : InitWorld) (p : Process) (l : LiteRtObjects T)
    : Outcome bool * Process * LiteRtObjects T :=
  if negb (gpu_options_create w) then (Returned false, p, l) else
  if negb (gpu_set_accelerators w) then (Returned false, p, l) else
  if negb (gpu_decoder_options_create w) then (Returned false, p, l) else
  if async_throws w then (Thrown, p, l) else
  let compiled_decoder_result := gpu_decoder_result w in
  let compiled_encoder_result := gpu_encoder_result w in
  let dropped := destroy_model compiled_encoder_result
                 ++ destroy_model compiled_decoder_result in
  match compiled_encoder_result with
  | None => (Returned false, emit dropped p, l)
  | Some enc =>
  if not_fully_accelerated enc then (Returned false, emit dropped p, l) else
  match compiled_decoder_result with
  | None => (Returned false, emit dropped p, l)
  | Some dec =>
  if not_fully_accelerated dec then (Returned false, emit dropped p, l) else
  (Returned true, p, with_models enc dec true l)
  end end.

Definition set_cpu_env (v : Environment) (l : LiteRtObjects T) : LiteRtObjects T :=
  {| cpu_env := Some v; compiled_encoder := compiled_encoder l;
     compiled_decoder := compiled_decoder l;
     encoder_input_buffers := encoder_input_buffers l;
     encoder_output_buffers := encoder_output_buffers l;
     decoder_input_buffers := decoder_input_buffers l;
     decoder_output_buffers := decoder_output_buffers l;
     encoder_hidden_states := encoder_hidden_states l;
     decoder_logits := decoder_logits l; using_gpu := using_gpu l;
     encoder_using_gpu := encoder_using_gpu l;
     decoder_using_gpu := decoder_using_gpu l |}.

(** The first block of [TryCompileWithCpu]: the CPU environment of this
    engine is created unless it is there.  [None] is the early return. *)
Definition ensure_cpu_env (w : InitWorld) (p : Process) (l : LiteRtObjects T)
    : Process * option (LiteRtObjects T) :=
  match cpu_env l with
  | Some _ => (p, Some l)
  | None =>
      let p := emit [CpuEnvCreate] p in
      match cpu_env_result w with
      | None => (p, None)
      | Some v => (p, Some (set_cpu_env v l))
      end
  end.

(** [OcrInference::TryCompileWithCpu] on [*litert_] *)
Definition TryCompileWithCpu (w : InitWorld) (p : Process) (l : LiteRtObjects T)
    : bool * Process * LiteRtObjects T :=
  let num_threads := GetOptimalThreadCount (hardware_concurrency w) in
  match ensure_cpu_env w p l with
  | (p, None) => (false, p, l)
  | (p, Some l) =>
  if negb (cpu_encoder_options_create w) then (false, p, l) else
  if negb (cpu_encoder_set_accelerators w) then (false, p, l) else
  let encoder_threads := if cpu_encoder_cpu_options w then Some num_threads else None in
  if negb (cpu_decoder_options_create w) then (false, p, l) else
  if negb (cpu_decoder_set_accelerators w) then (false, p, l) else
  let decoder_threads := if cpu_decoder_cpu_options w then Some num_threads else None in
  let compiled_encoder_result := cpu_encoder_result w encoder_threads in
  let compiled_decoder_result := cpu_decoder_result w decoder_threads in
  let dropped := destroy_model compiled_decoder_result
                 ++ destroy_model compiled_encoder_result in
  match compiled_encoder_result with
  | None => (false, emit dropped p, l)
  | Some enc =>
  match compiled_decoder_result with
  | None => (false, emit dropped p, l)
  | Some dec => (true, p, with_models enc dec false l)
  end end end.

(** [v.resize(n, x)] *)
Definition resize (v : list T) (n : Z) (x : T) : list T :=
  take (Z.to_nat n) v ++ replicate (Z.to_nat n - length v) x.

(** [bufs[0].Size()]; [bufs[0]] of an empty vector is undefined in C++
    and has no value in the model. *)
Definition Size0 (bufs : list (TensorBuffer T)) : option Z :=
  match bufs !! 0%nat with Some b => buf_size b | None => None end.

Definition sizeof_float : Z := 4.

(** [OcrInference::CreateBuffers] on [*litert_], with the members
    [encoder_output_size_] and [decoder_output_size_].  The four vectors
    assigned here are empty before the call.  (A null [compiled_encoder]
    or [compiled_decoder] is undefined in C++; the model returns false.) *)
Definition CreateBuffers (l : LiteRtObjects T) (encoder_output_size decoder_output_size : Z)
    : bool * LiteRtObjects T * Z * Z :=
  let failed l a b := (false, l, a, b) in
  match compiled_encoder l, compiled_decoder l with
  | Some encoder, Some decoder =>
  match CreateInputBuffers encoder with
  | None => failed l encoder_output_size decoder_output_size
  | Some v =>
  let l := set_encoder_input_buffers v l in
  match CreateOutputBuffers encoder with
  | None => failed l encoder_output_size decoder_output_size
  | Some v =>
  let l := set_encoder_output_buffers v l in
  match CreateInputBuffers decoder with
  | None => failed l encoder_output_size decoder_output_size
  | Some v =>
  let l := set_decoder_input_buffers v l in
  match CreateOutputBuffers decoder with
  | None => failed l encoder_output_size decoder_output_size
  | Some v =>
  let l := set_decoder_output_buffers v l in
  match Size0 (encoder_output_buffers l) with
  | None => failed l encoder_output_size decoder_output_size
  | Some bytes =>
  let encoder_output_size := bytes / sizeof_float in
  match Size0 (decoder_output_buffers l) with
  | None => failed l encoder_output_size decoder_output_size
  | Some bytes =>
  let decoder_output_size := bytes / sizeof_float in
  let l := set_encoder_hidden_states
             (resize (encoder_hidden_states l) encoder_output_size fzero) l in
  let l := set_decoder_logits
             (resize (decoder_logits l) decoder_output_size fzero) l in
  (true, l, encoder_output_size, decoder_output_size)
  end end end end end end
  | _, _ => failed l encoder_output_size decoder_output_size
  end.

(** [OcrInference::PerformWarmup] on [*litert_]: the vectors it fills are
    locals, only the tensor buffers change. *)
Definition PerformWarmup (B : Backend T) (l : LiteRtObjects T)
    : bool * LiteRtObjects T :=
  let dummy_image := replicate (Z.to_nat (IMAGE_SIZE * IMAGE_SIZE * 3)) fzero in
  match Write (encoder_input_write B dummy_image) (encoder_input_buffers l) 0
          dummy_image with
  | None => (false, l)
  | Some bufs =>
  let l := set_encoder_input_buffers bufs l in
  match Run (encoder_run B) (encoder_input_buffers l) (encoder_output_buffers l) with
  | None => (false, l)
  | Some outs =>
  let l := set_encoder_output_buffers outs l in
  let encoder_output_floats :=
    match Size0 (encoder_output_buffers l) with
    | Some bytes => bytes / sizeof_float
    | None => 0
    end in
  if encoder_output_floats =? 0 then (false, l) else
  match Read (encoder_output_read B) (encoder_output_buffers l) 0 with
  | None => (false, l)
  | Some warmup_hidden_states =>
  let warmup_attention :=
    <[0%nat := fone]> (replicate (Z.to_nat MAX_SEQUENCE_LENGTH) fzero) in
  let warmup_embeddings :=
    replicate (Z.to_nat (MAX_SEQUENCE_LENGTH * HIDDEN_SIZE)) fzero in
  match Write (decoder_hidden_write B warmup_hidden_states)
          (decoder_input_buffers l) 0 warmup_hidden_states with
  | None => (false, l)
  | Some bufs =>
  let l := set_decoder_input_buffers bufs l in
  match Write (decoder_mask_write B 0 warmup_attention)
          (decoder_input_buffers l) 1 warmup_attention with
  | None => (false, l)
  | Some bufs =>
  let l := set_decoder_input_buffers bufs l in
  match Write (decoder_emb_write B 0 warmup_embeddings)
          (decoder_input_buffers l) 2 warmup_embeddings with
  | None => (false, l)
  | Some bufs =>
  let l := set_decoder_input_buffers bufs l in
  match Run (decoder_run B 0) (decoder_input_buffers l) (decoder_output_buffers l) with
  | None => (false, l)
  | Some outs => (true, set_decoder_output_buffers outs l)
  end end end end end end end.

(** A default-constructed [LiteRtObjects]. *)
Definition fresh_objects : LiteRtObjects T :=
  {| cpu_env := None; compiled_encoder := None; compiled_decoder := None;
     encoder_input_buffers := []; encoder_output_buffers := [];
     decoder_input_buffers := []; decoder_output_buffers := [];
     encoder_hidden_states := []; decoder_logits := []; using_gpu := false;
     encoder_using_gpu := false; decoder_using_gpu := false |}.

Definition set_using_gpu (v : bool) (l : LiteRtObjects T) : LiteRtObjects T :=
  {| cpu_env := cpu_env l; compiled_encoder := compiled_encoder l;
     compiled_decoder := compiled_decoder l;
     encoder_input_buffers := encoder_input_buffers l;
     encoder_output_buffers := encoder_output_buffers l;
     decoder_input_buffers := decoder_input_buffers l;
     decoder_output_buffers := decoder_output_buffers l;
     encoder_hidden_states := encoder_hidden_states l;
     decoder_logits := decoder_logits l; using_gpu := v;
     encoder_using_gpu := encoder_using_gpu l;
     decoder_using_gpu := decoder_using_gpu l |}.

(** The assignments at the head of the [try] block of [Initialize]: the
    engine takes the three assets and reads the embeddings. *)
Definition own_assets (encoder_asset decoder_asset embeddings_asset : AAsset T)
    (e : OcrInference T) : OcrInference T :=
  {| litert_ := litert_ e; encoder_asset_ := Some encoder_asset;
     decoder_asset_ := Some decoder_asset;
     embeddings_asset_ := Some embeddings_asset;
     embeddings_data_ := asset_floats embeddings_asset;
     embedding_count_ := asset_length embeddings_asset / sizeof_float;
     embeddings_input_ := embeddings_input_ e;
     attention_mask_ := attention_mask_ e;
     initialized_ := initialized_ e;
     encoder_output_size_ := encoder_output_size_ e;
     decoder_output_size_ := decoder_output_size_ e |}.

Definition set_litert (l : LiteRtObjects T) (e : OcrInference T) : OcrInference T :=
  with_objects l (embeddings_input_ e) (attention_mask_ e) e.

Definition set_output_sizes (encoder_output_size decoder_output_size : Z)
    (e : OcrInference T) : OcrInference T :=
  {| litert_ := litert_ e; encoder_asset_ := encoder_asset_ e;
     decoder_asset_ := decoder_asset_ e;
     embeddings_asset_ := embeddings_asset_ e;
     embeddings_data_ := embeddings_data_ e;
     embedding_count_ := embedding_count_ e;
     embeddings_input_ := embeddings_input_ e;
     attention_mask_ := attention_mask_ e;
     initialized_ := initialized_ e;
     encoder_output_size_ := encoder_output_size;
     decoder_output_size_ := decoder_output_size |}.

(** The last assignments of [Initialize]: the two vectors are resized and
    [initialized_] is set. *)
Definition make_ready (e : OcrInference T) : OcrInference T :=
  {| litert_ := litert_ e; encoder_asset_ := encoder_asset_ e;
     decoder_asset_ := decoder_asset_ e;
     embeddings_asset_ := embeddings_asset_ e;
     embeddings_data_ := embeddings_data_ e;
     embedding_count_ := embedding_count_ e;
     embeddings_input_ :=
       resize (embeddings_input_ e) (MAX_SEQUENCE_LENGTH * HIDDEN_SIZE) fzero;
     attention_mask_ := resize (attention_mask_ e) MAX_SEQUENCE_LENGTH fzero;
     initialized_ := true;
     encoder_output_size_ := encoder_output_size_ e;
     decoder_output_size_ := decoder_output_size_ e |}.

(** The block of [Initialize] under [g_env_mutex]: the shared environment
    is created when [g_persist_env] has no value.  The [bool] is false
    at the early return. *)
Definition acquire_shared_env (w : InitWorld) (p : Process) : Process * bool :=
  match g_persist_env p with
  | Some _ => (p, true)
  | None =>
      let p := emit [SharedEnvCreate] p in
      match shared_env_result w with
      | None => (p, false)
      | Some v => ({| g_persist_env := Some v; calls := calls p |}, true)
      end
  end.

(** The GPU attempt of [Initialize]: [TryCompileWithGpu] and, when it
    compiled, the two calls of [ReleaseSystemPages]. *)
Definition gpu_attempt (w : InitWorld) (p : Process) (l : LiteRtObjects T)
    (encoder_asset decoder_asset : AAsset T)
    : Outcome bool * Process * LiteRtObjects T :=
  match TryCompileWithGpu w p l with
  | (Returned true, p, l) =>
      (Returned true,
       emit [PagesAdvised (asset_id encoder_asset);
             PagesAdvised (asset_id decoder_asset)] p, l)
  | r => r
  end.

(** The [catch] clause of [Initialize]: [Close(); return false;] *)
Definition caught (p : Process) (e : OcrInference T) : bool * Process * OcrInference T :=
  let (p, e) := Close p e in (false, p, e).

(** [OcrInference::Initialize] ([cache_dir] is not used; [native_lib_dir]
    only goes into the options of the shared environment). *)
Definition Initialize (w : InitWorld) (p : Process) (e : OcrInference T)
    (encoder_asset decoder_asset embeddings_asset : AAsset T)
    : bool * Process * OcrInference T :=
  if initialized_ e then (false, p, e) else
  (* try *)
  let e := own_assets encoder_asset decoder_asset embeddings_asset e in
  if make_unique_throws w then caught p e else
  (* the assignment to litert_ destroys the object it held *)
  let p := emit (match litert_ e with Some old => destroy_objects old | None => [] end) p in
  let l := fresh_objects in
  match acquire_shared_env w p with
  | (p, false) => (false, p, set_litert l e)
  | (p, true) =>
  let opencl_available := opencl_lib w in
  match (if opencl_available
         then gpu_attempt w p l encoder_asset decoder_asset
         else (Returned false, p, l)) with
  | (Thrown, p, l) => caught p (set_litert l e)
  | (Returned compiled, p, l) =>
  match (if negb compiled then TryCompileWithCpu w p l else (compiled, p, l)) with
  | (false, p, l) => (false, p, set_litert l e)
  | (true, p, l) =>
  let l := set_using_gpu (encoder_using_gpu l && decoder_using_gpu l) l in
  match CreateBuffers l (encoder_output_size_ e) (decoder_output_size_ e) with
  | (false, l, enc_size, dec_size) =>
      (false, p, set_output_sizes enc_size dec_size (set_litert l e))
  | (true, l, enc_size, dec_size) =>
  let e := set_output_sizes enc_size dec_size e in
  match PerformWarmup (warmup_backend w) l with
  | (false, l) => (false, p, set_litert l e)
  | (true, l) =>
  if resize_throws w then caught p (set_litert l e) else
  (true, p, make_ready (set_litert l e))
  end end end end end.

End Engine.

(** ** Engines in service *)

(** The assets closed among the calls, oldest first. *)
Definition asset_closes (evs : list Event) : list Z :=
  flat_map (fun ev => match ev with AssetClosed asset => [asset] | _ => [] end) evs.

Section Service.
Context {T : Type} `{FloatOps T}.

(** The first output of a run: the logits, for the decoder. *)
Definition first_output (outs : list (list T)) : list T := nth 0 outs [].

(** What [Initialize] establishes and [InferTokens] keeps: the flag is
    set, [litert_] holds the objects, and each model has an output buffer. *)
Definition in_service (e : OcrInference T) : Prop :=
  initialized_ e = true /\
  exists l, litert_ e = Some l /\
    encoder_output_buffers l <> [] /\ decoder_output_buffers l <> [].

(** The calls before the decode loop all have a value. *)
Definition encoder_succeeds (B : Backend T) : Prop :=
  (forall d, encoder_input_write B d = true) /\
  (forall ins, encoder_run B ins <> None) /\
  (forall d, encoder_output_read B d = true) /\
  (forall d, decoder_hidden_write B d = true).

(** At [step] the two writes, the run and the read have a value, and the
    argmax of the logits is not the END token, whatever the row. *)
Definition step_succeeds (B : Backend T) (step : Z) : Prop :=
  (forall d, decoder_mask_write B step d = true) /\
  (forall d, decoder_emb_write B step d = true) /\
  (forall ins, exists outs, decoder_run B step ins = Some outs /\
     forall seq_len, FindMaxLogitToken (first_output outs) seq_len <> END_TOKEN_ID) /\
  (forall d, decoder_logits_read B step d = true).


(** A token the decode loop may append: a vocabulary index other than END. *)
Definition generated (t : Z) : Prop := 0 <= t < VOCAB_SIZE /\ t <> END_TOKEN_ID.

(** The state an iteration ends in. *)
Definition flow_state (f : @Flow T) : @DecodeState T :=
  match f with Break s => s | Next s => s end.

(** A tensor buffer without the floats it holds. *)
Definition wipe (b : TensorBuffer T) : TensorBuffer T := set_data [] b.

(** Two vectors of the same tensor buffers that hold the same floats in
    every buffer whose index is not in [K]. *)
Definition agree_outside (K : nat -> Prop) (a b : list (TensorBuffer T)) : Prop :=
  wipe <$> a = wipe <$> b /\ forall i, ~ K i -> a !! i = b !! i.

(** The buffers [InferTokens] writes before it reads them: the first
    input of the encoder, the first three inputs of the decoder, and the
    outputs of both. *)
Definition same_objects (l l' : LiteRtObjects T) : Prop :=
  agree_outside (fun i => i = 0%nat)
    (encoder_input_buffers l) (encoder_input_buffers l') /\
  agree_outside (fun _ => True)
    (encoder_output_buffers l) (encoder_output_buffers l') /\
  agree_outside (fun i => (i < 3)%nat)
    (decoder_input_buffers l) (decoder_input_buffers l') /\
  agree_outside (fun _ => True)
    (decoder_output_buffers l) (decoder_output_buffers l').

(** Two states of one engine between calls: they differ at most in what
    an inference leaves behind, the floats of the buffers above and of
    the vectors of the engine. *)
Definition same_setup (e e' : OcrInference T) : Prop :=
  initialized_ e = initialized_ e' /\
  embeddings_data_ e = embeddings_data_ e' /\
  length (embeddings_input_ e) = length (embeddings_input_ e') /\
  length (attention_mask_ e) = length (attention_mask_ e') /\
  match litert_ e, litert_ e' with
  | Some l, Some l' => same_objects l l'
  | None, None => True
  | _, _ => False
  end.

(** Two states of the decode loop, in two runs, before the same step. *)
Definition loop_related (s s' : @DecodeState T) : Prop :=
  agree_outside (fun i => i = 1%nat \/ i = 2%nat)
    (decoder_input_buffers (ds_litert s)) (decoder_input_buffers (ds_litert s')) /\
  agree_outside (fun _ => True)
    (decoder_output_buffers (ds_litert s)) (decoder_output_buffers (ds_litert s')) /\
  ds_embeddings_input s = ds_embeddings_input s' /\
  ds_attention_mask s = ds_attention_mask s' /\
  ds_token_count s = ds_token_count s' /\
  length (ds_out_tokens s) = length (ds_out_tokens s') /\
  take (Z.to_nat (ds_token_count s)) (ds_out_tokens s) =
    take (Z.to_nat (ds_token_count s')) (ds_out_tokens s').

(** What the decode loop keeps of the state it starts from. *)
Definition loop_keeps (s s' : @DecodeState T) : Prop :=
  encoder_input_buffers (ds_litert s') = encoder_input_buffers (ds_litert s) /\
  encoder_output_buffers (ds_litert s') = encoder_output_buffers (ds_litert s) /\
  agree_outside (fun i => (i < 3)%nat)
    (decoder_input_buffers (ds_litert s)) (decoder_input_buffers (ds_litert s')) /\
  agree_outside (fun _ => True)
    (decoder_output_buffers (ds_litert s)) (decoder_output_buffers (ds_litert s')) /\
  length (ds_embeddings_input s') = length (ds_embeddings_input s) /\
  length (ds_attention_mask s') = length (ds_attention_mask s).

(** The destructor and [AAsset_close] calls that would release what an
    engine holds: the objects behind [litert_] and the three assets. *)
Definition holdings (e : OcrInference T) : list Event :=
  match litert_ e with Some l => destroy_objects l | None => [] end
  ++ close_asset (encoder_asset_ e)
  ++ close_asset (decoder_asset_ e)
  ++ close_asset (embeddings_asset_ e).

(** The state of an engine that holds nothing: what [Close] leaves. *)
Definition holds_nothing (e : OcrInference T) : Prop :=
  litert_ e = None /\ encoder_asset_ e = None /\ decoder_asset_ e = None /\
  embeddings_asset_ e = None /\ initialized_ e = false.

(** The wait of [Close] for the GPU queue: [sleep_for(100ms)] when the
    objects behind [litert_] are there and [using_gpu] is set. *)
Definition gpu_drain (e : OcrInference T) : list Event :=
  match litert_ e with
  | Some l => if using_gpu l then [Slept100ms] else []
  | None => []
  end.

(** The assets an engine holds, in the order [Close] closes them. *)
Definition held_assets (e : OcrInference T) : list Z :=
  asset_closes (close_asset (encoder_asset_ e) ++ close_asset (decoder_asset_ e)
                ++ close_asset (embeddings_asset_ e)).

End Service.

Definition is_shared_env_create (ev : Event) : bool :=
  match ev with SharedEnvCreate => true | _ => false end.

(** The injected counter: the calls of [Environment::Create(env_options)]
    among the calls made. *)
Definition shared_env_creations (p : Process) : nat :=
  length (List.filter is_shared_env_create (calls p)).

(** On the GPU one of the two models compiles and reports itself as not
    fully accelerated. *)
Definition partially_accelerated {T : Type} (w : @InitWorld T) : Prop :=
  (exists m, gpu_encoder_result w = Some m /\ IsFullyAccelerated m = Some false) \/
  (exists m, gpu_decoder_result w = Some m /\ IsFullyAccelerated m = Some false).

(** Calls among which there is no creation of the shared environment. *)
Definition quiet (evs : list Event) : Prop :=
  List.filter is_shared_env_create evs = [].

(** [p'] has the shared environment and the counter of [p]. *)
Definition same_env (p p' : Process) : Prop :=
  g_persist_env p' = g_persist_env p /\
  shared_env_creations p' = shared_env_creations p.

(** The process before the first [Initialize]. *)
Definition process_start : Process := {| g_persist_env := None; calls := [] |}.

(** ** More conditions on a backend *)

Section Decoding.
Context {T : Type} `{FloatOps T}.

(** At [step], with [seq_len] tokens so far, the two writes, the run and
    the read have a value and the argmax of the logits is the END token. *)
Definition step_ends (B : Backend T) (step seq_len : Z) : Prop :=
  (forall d, decoder_mask_write B step d = true) /\
  (forall d, decoder_emb_write B step d = true) /\
  (forall ins, exists outs, decoder_run B step ins = Some outs /\
     FindMaxLogitToken (first_output outs) seq_len = END_TOKEN_ID) /\
  (forall d, decoder_logits_read B step d = true).

(** One of the calls before the decode loop has no value. *)
Definition encoder_fails (B : Backend T) : Prop :=
  (forall d, encoder_input_write B d = false) \/
  (forall ins, encoder_run B ins = None) \/
  (forall d, encoder_output_read B d = false) \/
  (forall d, decoder_hidden_write B d = false).

(** An attention mask of [len] floats with [count] leading ones. *)
Definition mask_of (count len : nat) : list T :=
  replicate count fone ++ replicate (len - count) fzero.

(** The members of the engine that an inference does not assign. *)
Definition fixed_part (e : OcrInference T)
    : option (option Environment * option (CompiledModel T)
              * option (CompiledModel T) * (bool * bool * bool))
      * (option (AAsset T) * option (AAsset T) * option (AAsset T))
      * (list T * Z * bool * Z * Z) :=
  (match litert_ e with
   | Some l => Some (cpu_env l, compiled_encoder l, compiled_decoder l,
                     (using_gpu l, encoder_using_gpu l, decoder_using_gpu l))
   | None => None
   end,
   (encoder_asset_ e, decoder_asset_ e, embeddings_asset_ e),
   (embeddings_data_ e, embedding_count_ e, initialized_ e,
    encoder_output_size_ e, decoder_output_size_ e)).

(** The state of the decode loop as the loop keeps it: the attention
    mask has [token_count] leading ones, the rows of the embedding table
    from [token_count] on are zero, and row [i] below holds the
    embedding of token [i]. *)
Definition decoding_invariant (ed : list T) (s : @DecodeState T) : Prop :=
  let tc := Z.to_nat (ds_token_count s) in
  ds_attention_mask s = mask_of tc 300 /\
  length (ds_embeddings_input s) = (300 * 768)%nat /\
  (300 <= length (ds_out_tokens s))%nat /\
  (forall pos, (tc * 768 <= pos < 300 * 768)%nat ->
     ds_embeddings_input s !! pos = Some fzero) /\
  (forall i k, (i < tc)%nat -> (k < 768)%nat ->
     exists t, ds_out_tokens s !! i = Some t /\ 0 <= t < VOCAB_SIZE /\
       ds_embeddings_input s !! (i * 768 + k)%nat
       = ed !! (Z.to_nat t * 768 + k)%nat).

End Decoding.

(** ** Release of the pages of a model asset *)

(** A value of [uintptr_t] or [size_t]: 64 bits, arithmetic modulo 2^64. *)
Definition wrap64 (x : Z) : Z := x mod 2 ^ 64.

(** [addr & ~(page_size - 1)] *)
Definition page_base (addr page_size : Z) : Z :=
  Z.land addr (wrap64 (Z.lnot (wrap64 (page_size - 1)))).

(** [size + (addr - base)] *)
Definition page_len (addr size page_size : Z) : Z :=
  wrap64 (size + wrap64 (addr - page_base addr page_size)).

(** [ReleaseSystemPages]: the arguments of its call of [madvise], for a
    buffer of [size] bytes at [addr] and the page size that [sysconf]
    returns.  Whatever [madvise] answers, the function only logs it. *)
Definition ReleaseSystemPages (addr size page_size : Z) : Z * Z :=
  (page_base addr page_size, page_len addr size page_size).

(** ** The plugin boundary (ocr_native.cpp) *)

(** [AndroidBitmap]: whether [AndroidBitmap_getInfo] and
    [AndroidBitmap_lockPixels] succeed, and the pixels ([uint32_t]). *)
Record Bitmap := {
  bitmap_info_ok : bool;
  bitmap_lock_ok : bool;
  bitmap_pixels : list Z
}.

(** [(pixel >> 16) & 0xFF], [(pixel >> 8) & 0xFF] and [pixel & 0xFF] *)
Definition channel_r (pixel : Z) : Z := Z.land (Z.shiftr pixel 16) 255.
Definition channel_g (pixel : Z) : Z := Z.land (Z.shiftr pixel 8) 255.
Definition channel_b (pixel : Z) : Z := Z.land pixel 255.

Definition SPECIAL_TOKEN_THRESHOLD : Z := 5.

(** What can throw a [std::exception] in the [try] block of one
    [nativeRecognizeText]: the growth of the string [result]
    ([reserve], [+=]) and the postprocessor. *)
Record RecognizeCall := {
  result_growth_throws : bool;
  postprocess_throws : bool
}.

Section Native.
Context {T : Type} `{FloatOps T}.

(** The float [c * NORMALIZATION_FACTOR - NORMALIZED_MEAN] of a channel
    value [c]; float arithmetic is not modelled. *)
Variable normalize : Z -> T.

(** [mihon::getVocabulary()] and [TextPostprocessor::postprocess], whose
    sources are in other files. *)
Variable getVocabulary : list String.string.
Variable postprocess : String.string -> String.string.

(** The [for] loop of [PreprocessBitmap]: [n] pixels remain, [i] is the
    loop variable.  ([srcPixels[i]] past the pixels of the bitmap is
    undefined in C++ and 0 in the model; a write past the end of
    [output] is undefined in C++ and dropped in the model.) *)
Fixpoint preprocess_loop (srcPixels : list Z) (n : nat) (i outIndex : Z)
    (output : list T) : list T :=
  match n with
  | O => output
  | S n' =>
      let pixel := nth (Z.to_nat i) srcPixels 0 in
      let r := channel_r pixel in
      let g := channel_g pixel in
      let b := channel_b pixel in
      let output := <[Z.to_nat outIndex := normalize r]> output in
      let outIndex := outIndex + 1 in
      let output := <[Z.to_nat outIndex := normalize g]> output in
      let outIndex := outIndex + 1 in
      let output := <[Z.to_nat outIndex := normalize b]> output in
      let outIndex := outIndex + 1 in
      preprocess_loop srcPixels n' (i + 1) outIndex output
  end.

(** [PreprocessBitmap], returning the array [output] *)
Definition PreprocessBitmap (bitmap : Bitmap) (output : list T) : list T :=
  if negb (bitmap_info_ok bitmap) then output else
  if negb (bitmap_lock_ok bitmap) then output else
  preprocess_loop (bitmap_pixels bitmap) (Z.to_nat (IMAGE_SIZE * IMAGE_SIZE)) 0 0
    output.

(** The globals of ocr_native.cpp ([g_textPostprocessor] by whether it
    is set). *)
Record Native := {
  g_textPostprocessor : bool;
  g_vocab : list String.string;
  g_ocrInference : option (OcrInference T);
  g_activeOcrClients : Z;
  g_imageBuffer : list T;
  g_tokenBuffer : list Z
}.

(** The globals when the library is loaded. *)
Definition native_start : Native :=
  {| g_textPostprocessor := false; g_vocab := []; g_ocrInference := None;
     g_activeOcrClients := 0; g_imageBuffer := []; g_tokenBuffer := [] |}.

(** What the platform answers during one [nativeOcrInit]: whether
    [AAssetManager_fromJava] gives a manager, the three results of
    [AAssetManager_open], and the answers to [Initialize].  The fields
    named [_throws] tell whether a call of the [try] block throws a
    [std::exception] (its allocation fails): the function then leaves
    through its [catch] clause. *)
Record InitCall := {
  postprocessor_throws : bool;  (* std::make_unique<mihon::TextPostprocessor>() *)
  vocabulary_throws : bool;     (* mihon::getVocabulary() *)
  asset_manager : bool;
  open_encoder : option (AAsset T);
  open_decoder : option (AAsset T);
  open_embeddings : option (AAsset T);
  engine_alloc_throws : bool;   (* std::make_unique<mihon::OcrInference>() *)
  init_world : @InitWorld T;
  image_resize_throws : bool;   (* g_imageBuffer.resize(...) *)
  token_resize_throws : bool    (* g_tokenBuffer.resize(...) *)
}.

(** [~OcrInference]: the destructor calls [Close]. *)
Definition destroy_engine (p : Process) (e : option (OcrInference T)) : Process :=
  match e with Some e => fst (Close p e) | None => p end.

(** [g_tokenBuffer.resize(n)] *)
Definition resize_tokens (v : list Z) (n : Z) : list Z :=
  take (Z.to_nat n) v ++ replicate (Z.to_nat n - length v) 0.

(** [g_ocrInference && g_ocrInference->IsInitialized()] *)
Definition engine_ready (n : Native) : bool :=
  match g_ocrInference n with Some e => IsInitialized e | None => false end.

(** The assignments of [nativeOcrInit] to the globals. *)
Definition set_postprocessor (n : Native) : Native :=
  {| g_textPostprocessor := true; g_vocab := g_vocab n;
     g_ocrInference := g_ocrInference n;
     g_activeOcrClients := g_activeOcrClients n;
     g_imageBuffer := g_imageBuffer n; g_tokenBuffer := g_tokenBuffer n |}.

Definition set_vocab (v : list String.string) (n : Native) : Native :=
  {| g_textPostprocessor := g_textPostprocessor n; g_vocab := v;
     g_ocrInference := g_ocrInference n;
     g_activeOcrClients := g_activeOcrClients n;
     g_imageBuffer := g_imageBuffer n; g_tokenBuffer := g_tokenBuffer n |}.

Definition set_engine (e : option (OcrInference T)) (clients : Z) (n : Native) : Native :=
  {| g_textPostprocessor := g_textPostprocessor n; g_vocab := g_vocab n;
     g_ocrInference := e; g_activeOcrClients := clients;
     g_imageBuffer := g_imageBuffer n; g_tokenBuffer := g_tokenBuffer n |}.

Definition set_image_buffer (v : list T) (n : Native) : Native :=
  {| g_textPostprocessor := g_textPostprocessor n; g_vocab := g_vocab n;
     g_ocrInference := g_ocrInference n;
     g_activeOcrClients := g_activeOcrClients n;
     g_imageBuffer := v; g_tokenBuffer := g_tokenBuffer n |}.

Definition set_token_buffer (v : list Z) (n : Native) : Native :=
  {| g_textPostprocessor := g_textPostprocessor n; g_vocab := g_vocab n;
     g_ocrInference := g_ocrInference n;
     g_activeOcrClients := g_activeOcrClients n;
     g_imageBuffer := g_imageBuffer n; g_tokenBuffer := v |}.

(** [Java_mihon_data_ocr_OcrRepositoryImpl_nativeOcrInit].  A call that
    throws leaves the [try] block with the globals as they are at that
    point, and the [catch] clause returns [JNI_FALSE]: a throwing
    [make_unique], [getVocabulary] or [resize] has assigned nothing.
    ([Initialize] catches what is thrown inside it; taking
    [g_initMutex], before the [try], is taken to succeed.) *)
Definition nativeOcrInit (j : InitCall) (p : Process) (n : Native)
    : bool * Process * Native :=
  (* try *)
  if engine_ready n then
    (true, p, set_engine (g_ocrInference n) (g_activeOcrClients n + 1) n)
  else
  if postprocessor_throws j then (* catch *) (false, p, n) else
  let n := set_postprocessor n in
  if vocabulary_throws j then (* catch *) (false, p, n) else
  let n := set_vocab getVocabulary n in
  if negb (asset_manager j) then (false, p, n) else
  match open_encoder j, open_decoder j, open_embeddings j with
  | Some enc_asset, Some dec_asset, Some emb_asset =>
      (* g_ocrInference = std::make_unique<mihon::OcrInference>() *)
      if engine_alloc_throws j then (* catch *) (false, p, n) else
      let p := destroy_engine p (g_ocrInference n) in
      match Initialize (init_world j) p new_engine enc_asset dec_asset emb_asset with
      | (false, p, e) =>
          (* g_ocrInference.reset() *)
          let p := destroy_engine p (Some e) in
          (false, p, set_engine None 0 n)
      | (true, p, e) =>
          let n := set_engine (Some e) 1 n in
          if image_resize_throws j then (* catch *) (false, p, n) else
          let n := set_image_buffer
                     (resize (g_imageBuffer n) (IMAGE_SIZE * IMAGE_SIZE * 3) fzero) n in
          if token_resize_throws j then (* catch *) (false, p, n) else
          let n := set_token_buffer
                     (resize_tokens (g_tokenBuffer n) MAX_SEQUENCE_LENGTH) n in
          (true, p, n)
      end
  | enc_asset, dec_asset, emb_asset =>
      (false,
       emit (close_asset enc_asset ++ close_asset dec_asset ++ close_asset emb_asset) p,
       n)
  end.

(** The loop of [nativeRecognizeText] over the tokens: [n] tokens remain,
    [i] is the loop variable and [result] the string so far. *)
Fixpoint render_loop (vocab : list String.string) (tokens : list Z) (n : nat)
    (i : Z) (result : String.string) : String.string :=
  match n with
  | O => result
  | S n' =>
      let tokenId := nth (Z.to_nat i) tokens 0 in
      let vocab_size := Z.of_nat (length vocab) in
      if tokenId <? SPECIAL_TOKEN_THRESHOLD
      then render_loop vocab tokens n' (i + 1) result
      else if tokenId <? vocab_size
      then render_loop vocab tokens n' (i + 1)
             (String.append result (nth (Z.to_nat tokenId) vocab String.EmptyString))
      else render_loop vocab tokens n' (i + 1) result
  end.

(** [Java_mihon_data_ocr_OcrRepositoryImpl_nativeRecognizeText], with the
    backend that answers the LiteRT calls of the inference: the string
    returned and the globals after the call.  [PreprocessBitmap] and
    [InferTokens] catch what is thrown inside them; a throw of the
    growth of [result] or of [postprocess] goes to the [catch] clause,
    which returns the empty string.  The globals are assigned before
    either. *)
Definition nativeRecognizeText (c : RecognizeCall) (B : Backend T) (bitmap : Bitmap)
    (n : Native) : String.string * Native :=
  match g_ocrInference n with
  | None => (String.EmptyString, n)
  | Some e =>
  if negb (IsInitialized e) then (String.EmptyString, n) else
  let image_data := PreprocessBitmap bitmap (g_imageBuffer n) in
  let '(token_count, tokens, e) :=
    InferTokens B e image_data (g_tokenBuffer n) MAX_SEQUENCE_LENGTH in
  let n := {| g_textPostprocessor := g_textPostprocessor n; g_vocab := g_vocab n;
              g_ocrInference := Some e;
              g_activeOcrClients := g_activeOcrClients n;
              g_imageBuffer := image_data; g_tokenBuffer := tokens |} in
  if token_count <=? 0 then (String.EmptyString, n) else
  if result_growth_throws c then (* catch *) (String.EmptyString, n) else
  let result :=
    render_loop (g_vocab n) tokens (Z.to_nat token_count) 0 String.EmptyString in
  if g_textPostprocessor n then
    if postprocess_throws c then (* catch *) (String.EmptyString, n)
    else (postprocess result, n)
  else (result, n)
  end.

(** [Java_mihon_data_ocr_OcrRepositoryImpl_nativeOcrClose] *)
Definition nativeOcrClose (p : Process) (n : Native) : Process * Native :=
  let previous_clients := g_activeOcrClients n in
  if 1 <? previous_clients then
    (p,
     {| g_textPostprocessor := g_textPostprocessor n; g_vocab := g_vocab n;
        g_ocrInference := g_ocrInference n;
        g_activeOcrClients := g_activeOcrClients n - 1;
        g_imageBuffer := g_imageBuffer n; g_tokenBuffer := g_tokenBuffer n |})
  else
  let p :=
    match g_ocrInference n with
    | Some e =>
        let (p, e) := Close p e in
        (* g_ocrInference.reset() *)
        destroy_engine p (Some e)
    | None => p
    end in
  (p, native_start).

(** Whether the loop of [nativeRecognizeText] appends the vocabulary
    entry of [tokenId]. *)
Definition renders (vocab : list String.string) (tokenId : Z) : bool :=
  negb (tokenId <? SPECIAL_TOKEN_THRESHOLD) && (tokenId <? Z.of_nat (length vocab)).

(** [result] followed by the vocabulary entries of the tokens that are
    rendered, in order. *)
Definition render (vocab : list String.string) (tokens : list Z)
    (result : String.string) : String.string :=
  fold_left String.append
    (map (fun t => nth (Z.to_nat t) vocab String.EmptyString)
       (List.filter (renders vocab) tokens))
    result.

(** The globals between two calls: an engine that is there is in
    service, has a client, and comes with an image buffer of 224*224*3
    floats and a token buffer of 300 tokens; without an engine there is
    no client. *)
Definition native_invariant (n : Native) : Prop :=
  match g_ocrInference n with
  | Some e =>
      in_service e /\ 1 <= g_activeOcrClients n /\
      length (g_imageBuffer n) = Z.to_nat (IMAGE_SIZE * IMAGE_SIZE * 3) /\
      length (g_tokenBuffer n) = Z.to_nat MAX_SEQUENCE_LENGTH
  | None => g_activeOcrClients n = 0
  end.


(** Whether a [nativeOcrInit] that has no engine to reuse gets to the
    three calls of [AAssetManager_open]. *)
Definition opens_assets (j : InitCall) : bool :=
  negb (postprocessor_throws j) && negb (vocabulary_throws j) && asset_manager j.

(** The [AAsset_close] calls that would close what it opened. *)
Definition opened_closes (j : InitCall) : list Event :=
  if opens_assets j
  then close_asset (open_encoder j) ++ close_asset (open_decoder j)
       ++ close_asset (open_embeddings j)
  else [].

(** Whether it gets to [std::make_unique<mihon::OcrInference>()]: the
    three assets are open. *)
Definition allocates_engine (j : InitCall) : bool :=
  opens_assets j &&
  match open_encoder j, open_decoder j, open_embeddings j with
  | Some _, Some _, Some _ => true
  | _, _, _ => false
  end.

End Native.

(** ** A sample platform

    Concrete values on which the statements below are exercised.  The
    tensor elements are binary64 floats; every C++ [float] is one, with
    the same order. *)

Module Sample.

#[global] Instance float_ops : FloatOps float :=
  {| fzero := 0%float; fone := 1%float; fgt := fun a b => PrimFloat.ltb b a |}.

Definition buffer (id floats : Z) : TensorBuffer float :=
  {| buf_id := id; buf_size := Some (floats * sizeof_float); buf_data := [] |}.

(** The encoder: one image in, the hidden states out. *)
Definition encoder (id : Z) (accelerated : bool) : CompiledModel float :=
  {| model_id := id; IsFullyAccelerated := Some accelerated;
     CreateInputBuffers := Some [buffer (id + 1) (IMAGE_SIZE * IMAGE_SIZE * 3)];
     CreateOutputBuffers := Some [buffer (id + 2) (197 * HIDDEN_SIZE)] |}.

(** The decoder: hidden states, attention mask and embeddings in, one row
    of logits per position out. *)
Definition decoder (id : Z) (accelerated : bool) : CompiledModel float :=
  {| model_id := id; IsFullyAccelerated := Some accelerated;
     CreateInputBuffers :=
       Some [buffer (id + 1) (197 * HIDDEN_SIZE);
             buffer (id + 2) MAX_SEQUENCE_LENGTH;
             buffer (id + 3) (MAX_SEQUENCE_LENGTH * HIDDEN_SIZE)];
     CreateOutputBuffers :=
       Some [buffer (id + 4) (MAX_SEQUENCE_LENGTH * VOCAB_SIZE)] |}.

Definition encoder_asset : AAsset float :=
  {| asset_id := 1; asset_length := 4096; asset_floats := [] |}.
Definition decoder_asset : AAsset float :=
  {| asset_id := 2; asset_length := 4096; asset_floats := [] |}.
Definition embeddings_asset : AAsset float :=
  {| asset_id := 3; asset_length := VOCAB_SIZE * HIDDEN_SIZE * sizeof_float;
     asset_floats := replicate (Z.to_nat (VOCAB_SIZE * HIDDEN_SIZE)) 0.5%float |}.

(** Logits that are all equal: index 0 (PAD) wins every row. *)
Definition flat_logits : list float :=
  replicate (Z.to_nat (MAX_SEQUENCE_LENGTH * VOCAB_SIZE)) 0%float.

(** A backend on which every call has a value and END is never selected. *)
Definition backend : Backend float :=
  {| encoder_input_write := fun _ => true;
     encoder_run := fun _ => Some [replicate (Z.to_nat (197 * HIDDEN_SIZE)) 0%float];
     encoder_output_read := fun _ => true;
     decoder_hidden_write := fun _ => true;
     decoder_mask_write := fun _ _ => true;
     decoder_emb_write := fun _ _ => true;
     decoder_run := fun _ _ => Some [flat_logits];
     decoder_logits_read := fun _ _ => true |}.


(** A device with OpenCL on which both models compile for the GPU, the
    encoder fully accelerated or not as [encoder_full] says, the decoder
    as [decoder_full] says, and on which everything else succeeds. *)
Definition world (opencl encoder_full decoder_full : bool) : InitWorld :=
  {| make_unique_throws := false;
     shared_env_result := Some {| env_id := 1000 |};
     opencl_lib := opencl;
     gpu_options_create := true; gpu_set_accelerators := true;
     gpu_decoder_options_create := true; async_throws := false;
     gpu_encoder_result := Some (encoder 10 encoder_full);
     gpu_decoder_result := Some (decoder 20 decoder_full);
     hardware_concurrency := 8;
     cpu_env_result := Some {| env_id := 2000 |};
     cpu_encoder_options_create := true; cpu_encoder_set_accelerators := true;
     cpu_encoder_cpu_options := true;
     cpu_decoder_options_create := true; cpu_decoder_set_accelerators := true;
     cpu_decoder_cpu_options := true;
     cpu_encoder_result := fun _ => Some (encoder 30 false);
     cpu_decoder_result := fun _ => Some (decoder 40 false);
     warmup_backend := backend;
     resize_throws := false |}.

(** A device without OpenCL on which the encoder does not compile for the
    CPU either. *)
Definition world_without_backend : InitWorld :=
  {| make_unique_throws := false;
     shared_env_result := Some {| env_id := 1000 |};
     opencl_lib := false;
     gpu_options_create := true; gpu_set_accelerators := true;
     gpu_decoder_options_create := true; async_throws := false;
     gpu_encoder_result := None; gpu_decoder_result := None;
     hardware_concurrency := 8;
     cpu_env_result := Some {| env_id := 2000 |};
     cpu_encoder_options_create := true; cpu_encoder_set_accelerators := true;
     cpu_encoder_cpu_options := true;
     cpu_decoder_options_create := true; cpu_decoder_set_accelerators := true;
     cpu_decoder_cpu_options := true;
     cpu_encoder_result := fun _ => None;
     cpu_decoder_result := fun _ => Some (decoder 40 false);
     warmup_backend := backend;
     resize_throws := false |}.

(** The engine after a first [Initialize] on the device with OpenCL and
    two fully accelerated models. *)
Definition engine : OcrInference float :=
  snd (Initialize (world true true true) process_start new_engine
         encoder_asset decoder_asset embeddings_asset).

Definition image : list float :=
  replicate (Z.to_nat (IMAGE_SIZE * IMAGE_SIZE * 3)) 0.25%float.

(** The caller's token array, as [nativeOcrInit] sizes it. *)
Definition token_buffer : list Z := replicate (Z.to_nat MAX_SEQUENCE_LENGTH) 0.

(** The device with OpenCL, on which the last allocation of [Initialize]
    throws. *)
Definition world_out_of_memory : InitWorld :=
  {| make_unique_throws := false;
     shared_env_result := Some {| env_id := 1000 |};
     opencl_lib := true;
     gpu_options_create := true; gpu_set_accelerators := true;
     gpu_decoder_options_create := true; async_throws := false;
     gpu_encoder_result := Some (encoder 10 true);
     gpu_decoder_result := Some (decoder 20 true);
     hardware_concurrency := 8;
     cpu_env_result := Some {| env_id := 2000 |};
     cpu_encoder_options_create := true; cpu_encoder_set_accelerators := true;
     cpu_encoder_cpu_options := true;
     cpu_decoder_options_create := true; cpu_decoder_set_accelerators := true;
     cpu_decoder_cpu_options := true;
     cpu_encoder_result := fun _ => Some (encoder 30 false);
     cpu_decoder_result := fun _ => Some (decoder 40 false);
     warmup_backend := backend;
     resize_throws := true |}.

(** Two cycles of [nativeOcrInit] and [nativeOcrClose], each on a new
    engine object: the process after the first [Close], and the second
    [Initialize]. *)
Definition after_first_cycle : Process :=
  fst (Close (snd (fst (Initialize (world true true true) process_start new_engine
                          encoder_asset decoder_asset embeddings_asset)))
         engine).

Definition second_initialize : bool * Process * OcrInference float :=
  Initialize (world true true true) after_first_cycle new_engine
    encoder_asset decoder_asset embeddings_asset.

Definition after_second_cycle : Process :=
  fst (Close (snd (fst second_initialize)) (snd second_initialize)).

(** Logits whose row [seq_len - 1] has its one logit above the others at
    END. *)
Definition end_logits (seq_len : Z) : list float :=
  replicate (Z.to_nat ((seq_len - 1) * VOCAB_SIZE + END_TOKEN_ID)) 0%float
  ++ [1%float]
  ++ replicate (Z.to_nat (MAX_SEQUENCE_LENGTH * VOCAB_SIZE
                          - ((seq_len - 1) * VOCAB_SIZE + END_TOKEN_ID) - 1)) 0%float.

(** The backend on which END is selected at step 2, with 3 tokens so
    far. *)
Definition backend_ending_at_2 : Backend float :=
  {| encoder_input_write := encoder_input_write backend;
     encoder_run := encoder_run backend;
     encoder_output_read := encoder_output_read backend;
     decoder_hidden_write := decoder_hidden_write backend;
     decoder_mask_write := decoder_mask_write backend;
     decoder_emb_write := decoder_emb_write backend;
     decoder_run := fun step _ => Some [if step =? 2 then end_logits 3 else flat_logits];
     decoder_logits_read := decoder_logits_read backend |}.

(** A page of 4 KiB and a model asset mapped in the middle of one. *)
Definition page_bits : Z := 12.
Definition asset_address : Z := 0x7f3a5c2e1a40.
Definition asset_size : Z := 25165824.

(** The plugin: a bitmap of 224*224 opaque pixels, the normalization in
    binary64, a vocabulary of eight entries, and the calls of
    [nativeOcrInit] on the device above and on the device without
    backend. *)
Definition bitmap : Bitmap :=
  {| bitmap_info_ok := true; bitmap_lock_ok := true;
     bitmap_pixels := replicate (Z.to_nat (IMAGE_SIZE * IMAGE_SIZE)) 0xff336699 |}.

Definition normalize (c : Z) : float :=
  (PrimFloat.of_uint63 (Uint63.of_Z c) * (1 / (255 * 0.5)) - 0.5 / 0.5)%float.

Import String.StringSyntax.
Local Open Scope string_scope.

Definition vocabulary : list String.string :=
  ["[PAD]"; "[UNK]"; "[CLS]"; "[SEP]"; "[MASK]"; "a"; "b"; "c"].

Local Close Scope string_scope.

Definition init_call : InitCall :=
  {| postprocessor_throws := false; vocabulary_throws := false;
     asset_manager := true;
     open_encoder := Some encoder_asset; open_decoder := Some decoder_asset;
     open_embeddings := Some embeddings_asset;
     engine_alloc_throws := false;
     init_world := world true true true;
     image_resize_throws := false; token_resize_throws := false |}.

Definition init_call_without_backend : InitCall :=
  {| postprocessor_throws := false; vocabulary_throws := false;
     asset_manager := true;
     open_encoder := Some encoder_asset; open_decoder := Some decoder_asset;
     open_embeddings := Some embeddings_asset;
     engine_alloc_throws := false;
     init_world := world_without_backend;
     image_resize_throws := false; token_resize_throws := false |}.


(** The globals after the first [nativeOcrInit]. *)
Definition native_running : Native :=
  snd (nativeOcrInit vocabulary init_call process_start native_start).

End Sample.

(** * Properties *)

(** ** The thread count *)

Lemma std_min_min a b : std_min a b = Z.min a b.
Proof. unfold std_min. destruct (Z.ltb_spec b a); lia. Qed.

(** C6, as the code has it: the thread count is 2 when the hardware
    concurrency is reported as 0 and [min(hardware_concurrency, 4)]
    otherwise; it lies between 1 and 4 and is below 2 only on a
    single-core device. *)
Theorem GetOptimalThreadCount_amended (hw_threads : Z) :
  0 <= hw_threads < 2 ^ 32 ->
  (hw_threads = 0 -> GetOptimalThreadCount hw_threads = 2) /\
  (hw_threads <> 0 -> GetOptimalThreadCount hw_threads = Z.min hw_threads 4) /\
  1 <= GetOptimalThreadCount hw_threads <= 4 /\
  (hw_threads <> 1 -> 2 <= GetOptimalThreadCount hw_threads).
Proof.
  intros Hrange. unfold GetOptimalThreadCount. rewrite std_min_min.
  destruct (Z.eqb_spec hw_threads 0) as [->|Hne]; repeat split; intros; lia.
Qed.

Lemma GetOptimalThreadCount_amended_witness :
  GetOptimalThreadCount 1 = Z.min 1 4 /\ GetOptimalThreadCount 0 = 2.
Proof.
  pose proof (GetOptimalThreadCount_amended 1 ltac:(lia)) as H1.
  pose proof (GetOptimalThreadCount_amended 0 ltac:(lia)) as H0.
  split; [apply H1; lia | apply H0; reflexivity].
Defined.

(** C6 as stated fails on a single-core device: one thread, less than 2. *)
Lemma GetOptimalThreadCount_single_core :
  ~ (GetOptimalThreadCount 1 = Z.min 1 4 /\ 2 <= GetOptimalThreadCount 1).
Proof. vm_compute. intros [_ Hle]. now apply Hle. Qed.

(** Case analysis on an innermost [match] of the goal. *)
Ltac break_match :=
  match goal with
  | |- context [match ?x with _ => _ end] =>
      lazymatch x with
      | context [match _ with _ => _ end] => fail
      | _ => destruct x eqn:?
      end
  end.

Section Facts.
Context {T : Type} `{FloatOps T}.

(** ** The argmax *)

Lemma max_logit_loop_range (data : list T) base n :
  forall vocab_idx max_logit max_token,
    max_logit_loop data base n vocab_idx max_logit max_token = max_token \/
    vocab_idx <= max_logit_loop data base n vocab_idx max_logit max_token
              < vocab_idx + Z.of_nat n.
Proof.
  induction n as [|n IH]; intros vocab_idx max_logit max_token.
  - now left.
  - cbn [max_logit_loop].
    destruct (fgt (read_at data base vocab_idx) max_logit).
    + destruct (IH (vocab_idx + 1) (read_at data base vocab_idx) vocab_idx); lia.
    + destruct (IH (vocab_idx + 1) max_logit max_token); lia.
Qed.

Lemma FindMaxLogitToken_range (decoder_logits : list T) seq_len :
  0 <= FindMaxLogitToken decoder_logits seq_len < VOCAB_SIZE.
Proof.
  unfold FindMaxLogitToken.
  destruct (max_logit_loop_range decoder_logits ((seq_len - 1) * VOCAB_SIZE)
              (Z.to_nat (VOCAB_SIZE - 1)) 1
              (read_at decoder_logits ((seq_len - 1) * VOCAB_SIZE) 0) 0) as [->|Hr];
    unfold VOCAB_SIZE in *; lia.
Qed.

(** With no logit of the row above the first one, index 0 is selected. *)
Lemma max_logit_loop_flat (data : list T) base n :
  forall vocab_idx max_logit max_token,
    (forall i, fgt (read_at data base i) max_logit = false) ->
    max_logit_loop data base n vocab_idx max_logit max_token = max_token.
Proof.
  induction n as [|n IH]; intros vocab_idx max_logit max_token Hflat;
    cbn [max_logit_loop]; [reflexivity|].
  rewrite Hflat. now apply IH.
Qed.

(** ** One iteration of the decode loop *)

(** An iteration leaves [token_count] as it is and breaks, or adds one to
    it; it goes on only below both limits. *)
Lemma decode_step_count (B : Backend T) ed max_tokens step s :
  match decode_step B ed max_tokens step s with
  | Break s' =>
      ds_token_count s' = ds_token_count s \/
      (ds_token_count s' = ds_token_count s + 1 /\
       (max_tokens <= ds_token_count s' \/ MAX_SEQUENCE_LENGTH <= ds_token_count s'))
  | Next s' =>
      ds_token_count s' = ds_token_count s + 1 /\
      ds_token_count s' < max_tokens /\ ds_token_count s' < MAX_SEQUENCE_LENGTH
  end.
Proof.
  unfold decode_step.
  repeat break_match; cbn [ds_token_count with_litert]; try (left; reflexivity).
  - right. split; [reflexivity|].
    apply orb_true_iff in Heqb0 as [Hge|Hge]; apply Z.geb_le in Hge; lia.
  - apply orb_false_iff in Heqb0 as [H1 H2].
    rewrite Z.geb_leb in H1, H2. apply Z.leb_gt in H1, H2. lia.
Qed.

Lemma decode_loop_count (B : Backend T) ed max_tokens n :
  forall step s,
    let r := decode_loop B ed max_tokens n step s in
    ds_token_count s <= ds_token_count r <= ds_token_count s + Z.of_nat n /\
    (ds_token_count r = ds_token_count s \/
     ds_token_count r <= Z.max (ds_token_count s + 1) (Z.min max_tokens MAX_SEQUENCE_LENGTH)).
Proof.
  induction n as [|n IH]; intros step s; cbn zeta.
  - cbn [decode_loop]. lia.
  - cbn [decode_loop].
    pose proof (decode_step_count B ed max_tokens step s) as Hstep.
    destruct (decode_step B ed max_tokens step s) as [s'|s'].
    + lia.
    + specialize (IH (step + 1) s'). cbn zeta in IH. lia.
Qed.

(** ** Bounds on the value returned *)

Lemma InferTokens_count_bounds (B : Backend T) e image_data out_tokens max_tokens :
  let count := fst (fst (InferTokens B e image_data out_tokens max_tokens)) in
  0 <= count <= MAX_SEQUENCE_LENGTH /\ count <= Z.max 2 max_tokens.
Proof.
  cbn zeta. unfold InferTokens.
  repeat break_match; cbn [fst snd]; try (unfold MAX_SEQUENCE_LENGTH; lia).
  match goal with
  | |- context [decode_loop ?b ?d ?m ?n ?st ?s0] =>
      pose proof (decode_loop_count b d m n st s0) as Hloop
  end.
  cbn zeta in Hloop. cbn [ds_token_count] in Hloop.
  unfold MAX_SEQUENCE_LENGTH in *. lia.
Qed.
(** When the caller asks for two tokens or more, the value returned is
    within the caller's limit and the capacity. *)
Lemma InferTokens_count_within_limit (B : Backend T) e image_data out_tokens max_tokens :
  2 <= max_tokens ->
  0 <= fst (fst (InferTokens B e image_data out_tokens max_tokens))
    <= Z.min max_tokens MAX_SEQUENCE_LENGTH.
Proof.
  intros Hmax.
  pose proof (InferTokens_count_bounds B e image_data out_tokens max_tokens) as Hb.
  cbn zeta in Hb. lia.
Qed.

(** ** Iterations on which every call succeeds *)

Lemma data_at_store_outputs outs (bufs : list (TensorBuffer T)) :
  bufs <> [] -> data_at (store_outputs outs bufs) 0 = first_output outs.
Proof. destruct bufs as [|b bufs]; [congruence|]. reflexivity. Qed.

Lemma store_outputs_nonempty outs (bufs : list (TensorBuffer T)) :
  bufs <> [] -> store_outputs outs bufs <> [].
Proof. destruct bufs as [|b bufs]; [congruence|]. discriminate. Qed.

Lemma FindMaxLogitToken_not_negative (decoder_logits : list T) seq_len :
  (FindMaxLogitToken decoder_logits seq_len <? 0) = false.
Proof. apply Z.ltb_ge. apply FindMaxLogitToken_range. Qed.

Lemma decode_step_succeeds (B : Backend T) ed max_tokens step s :
  step_succeeds B step ->
  decoder_output_buffers (ds_litert s) <> [] ->
  exists s' t,
    decode_step B ed max_tokens step s =
      (if (ds_token_count s + 1 >=? max_tokens)
          || (ds_token_count s + 1 >=? MAX_SEQUENCE_LENGTH)
       then Break s' else Next s') /\
    ds_token_count s' = ds_token_count s + 1 /\
    decoder_output_buffers (ds_litert s') <> [] /\
    generated t /\
    ds_out_tokens s' = <[Z.to_nat (ds_token_count s) := t]> (ds_out_tokens s).
Proof.
  intros (Hmask & Hemb & Hrun & Hread) Hout.
  unfold decode_step, Write. rewrite Hmask, Hemb. unfold Run.
  match goal with
  | |- context [decoder_run B step ?ins] => destruct (Hrun ins) as (outs & -> & Hsel)
  end.
  unfold Read. rewrite Hread.
  cbn [decoder_output_buffers decoder_logits set_decoder_input_buffers
       set_decoder_output_buffers set_decoder_logits].
  rewrite data_at_store_outputs by assumption.
  rewrite FindMaxLogitToken_not_negative.
  destruct (Z.eqb_spec (FindMaxLogitToken (first_output outs) (ds_token_count s))
              END_TOKEN_ID) as [Heq|Hne]; [now apply Hsel in Heq|].
  cbn [orb].
  eexists _, (FindMaxLogitToken (first_output outs) (ds_token_count s)).
  split; [reflexivity|].
  cbn [ds_token_count ds_litert ds_out_tokens decoder_output_buffers].
  repeat split; try assumption.
  - now apply store_outputs_nonempty.
  - apply FindMaxLogitToken_range.
  - apply FindMaxLogitToken_range.
Qed.

(** With every iteration succeeding, the loop stops at the first of: its
    bound, the caller's limit, the capacity. *)
Lemma decode_loop_succeeds (B : Backend T) ed max_tokens n :
  forall step s,
    (forall k, step <= k < step + Z.of_nat n -> step_succeeds B k) ->
    decoder_output_buffers (ds_litert s) <> [] ->
    ds_token_count (decode_loop B ed max_tokens n step s) =
      match n with
      | O => ds_token_count s
      | S _ => Z.min (ds_token_count s + Z.of_nat n)
                 (Z.max (ds_token_count s + 1) (Z.min max_tokens MAX_SEQUENCE_LENGTH))
      end.
Proof.
  induction n as [|n IH]; intros step s Hok Hout; [reflexivity|].
  cbn [decode_loop].
  destruct (decode_step_succeeds B ed max_tokens step s) as (s' & t & -> & Htc & Hout' & _);
    [apply Hok; lia | assumption |].
  destruct ((ds_token_count s + 1 >=? max_tokens)
            || (ds_token_count s + 1 >=? MAX_SEQUENCE_LENGTH)) eqn:Hlimit.
  - apply orb_true_iff in Hlimit as [Hge|Hge]; apply Z.geb_le in Hge; lia.
  - apply orb_false_iff in Hlimit as [H1 H2].
    rewrite Z.geb_leb in H1, H2. apply Z.leb_gt in H1, H2.
    rewrite IH; [|intros k Hk; apply Hok; lia|assumption].
    destruct n; lia.
Qed.

(** [j] succeeding iterations below both limits are all run. *)
Lemma decode_loop_prefix (B : Backend T) ed max_tokens j :
  forall m step s,
    (forall k, step <= k < step + Z.of_nat j -> step_succeeds B k) ->
    decoder_output_buffers (ds_litert s) <> [] ->
    ds_token_count s + Z.of_nat j < max_tokens ->
    ds_token_count s + Z.of_nat j < MAX_SEQUENCE_LENGTH ->
    exists s',
      decode_loop B ed max_tokens (j + m) step s =
        decode_loop B ed max_tokens m (step + Z.of_nat j) s' /\
      ds_token_count s' = ds_token_count s + Z.of_nat j /\
      decoder_output_buffers (ds_litert s') <> [].
Proof.
  induction j as [|j IH]; intros m step s Hok Hout Hmax Hcap.
  - exists s. rewrite Z.add_0_r. cbn [Nat.add Z.of_nat]. repeat split; [lia|assumption].
  - cbn [Nat.add decode_loop].
    destruct (decode_step_succeeds B ed max_tokens step s) as (s' & t & -> & Htc & Hout' & _);
      [apply Hok; lia | assumption |].
    destruct ((ds_token_count s + 1 >=? max_tokens)
              || (ds_token_count s + 1 >=? MAX_SEQUENCE_LENGTH)) eqn:Hlimit.
    + apply orb_true_iff in Hlimit as [Hge|Hge]; apply Z.geb_le in Hge; lia.
    + destruct (IH m (step + 1) s') as (s'' & Heq & Htc' & Hout'');
        [intros k Hk; apply Hok; lia | assumption | lia | lia |].
      exists s''. rewrite Heq. repeat split; [f_equal; lia | lia | assumption].
Qed.

(** ** An iteration on which a call fails *)

(** ** The tokens written *)

Lemma Forall_take_insert (P : Z -> Prop) (l : list Z) :
  forall n x, Forall P (take n l) -> P x -> Forall P (take (S n) (<[n:=x]> l)).
Proof.
  induction l as [|a l IH]; intros n x Hl Hx; [constructor|].
  destruct n as [|n]; cbn [take list_insert] in *.
  - destruct l; repeat constructor; assumption.
  - change (take (S (S n)) (a :: <[n:=x]> l)) with (a :: take (S n) (<[n:=x]> l)).
    inversion Hl; subst. constructor; [assumption|]. now apply IH.
Qed.

(** An iteration writes [out_tokens] at [token_count] only, and only a
    vocabulary index other than END. *)
Lemma decode_step_tokens (B : Backend T) ed max_tokens step s :
  0 <= ds_token_count s ->
  let s' := flow_state (decode_step B ed max_tokens step s) in
  length (ds_out_tokens s') = length (ds_out_tokens s) /\
  (forall i : nat, Z.of_nat i < ds_token_count s ->
     ds_out_tokens s' !! i = ds_out_tokens s !! i) /\
  (Forall generated (take (Z.to_nat (ds_token_count s)) (ds_out_tokens s)) ->
   Forall generated (take (Z.to_nat (ds_token_count s')) (ds_out_tokens s'))).
Proof.
  intros Htc. cbn zeta. unfold decode_step.
  repeat break_match;
    cbn [flow_state ds_out_tokens ds_token_count with_litert];
    repeat split; try reflexivity; try tauto.
  all: try apply length_insert.
  all: try (intros i Hi; apply list_lookup_insert_ne; lia).
  all: intros Hall; rewrite Z2Nat.inj_add, Nat.add_1_r by lia;
    apply Forall_take_insert; [assumption|];
    match goal with
    | Hsel : _ || _ = false |- _ =>
        apply orb_false_iff in Hsel as [_ Hne]; apply Z.eqb_neq in Hne
    end;
    split; [apply FindMaxLogitToken_range | assumption].
Qed.

Lemma decode_loop_tokens (B : Backend T) ed max_tokens n :
  forall step s,
    0 <= ds_token_count s ->
    let r := decode_loop B ed max_tokens n step s in
    length (ds_out_tokens r) = length (ds_out_tokens s) /\
    (forall i : nat, Z.of_nat i < ds_token_count s ->
       ds_out_tokens r !! i = ds_out_tokens s !! i) /\
    (Forall generated (take (Z.to_nat (ds_token_count s)) (ds_out_tokens s)) ->
     Forall generated (take (Z.to_nat (ds_token_count r)) (ds_out_tokens r))).
Proof.
  induction n as [|n IH]; intros step s Htc; cbn zeta.
  - cbn [decode_loop]. tauto.
  - cbn [decode_loop].
    pose proof (decode_step_tokens B ed max_tokens step s Htc) as Hstep.
    pose proof (decode_step_count B ed max_tokens step s) as Hcount.
    cbn zeta in Hstep.
    destruct (decode_step B ed max_tokens step s) as [s'|s']; cbn [flow_state] in Hstep.
    + exact Hstep.
    + destruct Hstep as (Hlen & Hkeep & Hall).
      destruct (IH (step + 1) s') as (Hlen' & Hkeep' & Hall'); [lia|].
      repeat split.
      * congruence.
      * intros i Hi. rewrite Hkeep' by lia. now apply Hkeep.
      * tauto.
Qed.

(** Every token handed back is START or a vocabulary index other than
    END, START is the first one, and there are as many as the value
    returned when the caller's array has room for them. *)
Lemma InferTokens_tokens (B : Backend T) e image_data out_tokens max_tokens :
  let r := InferTokens B e image_data out_tokens max_tokens in
  Forall generated (tokens_of r) /\
  (0 < fst (fst r) -> out_tokens <> [] -> tokens_of r !! 0%nat = Some START_TOKEN_ID) /\
  length (snd (fst r)) = length out_tokens.
Proof.
  cbn zeta. unfold InferTokens, tokens_of.
  repeat break_match; cbn [fst snd];
    try (split; [now constructor
                | split; [intros Hlt; exfalso; lia
                         | try apply length_insert; reflexivity]]).
  match goal with
  | |- context [decode_loop ?b ?d ?m ?n ?st ?s0] =>
      pose proof (decode_loop_tokens b d m n st s0) as Hloop;
      pose proof (decode_loop_count b d m n st s0) as Hcount;
      set (r := decode_loop b d m n st s0) in *
  end.
  cbn zeta in Hloop, Hcount. cbn [ds_token_count ds_out_tokens] in Hloop, Hcount.
  destruct Hloop as (Hlen & Hkeep & Hall); [lia|].
  repeat split.
  - apply Hall. destruct out_tokens; repeat constructor; vm_compute; intuition congruence.
  - intros _ Hne. rewrite lookup_take_lt by lia.
    rewrite Hkeep by lia. destruct out_tokens; [congruence|reflexivity].
  - rewrite Hlen. apply length_insert.
Qed.
(** ** An inference whose encoder stage succeeds *)

Lemma InferTokens_reaches_loop (B : Backend T) e image_data out_tokens max_tokens :
  in_service e -> encoder_succeeds B ->
  exists s0,
    fst (InferTokens B e image_data out_tokens max_tokens) =
      (let s := decode_loop B (embeddings_data_ e) max_tokens
                  (Z.to_nat (MAX_SEQUENCE_LENGTH - 1)) 0 s0 in
       (ds_token_count s, ds_out_tokens s)) /\
    ds_token_count s0 = 1 /\
    decoder_output_buffers (ds_litert s0) <> [] /\
    ds_out_tokens s0 = <[0%nat := START_TOKEN_ID]> out_tokens.
Proof.
  intros (Hinit & l & Hl & _ & Hdec) (Hwrite & Hrun & Hread & Hhidden).
  unfold InferTokens. rewrite Hinit, Hl. cbn [negb].
  unfold Write. rewrite Hwrite. unfold Run.
  match goal with
  | |- context [encoder_run B ?ins] =>
      destruct (encoder_run B ins) as [outs|] eqn:Hr; [|now apply Hrun in Hr]
  end.
  unfold Read. rewrite Hread, Hhidden.
  eexists. split; [reflexivity|].
  cbn [ds_token_count ds_litert ds_out_tokens decoder_output_buffers
       set_decoder_input_buffers set_encoder_hidden_states
       set_encoder_output_buffers set_encoder_input_buffers].
  repeat split. exact Hdec.
Qed.

(** With every call succeeding and END never selected, the value returned
    is the caller's limit, but at least 2 and at most the capacity. *)
Lemma InferTokens_count_succeeding (B : Backend T) e image_data out_tokens max_tokens :
  in_service e -> encoder_succeeds B ->
  (forall k, 0 <= k < MAX_SEQUENCE_LENGTH - 1 -> step_succeeds B k) ->
  fst (fst (InferTokens B e image_data out_tokens max_tokens)) =
    Z.min MAX_SEQUENCE_LENGTH (Z.max 2 max_tokens).
Proof.
  intros He HB Hsteps.
  destruct (InferTokens_reaches_loop B e image_data out_tokens max_tokens He HB)
    as (s0 & -> & Htc & Hout & _).
  cbn zeta. cbn [fst].
  rewrite decode_loop_succeeds; [| |assumption].
  - rewrite Htc.
    remember (Z.to_nat (MAX_SEQUENCE_LENGTH - 1)) as n eqn:Hn.
    assert (Z.of_nat n = 299) as Hlen by (subst n; unfold MAX_SEQUENCE_LENGTH; lia).
    destruct n; unfold MAX_SEQUENCE_LENGTH; lia.
  - intros k Hk. apply Hsteps. unfold MAX_SEQUENCE_LENGTH in *. lia.
Qed.

(** ** The shared environment and its counter *)

Lemma quiet_app evs evs' : quiet evs -> quiet evs' -> quiet (evs ++ evs').
Proof. unfold quiet. intros H1 H2. now rewrite List.filter_app, H1, H2. Qed.

Lemma quiet_destroy_buffers (bufs : list (TensorBuffer T)) : quiet (destroy_buffers bufs).
Proof. induction bufs as [|b bufs IH]; [reflexivity | exact IH]. Qed.

Lemma quiet_destroy_model (m : option (CompiledModel T)) : quiet (destroy_model m).
Proof. now destruct m. Qed.

Lemma quiet_destroy_env v : quiet (destroy_env v).
Proof. now destruct v. Qed.

Lemma quiet_close_asset (a : option (AAsset T)) : quiet (close_asset a).
Proof. now destruct a. Qed.

Create HintDb quiet.
#[local] Hint Resolve quiet_app quiet_destroy_buffers quiet_destroy_model
  quiet_destroy_env quiet_close_asset : quiet.

Lemma quiet_destroy_objects (l : LiteRtObjects T) : quiet (destroy_objects l).
Proof. unfold destroy_objects. auto 10 with quiet. Qed.

Lemma quiet_release_objects (l : LiteRtObjects T) : quiet (release_objects l).
Proof. unfold release_objects. auto 10 with quiet. Qed.

#[local] Hint Resolve quiet_destroy_objects quiet_release_objects : quiet.

Lemma same_env_refl p : same_env p p.
Proof. now split. Qed.

Lemma same_env_trans p1 p2 p3 : same_env p1 p2 -> same_env p2 p3 -> same_env p1 p3.
Proof. intros [H1 H2] [H3 H4]. split; congruence. Qed.

Lemma same_env_emit evs p p' : quiet evs -> same_env p p' -> same_env p (emit evs p').
Proof.
  intros Hq [Henv Hcount]. split; [exact Henv|].
  unfold shared_env_creations, emit in *. cbn [calls].
  unfold quiet in Hq. now rewrite List.filter_app, Hq, app_nil_r.
Qed.

#[local] Hint Resolve same_env_refl same_env_emit : quiet.

Lemma Close_same_env p (e : OcrInference T) : same_env p (fst (Close p e)).
Proof.
  unfold Close. cbn [fst].
  destruct (litert_ e) as [l|]; [destruct (using_gpu (released l))|];
    repeat (apply same_env_emit; [auto with quiet; now cbv|]); apply same_env_refl.
Qed.

Lemma TryCompileWithGpu_same_env w p (l : LiteRtObjects T) :
  same_env p (snd (fst (TryCompileWithGpu w p l))).
Proof.
  unfold TryCompileWithGpu.
  repeat break_match; cbn [fst snd]; auto 10 with quiet.
Qed.

Lemma gpu_attempt_same_env w p (l : LiteRtObjects T) a b :
  same_env p (snd (fst (gpu_attempt w p l a b))).
Proof.
  unfold gpu_attempt.
  pose proof (TryCompileWithGpu_same_env w p l) as Hgpu.
  destruct (TryCompileWithGpu w p l) as [[[[]|] p'] l']; cbn [fst snd] in *;
    try assumption.
  apply same_env_emit; [reflexivity | assumption].
Qed.

Lemma TryCompileWithCpu_same_env w p (l : LiteRtObjects T) :
  same_env p (snd (fst (TryCompileWithCpu w p l))).
Proof.
  unfold TryCompileWithCpu, ensure_cpu_env.
  repeat break_match; cbn [fst snd];
    repeat match goal with
           | Heq : (_, _) = (_, _) |- _ => inversion Heq; subst; clear Heq
           end;
    repeat (apply same_env_emit; [auto with quiet; reflexivity|]);
    apply same_env_refl.
Qed.
Lemma caught_process p (e : OcrInference T) :
  snd (fst (caught p e)) = fst (Close p e).
Proof. unfold caught. now destruct (Close p e). Qed.

Lemma acquire_shared_env_spec w p :
  let r := acquire_shared_env (T:=T) w p in
  (g_persist_env p <> None -> same_env p (fst r)) /\
  (g_persist_env p = None ->
   shared_env_creations (fst r) = S (shared_env_creations p) /\
   (snd r = false -> g_persist_env (fst r) = None)).
Proof.
  cbn zeta. unfold acquire_shared_env.
  destruct (g_persist_env p) as [v|] eqn:Henv; cbn [fst snd].
  - split; [intros _; apply same_env_refl | discriminate].
  - split; [congruence|]. intros _.
    assert (shared_env_creations (emit [SharedEnvCreate] p)
            = S (shared_env_creations p)) as Hcount.
    { unfold shared_env_creations, emit. cbn [calls].
      rewrite List.filter_app, length_app. cbn. lia. }
    destruct (shared_env_result w); cbn [fst snd]; split; try assumption.
    + discriminate.
    + intros _. exact Henv.
Qed.

(** Collects what is known of the processes named in the equations of
    the context. *)
Ltac env_facts :=
  repeat match goal with
    | Heq : gpu_attempt ?w ?p ?l ?a ?b = (_, ?p', _) |- _ =>
        lazymatch goal with
        | _ : same_env p p' |- _ => fail
        | _ => let Hs := fresh "Hs" in
               pose proof (gpu_attempt_same_env w p l a b) as Hs;
               rewrite Heq in Hs; cbn [fst snd] in Hs
        end
    | Heq : TryCompileWithCpu ?w ?p ?l = (_, ?p', _) |- _ =>
        lazymatch goal with
        | _ : same_env p p' |- _ => fail
        | _ => let Hs := fresh "Hs" in
               pose proof (TryCompileWithCpu_same_env w p l) as Hs;
               rewrite Heq in Hs; cbn [fst snd] in Hs
        end
    end.

(** After the shared environment is there, nothing of [Initialize]
    changes it or counts as a creation. *)
Lemma Initialize_shared_env w p (e : OcrInference T) a b c :
  let p' := snd (fst (Initialize w p e a b c)) in
  (g_persist_env p <> None -> same_env p p') /\
  (g_persist_env p = None -> g_persist_env p' <> None ->
   shared_env_creations p' = S (shared_env_creations p)).
Proof.
  cbn zeta. unfold Initialize.
  destruct (initialized_ e); [cbn [fst snd]; split; [intros _; apply same_env_refl | congruence]|].
  destruct (make_unique_throws w).
  { rewrite caught_process.
    pose proof (Close_same_env p (own_assets a b c e)) as [Henv Hcount].
    split; [intros _; now split | congruence]. }
  set (p0 := emit _ p).
  assert (same_env p p0) as Hp0.
  { subst p0. apply same_env_emit; [|apply same_env_refl].
    destruct (litert_ (own_assets a b c e)); [apply quiet_destroy_objects | reflexivity]. }
  pose proof (acquire_shared_env_spec w p0) as Hacq. cbn zeta in Hacq.
  destruct (acquire_shared_env w p0) as [p1 ok]. cbn [fst snd] in Hacq.
  assert (forall p2, same_env p1 p2 ->
            (g_persist_env p <> None -> same_env p p2) /\
            (g_persist_env p = None -> g_persist_env p2 <> None ->
             shared_env_creations p2 = S (shared_env_creations p))) as Htail.
  { intros p2 [Henv2 Hcount2]. destruct Hp0 as [Henv0 Hcount0].
    destruct Hacq as [Hkept Hnew]. split.
    - intros Hsome. destruct Hkept as [Henv1 Hcount1]; [congruence|].
      split; congruence.
    - intros Hnone _. destruct Hnew as [Hcount1 _]; [congruence|]. congruence. }
  destruct ok.
  - repeat break_match; cbn [fst snd]; subst; env_facts;
      rewrite ?caught_process; apply Htail;
      eauto using same_env_refl, same_env_trans, Close_same_env.
  - cbn [fst snd]. destruct Hp0 as [Henv0 Hcount0]. destruct Hacq as [Hkept Hnew].
    split.
    + intros Hsome. destruct Hkept as [Henv1 Hcount1]; [congruence|]. split; congruence.
    + intros Hnone Hsome. destruct Hnew as [_ Hgone]; [congruence|].
      now rewrite Hgone in Hsome.
Qed.
(** ** Shutdown *)

Lemma emit_nothing p : emit [] p = p.
Proof. destruct p as [v evs]. unfold emit. cbn. now rewrite app_nil_r. Qed.

Lemma Close_holds_nothing p (e : OcrInference T) : holds_nothing (snd (Close p e)).
Proof.
  unfold Close, holds_nothing. cbn [snd litert_ encoder_asset_ decoder_asset_
    embeddings_asset_ initialized_].
  repeat split. now destruct (initialized_ e).
Qed.

(** On an engine that holds nothing, [Close] makes no call and changes
    at most the vector [attention_mask_], which it empties. *)
Lemma Close_of_nothing p (e : OcrInference T) :
  holds_nothing e ->
  fst (Close p e) = p /\
  (attention_mask_ e = [] -> snd (Close p e) = e).
Proof.
  intros (Hl & Ha & Hb & Hc & Hi). unfold Close. cbn [fst snd].
  rewrite Hl, Ha, Hb, Hc, Hi. cbn [close_asset].
  rewrite !emit_nothing. split; [reflexivity|].
  intros Hm. destruct e. cbn in *. now subst.
Qed.

Lemma caught_holds_nothing p (e : OcrInference T) :
  fst (fst (caught p e)) = false /\ holds_nothing (snd (caught p e)).
Proof.
  unfold caught. pose proof (Close_holds_nothing p e) as Hc.
  destruct (Close p e). now split.
Qed.

(** ** The backend of an initialized engine *)

Lemma TryCompileWithGpu_true w p (l : LiteRtObjects T) p' l' :
  TryCompileWithGpu w p l = (Returned true, p', l') ->
  exists enc dec,
    gpu_encoder_result w = Some enc /\ gpu_decoder_result w = Some dec /\
    not_fully_accelerated enc = false /\ not_fully_accelerated dec = false /\
    l' = with_models enc dec true l.
Proof.
  unfold TryCompileWithGpu.
  repeat break_match; intros Heq; inversion Heq; subst.
  eexists _, _. repeat split; assumption.
Qed.

Lemma gpu_attempt_true w p (l : LiteRtObjects T) a b p' l' :
  gpu_attempt w p l a b = (Returned true, p', l') ->
  exists enc dec,
    gpu_encoder_result w = Some enc /\ gpu_decoder_result w = Some dec /\
    not_fully_accelerated enc = false /\ not_fully_accelerated dec = false /\
    l' = with_models enc dec true l.
Proof.
  unfold gpu_attempt.
  destruct (TryCompileWithGpu w p l) as [[[[]|] p0] l0] eqn:Hgpu;
    intros Heq; inversion Heq; subst.
  eapply TryCompileWithGpu_true; eassumption.
Qed.

Lemma TryCompileWithCpu_true w p (l : LiteRtObjects T) p' l' :
  TryCompileWithCpu w p l = (true, p', l') ->
  using_gpu l' = false /\ encoder_using_gpu l' = false /\ decoder_using_gpu l' = false.
Proof.
  unfold TryCompileWithCpu.
  repeat break_match; intros Heq; inversion Heq; subst; now cbn.
Qed.

Lemma CreateBuffers_flags (l : LiteRtObjects T) a b ok l' a' b' :
  CreateBuffers l a b = (ok, l', a', b') ->
  using_gpu l' = using_gpu l /\
  encoder_using_gpu l' = encoder_using_gpu l /\
  decoder_using_gpu l' = decoder_using_gpu l.
Proof.
  unfold CreateBuffers.
  repeat break_match; intros Heq; inversion Heq; subst;
    cbn [using_gpu encoder_using_gpu decoder_using_gpu set_encoder_input_buffers
         set_encoder_output_buffers set_decoder_input_buffers
         set_decoder_output_buffers set_encoder_hidden_states set_decoder_logits];
    auto.
Qed.

Lemma PerformWarmup_flags (B : Backend T) (l : LiteRtObjects T) ok l' :
  PerformWarmup B l = (ok, l') ->
  using_gpu l' = using_gpu l /\
  encoder_using_gpu l' = encoder_using_gpu l /\
  decoder_using_gpu l' = decoder_using_gpu l.
Proof.
  unfold PerformWarmup.
  repeat break_match; intros Heq; inversion Heq; subst;
    cbn [using_gpu encoder_using_gpu decoder_using_gpu set_encoder_input_buffers
         set_encoder_output_buffers set_decoder_input_buffers
         set_decoder_output_buffers];
    auto.
Qed.

(** After a successful [Initialize] the two models are on the same
    backend, and they are on the GPU only if both compiled for it and
    neither reported itself as not fully accelerated. *)
Lemma Initialize_backend w p (e : OcrInference T) a b c p' e' :
  Initialize w p e a b c = (true, p', e') ->
  exists l,
    litert_ e' = Some l /\
    using_gpu l = encoder_using_gpu l && decoder_using_gpu l /\
    encoder_using_gpu l = decoder_using_gpu l /\
    (encoder_using_gpu l = true ->
     opencl_lib w = true /\
     exists enc dec,
       gpu_encoder_result w = Some enc /\ gpu_decoder_result w = Some dec /\
       not_fully_accelerated enc = false /\ not_fully_accelerated dec = false).
Proof.
  unfold Initialize.
  repeat break_match; intros Heq; subst;
    try (pose proof (caught_holds_nothing p (own_assets a b c e)) as [Hc _];
         rewrite Heq in Hc; discriminate);
    try match type of Heq with
        | caught ?p ?e = _ =>
            pose proof (caught_holds_nothing p e) as [Hc _];
            rewrite Heq in Hc; discriminate
        end;
    inversion Heq; subst; clear Heq.
  all: cbn [litert_ make_ready set_litert with_objects].
  all: eexists; split; [reflexivity|].
  all: repeat match goal with
         | Hw : PerformWarmup _ _ = _ |- _ => apply PerformWarmup_flags in Hw as (? & ? & ?)
         | Hb : CreateBuffers _ _ _ = _ |- _ => apply CreateBuffers_flags in Hb as (? & ? & ?)
         | Hc : TryCompileWithCpu _ _ _ = _ |- _ => apply TryCompileWithCpu_true in Hc as (? & ? & ?)
         | Hg : gpu_attempt _ _ _ _ _ = _ |- _ => apply gpu_attempt_true in Hg as (? & ? & ? & ? & ? & ? & ?)
         end.
  all: cbn [using_gpu encoder_using_gpu decoder_using_gpu set_using_gpu] in *.
  all: subst; cbn [using_gpu encoder_using_gpu decoder_using_gpu with_models] in *.
  all: repeat split; try congruence.
  all: try (intros _; eexists _, _; repeat split; eassumption).
  all: try (intros Hgpu; congruence).
  all: eexists _, _; repeat split; eassumption.
Qed.
(** ** Engines in service *)

Lemma Run_nonempty model (ins outs outs' : list (TensorBuffer T)) :
  Run model ins outs = Some outs' -> outs <> [] -> outs' <> [].
Proof.
  unfold Run. destruct (model (map buf_data ins)); [|discriminate].
  intros [= <-]. apply store_outputs_nonempty.
Qed.

Lemma Size0_nonempty (bufs : list (TensorBuffer T)) bytes :
  Size0 bufs = Some bytes -> bufs <> [].
Proof. now destruct bufs. Qed.

Lemma CreateBuffers_true (l : LiteRtObjects T) a b l' a' b' :
  CreateBuffers l a b = (true, l', a', b') ->
  encoder_output_buffers l' <> [] /\ decoder_output_buffers l' <> [].
Proof.
  unfold CreateBuffers.
  repeat break_match; intros Heq; inversion Heq; subst.
  cbn [encoder_output_buffers decoder_output_buffers set_encoder_input_buffers
       set_encoder_output_buffers set_decoder_input_buffers
       set_decoder_output_buffers set_encoder_hidden_states set_decoder_logits] in *.
  split; eapply Size0_nonempty; eassumption.
Qed.

Lemma PerformWarmup_outputs (B : Backend T) (l : LiteRtObjects T) l' :
  PerformWarmup B l = (true, l') ->
  encoder_output_buffers l <> [] -> decoder_output_buffers l <> [] ->
  encoder_output_buffers l' <> [] /\ decoder_output_buffers l' <> [].
Proof.
  unfold PerformWarmup.
  repeat break_match; intros Heq; inversion Heq; subst; intros Henc Hdec.
  all: cbn [encoder_output_buffers decoder_output_buffers set_encoder_input_buffers
            set_encoder_output_buffers set_decoder_input_buffers
            set_decoder_output_buffers] in *.
  all: split; eapply Run_nonempty; eassumption.
Qed.

(** A successful [Initialize] puts the engine in service. *)
Lemma Initialize_in_service w p (e : OcrInference T) a b c p' e' :
  Initialize w p e a b c = (true, p', e') -> in_service e'.
Proof.
  unfold Initialize.
  repeat break_match; intros Heq; subst;
    try (pose proof (caught_holds_nothing p (own_assets a b c e)) as [Hc _];
         rewrite Heq in Hc; discriminate);
    try match type of Heq with
        | caught ?p ?e = _ =>
            pose proof (caught_holds_nothing p e) as [Hc _];
            rewrite Heq in Hc; discriminate
        end;
    inversion Heq; subst; clear Heq.
  all: split; [reflexivity|].
  all: eexists; split; [reflexivity|].
  all: match goal with
       | Hb : CreateBuffers _ _ _ = _, Hw : PerformWarmup _ _ = _ |- _ =>
           apply CreateBuffers_true in Hb as [? ?];
           apply PerformWarmup_outputs in Hw as [? ?]; try assumption
       end.
  all: split; assumption.
Qed.



(** ** Tensor buffers up to the floats they hold *)

Lemma wipe_set_data d (b : TensorBuffer T) : wipe (set_data d b) = wipe b.
Proof. reflexivity. Qed.

Lemma set_data_wipe_eq d (x y : TensorBuffer T) :
  wipe x = wipe y -> set_data d x = set_data d y.
Proof.
  destruct x, y. unfold wipe, set_data. cbn. intros [= -> ->]. reflexivity.
Qed.

Lemma agree_outside_refl K (a : list (TensorBuffer T)) : agree_outside K a a.
Proof. now split. Qed.

Lemma agree_outside_trans K (a b c : list (TensorBuffer T)) :
  agree_outside K a b -> agree_outside K b c -> agree_outside K a c.
Proof.
  intros [Hs Hd] [Hs' Hd']. split; [congruence|].
  intros i Hi. rewrite Hd by assumption. now apply Hd'.
Qed.

Lemma agree_outside_weaken (K K' : nat -> Prop) (a b : list (TensorBuffer T)) :
  (forall i, K i -> K' i) -> agree_outside K a b -> agree_outside K' a b.
Proof. intros HK [Hs Hd]. split; [assumption|]. intros i Hi. apply Hd. auto. Qed.

Lemma wipe_alter_set_data d i (a : list (TensorBuffer T)) :
  wipe <$> alter (set_data d) i a = wipe <$> a.
Proof.
  apply list_eq. intros j. rewrite !list_lookup_fmap.
  destruct (decide (i = j)) as [->|Hne].
  - rewrite list_lookup_alter_eq. destruct (a !! j); reflexivity.
  - now rewrite list_lookup_alter_ne.
Qed.

Lemma lookup_wipe_eq (a b : list (TensorBuffer T)) i :
  wipe <$> a = wipe <$> b -> wipe <$> a !! i = wipe <$> b !! i.
Proof. intros Hs. rewrite <- !list_lookup_fmap. now rewrite Hs. Qed.

(** The same floats written to buffer [i] of both vectors. *)
Lemma agree_outside_write (K K' : nat -> Prop) d i (a b : list (TensorBuffer T)) :
  agree_outside K a b ->
  (forall j, ~ K' j -> j = i \/ ~ K j) ->
  agree_outside K' (alter (set_data d) i a) (alter (set_data d) i b).
Proof.
  intros [Hs Hd] HK. split; [now rewrite !wipe_alter_set_data|].
  intros j Hj. destruct (decide (i = j)) as [->|Hne].
  - rewrite !list_lookup_alter_eq.
    pose proof (lookup_wipe_eq a b j Hs) as Hj'.
    destruct (a !! j), (b !! j); cbn in *; try congruence.
    f_equal. apply set_data_wipe_eq. congruence.
  - rewrite !list_lookup_alter_ne by assumption.
    apply Hd. destruct (HK j Hj); congruence.
Qed.

(** Floats written to a buffer whose index is in [K]. *)
Lemma agree_outside_written (K : nat -> Prop) d i (a : list (TensorBuffer T)) :
  K i -> agree_outside K a (alter (set_data d) i a).
Proof.
  intros Hi. split; [now rewrite wipe_alter_set_data|].
  intros j Hj. rewrite list_lookup_alter_ne; [reflexivity|congruence].
Qed.

Lemma agree_outside_nothing (a b : list (TensorBuffer T)) :
  agree_outside (fun _ => False) a b -> a = b.
Proof. intros [_ Hd]. apply list_eq. intros i. apply Hd. tauto. Qed.

Lemma store_outputs_wipe outs (a : list (TensorBuffer T)) :
  store_outputs outs (wipe <$> a) = store_outputs outs a.
Proof. unfold store_outputs. rewrite imap_fmap. reflexivity. Qed.

Lemma store_outputs_agree outs (a b : list (TensorBuffer T)) :
  agree_outside (fun _ => True) a b -> store_outputs outs a = store_outputs outs b.
Proof.
  intros [Hs _]. rewrite <- (store_outputs_wipe outs a), <- (store_outputs_wipe outs b).
  now rewrite Hs.
Qed.

Lemma agree_outside_stored outs (a : list (TensorBuffer T)) :
  agree_outside (fun _ => True) a (store_outputs outs a).
Proof.
  split; [|tauto]. unfold store_outputs. rewrite fmap_imap.
  apply list_eq. intros i. rewrite list_lookup_fmap, list_lookup_imap.
  destruct (a !! i); reflexivity.
Qed.

Lemma take_insert_agree (l l' : list Z) n x :
  length l = length l' -> take n l = take n l' ->
  take (S n) (<[n:=x]> l) = take (S n) (<[n:=x]> l').
Proof.
  revert l' n. induction l as [|a l IH]; intros [|a' l'] n Hlen Htake;
    try discriminate; [reflexivity|].
  destruct n as [|n]; [reflexivity|].
  cbn in Htake |- *. injection Htake as -> Htake. f_equal.
  apply IH; [now injection Hlen | assumption].
Qed.
(** ** Two runs of the decode loop *)

Lemma loop_related_intro (l l' : LiteRtObjects T) emb mask out out' tc :
  agree_outside (fun i => i = 1%nat \/ i = 2%nat)
    (decoder_input_buffers l) (decoder_input_buffers l') ->
  agree_outside (fun _ => True)
    (decoder_output_buffers l) (decoder_output_buffers l') ->
  length out = length out' ->
  take (Z.to_nat tc) out = take (Z.to_nat tc) out' ->
  loop_related
    {| ds_litert := l; ds_embeddings_input := emb; ds_attention_mask := mask;
       ds_out_tokens := out; ds_token_count := tc |}
    {| ds_litert := l'; ds_embeddings_input := emb; ds_attention_mask := mask;
       ds_out_tokens := out'; ds_token_count := tc |}.
Proof. intros Hin Hout Hlen Htake. unfold loop_related. cbn. tauto. Qed.

(** Reduces the projections of the objects after the assignments of an
    iteration. *)
Ltac objects_cbn :=
  cbn [ds_litert with_litert decoder_input_buffers decoder_output_buffers
       encoder_input_buffers encoder_output_buffers decoder_logits
       set_decoder_input_buffers set_decoder_output_buffers set_decoder_logits
       set_encoder_input_buffers set_encoder_output_buffers
       set_encoder_hidden_states encoder_hidden_states
       ds_embeddings_input ds_attention_mask ds_out_tokens ds_token_count] in *.

(** From related states, an iteration ends the same way in both runs,
    in related states. *)
Lemma decode_step_related (B : Backend T) ed max_tokens step s s' :
  loop_related s s' -> 0 <= ds_token_count s ->
  match decode_step B ed max_tokens step s, decode_step B ed max_tokens step s' with
  | Break r, Break r' | Next r, Next r' => loop_related r r'
  | _, _ => False
  end.
Proof.
  destruct s as [l emb mask out tc], s' as [l' emb' mask' out' tc'].
  intros (Hin & Hout & Hemb & Hmask & Htc & Hlen & Htake) Hpos.
  objects_cbn. subst emb' mask' tc'.
  unfold decode_step, Write. objects_cbn.
  destruct (decoder_mask_write B step (span mask MAX_SEQUENCE_LENGTH)).
  2: { now apply loop_related_intro. }
  pose proof (agree_outside_write _ (fun i => i = 2%nat)
                (span mask MAX_SEQUENCE_LENGTH) 1 _ _ Hin) as Hin1.
  destruct (decoder_emb_write B step (span emb (MAX_SEQUENCE_LENGTH * HIDDEN_SIZE))).
  2: { apply loop_related_intro; objects_cbn; try assumption.
       eapply agree_outside_weaken; [|apply Hin1; intros j Hj; lia]. cbn. lia. }
  objects_cbn.
  assert (alter (set_data (span emb (MAX_SEQUENCE_LENGTH * HIDDEN_SIZE))) 2%nat
            (alter (set_data (span mask MAX_SEQUENCE_LENGTH)) 1%nat
               (decoder_input_buffers l'))
          = alter (set_data (span emb (MAX_SEQUENCE_LENGTH * HIDDEN_SIZE))) 2%nat
              (alter (set_data (span mask MAX_SEQUENCE_LENGTH)) 1%nat
                 (decoder_input_buffers l)))
    as ->.
  { symmetry. apply agree_outside_nothing.
    apply (agree_outside_write (fun i => i = 2%nat));
      [apply Hin1; intros j Hj; lia | intros j Hj; lia]. }
  unfold Run. objects_cbn.
  destruct (decoder_run B step _) as [outs|].
  2: { apply loop_related_intro; objects_cbn; try assumption.
       apply agree_outside_refl. }
  rewrite <- (store_outputs_agree outs _ _ Hout).
  unfold Read. objects_cbn.
  destruct (decoder_logits_read B step _).
  2: { apply loop_related_intro; objects_cbn; try assumption;
         apply agree_outside_refl. }
  destruct ((FindMaxLogitToken _ tc <? 0) || (FindMaxLogitToken _ tc =? END_TOKEN_ID)).
  { apply loop_related_intro; objects_cbn; try assumption;
      apply agree_outside_refl. }
  destruct ((tc + 1 >=? max_tokens) || (tc + 1 >=? MAX_SEQUENCE_LENGTH)).
  all: apply loop_related_intro; objects_cbn; try apply agree_outside_refl.
  all: try (rewrite !length_insert; assumption).
  all: rewrite Z2Nat.inj_add, Nat.add_1_r by lia; apply take_insert_agree; assumption.
Qed.
Lemma decode_loop_related (B : Backend T) ed max_tokens n :
  forall step s s',
    loop_related s s' -> 0 <= ds_token_count s ->
    loop_related (decode_loop B ed max_tokens n step s)
      (decode_loop B ed max_tokens n step s').
Proof.
  induction n as [|n IH]; intros step s s' Hrel Hpos; cbn [decode_loop];
    [assumption|].
  pose proof (decode_step_related B ed max_tokens step s s' Hrel Hpos) as Hstep.
  pose proof (decode_step_count B ed max_tokens step s) as Hcount.
  destruct (decode_step B ed max_tokens step s) as [r|r],
    (decode_step B ed max_tokens step s') as [r'|r']; try contradiction;
    [assumption|].
  apply IH; [assumption|lia].
Qed.

(** The value returned and the tokens handed back do not depend on what
    an earlier inference left in the engine or in the caller's array. *)
Lemma InferTokens_same_result (B : Backend T) e e' image_data out_tokens out_tokens'
    max_tokens :
  same_setup e e' -> length out_tokens = length out_tokens' ->
  let r := InferTokens B e image_data out_tokens max_tokens in
  let r' := InferTokens B e' image_data out_tokens' max_tokens in
  fst (fst r) = fst (fst r') /\ tokens_of r = tokens_of r'.
Proof.
  intros (Hinit & Hdata & Hlemb & Hlmask & Hobj) Hlen. cbn zeta.
  unfold tokens_of, InferTokens. rewrite <- Hinit, <- Hdata.
  destruct (initialized_ e); cbn [negb]; [|now split].
  destruct (litert_ e) as [l|], (litert_ e') as [l'|]; try contradiction; [|now split].
  destruct Hobj as (Hei & Heo & Hdi & Hdo).
  unfold Write. destruct (encoder_input_write B _); [|now split].
  objects_cbn.
  match goal with
  | |- context [alter ?f 0%nat (encoder_input_buffers l')] =>
      assert (alter f 0%nat (encoder_input_buffers l')
              = alter f 0%nat (encoder_input_buffers l)) as ->
        by (symmetry; apply agree_outside_nothing;
            apply (agree_outside_write (fun i => i = 0%nat));
            [assumption | intros j Hj; lia])
  end.
  unfold Run. destruct (encoder_run B _) as [outs|]; [|now split].
  rewrite <- (store_outputs_agree outs _ _ Heo).
  unfold Read. objects_cbn. destruct (encoder_output_read B _); [|now split].
  objects_cbn.
  replace (fill_zero (embeddings_input_ e')) with (fill_zero (embeddings_input_ e))
    by (unfold fill_zero; now rewrite Hlemb).
  replace (fill_zero (attention_mask_ e')) with (fill_zero (attention_mask_ e))
    by (unfold fill_zero; now rewrite Hlmask).
  destruct (decoder_hidden_write B _); [|now split].
  cbn [fst snd].
  match goal with
  | |- context [decode_loop ?b ?d ?m ?n ?st ?s0] =>
      match goal with
      | |- context [decode_loop b d m n st ?s1] =>
          lazymatch s1 with
          | s0 => fail
          | _ => destruct (decode_loop_related b d m n st s0 s1)
                   as (_ & _ & _ & _ & Htc & _ & Htake)
          end
      end
  end.
  - apply loop_related_intro; objects_cbn; try assumption.
    + apply (agree_outside_write (fun i => (i < 3)%nat));
        [assumption | intros j Hj; lia].
    + now rewrite !length_insert.
    + apply (take_insert_agree out_tokens out_tokens' 0); [assumption|reflexivity].
  - cbn [ds_token_count]. lia.
  - split; [exact Htc|]. rewrite Htake. reflexivity.
Qed.
(** ** What an inference leaves in the engine *)

Lemma Write_Some ok (bufs bufs' : list (TensorBuffer T)) i d :
  Write ok bufs i d = Some bufs' -> bufs' = alter (set_data d) i bufs.
Proof. unfold Write. destruct ok; [|discriminate]. now intros [= <-]. Qed.

Lemma Run_Some model (ins outs outs' : list (TensorBuffer T)) :
  Run model ins outs = Some outs' -> exists o, outs' = store_outputs o outs.
Proof.
  unfold Run. destruct (model (map buf_data ins)) as [o|]; [|discriminate].
  intros [= <-]. now exists o.
Qed.

Lemma length_UpdateEmbedding (ed emb : list T) token index :
  length (UpdateEmbedding ed emb token index) = length emb.
Proof. unfold UpdateEmbedding, memcpy. apply length_inserts. Qed.

Lemma loop_keeps_refl (s : @DecodeState T) : loop_keeps s s.
Proof. unfold loop_keeps. repeat split; reflexivity. Qed.

Lemma loop_keeps_trans (s1 s2 s3 : @DecodeState T) :
  loop_keeps s1 s2 -> loop_keeps s2 s3 -> loop_keeps s1 s3.
Proof.
  intros (A1 & A2 & A3 & A4 & A5 & A6) (B1 & B2 & B3 & B4 & B5 & B6).
  unfold loop_keeps.
  split; [congruence|]. split; [congruence|].
  split; [eapply agree_outside_trans; eassumption|].
  split; [eapply agree_outside_trans; eassumption|].
  split; congruence.
Qed.

(** Names the buffers that the equations of the context describe. *)
Ltac name_buffers :=
  repeat match goal with
    | Heq : Write _ _ _ _ = Some _ |- _ => apply Write_Some in Heq; subst
    | Heq : Run _ _ _ = Some _ |- _ => apply Run_Some in Heq as [? ->]
    end.

Lemma decoder_inputs_written d1 d2 (a : list (TensorBuffer T)) :
  agree_outside (fun i => (i < 3)%nat) a
    (alter (set_data d2) 2%nat (alter (set_data d1) 1%nat a)).
Proof.
  eapply agree_outside_trans; apply agree_outside_written; lia.
Qed.

(** Closes a goal of agreement between the buffers before and after
    the assignments of an inference. *)
Ltac agree_solver :=
  first [ assumption
        | apply agree_outside_refl
        | apply agree_outside_stored
        | apply agree_outside_written; lia
        | eapply agree_outside_trans; [|eassumption];
          apply agree_outside_written; lia ].

Lemma decode_step_keeps (B : Backend T) ed max_tokens step s :
  loop_keeps s (flow_state (decode_step B ed max_tokens step s)).
Proof.
  unfold decode_step.
  repeat break_match; name_buffers; cbn [flow_state];
    try apply loop_keeps_refl; unfold loop_keeps; objects_cbn.
  all: split; [reflexivity|]. all: split; [reflexivity|].
  all: split; [first [apply decoder_inputs_written
                     | apply agree_outside_written; lia]|].
  all: split; [first [apply agree_outside_stored | apply agree_outside_refl]|].
  all: rewrite ?length_UpdateEmbedding, ?length_insert; split; reflexivity.
Qed.

Lemma decode_loop_keeps (B : Backend T) ed max_tokens n :
  forall step s, loop_keeps s (decode_loop B ed max_tokens n step s).
Proof.
  induction n as [|n IH]; intros step s; cbn [decode_loop];
    [apply loop_keeps_refl|].
  pose proof (decode_step_keeps B ed max_tokens step s) as Hstep.
  destruct (decode_step B ed max_tokens step s) as [r|r]; cbn [flow_state] in Hstep;
    [assumption|].
  eapply loop_keeps_trans; [eassumption | apply IH].
Qed.

Lemma same_setup_refl (e : OcrInference T) : same_setup e e.
Proof.
  unfold same_setup, same_objects. repeat split; try reflexivity.
  destruct (litert_ e); [|exact I]. auto using agree_outside_refl.
Qed.

Lemma length_fill_zero (v : list T) : length (fill_zero v) = length v.
Proof. unfold fill_zero. apply length_replicate. Qed.

(** After an inference the engine is set up as before it. *)
Lemma InferTokens_same_setup (B : Backend T) e image_data out_tokens max_tokens :
  same_setup e (snd (InferTokens B e image_data out_tokens max_tokens)).
Proof.
  unfold InferTokens.
  repeat break_match; name_buffers; cbn [snd]; try apply same_setup_refl.
  all: unfold same_setup;
    cbn [initialized_ embeddings_data_ embeddings_input_ attention_mask_ litert_
         with_objects].
  all: match goal with Hl : litert_ _ = Some _ |- _ => rewrite Hl end.
  all: try match goal with
       | |- context [decode_loop ?b ?d ?m ?n ?st ?s0] =>
           destruct (decode_loop_keeps b d m n st s0)
             as (Hk1 & Hk2 & Hk3 & Hk4 & Hk5 & Hk6);
           rewrite Hk5, Hk6
       end.
  all: objects_cbn.
  all: rewrite ?length_UpdateEmbedding, ?length_insert, ?length_fill_zero.
  all: do 4 (split; [reflexivity|]).
  all: unfold same_objects; objects_cbn.
  all: try rewrite Hk1, Hk2.
  all: split; [agree_solver|]. all: split; [agree_solver|].
  all: split; agree_solver.
Qed.
(** ** Logits that are all equal *)

Lemma nth_replicate_same (x : T) n i : nth i (replicate n x) x = x.
Proof.
  revert i. induction n as [|n IH]; intros [|i]; cbn; try reflexivity. apply IH.
Qed.

Lemma FindMaxLogitToken_flat n seq_len :
  fgt fzero fzero = false ->
  FindMaxLogitToken (replicate n fzero) seq_len = 0.
Proof.
  intros Hflat. unfold FindMaxLogitToken. apply max_logit_loop_flat.
  intros i. unfold read_at. now rewrite !nth_replicate_same.
Qed.

(** * The claims *)

(** C1, as the code has it: on an engine in service, called with
    [max_tokens = 300], when no write, run or read fails and the argmax
    never selects END, [InferTokens] returns 300 tokens, that is
    [MAX_SEQUENCE_LENGTH]: START and the 299 tokens of the iterations 0 to
    298 of the loop.  With room for 300 tokens in the caller's array, 300
    tokens are handed back, START first, all of them vocabulary indices
    other than END. *)
Theorem InferTokens_without_end_token (B : Backend T) e image_data out_tokens :
  in_service e -> encoder_succeeds B ->
  (forall k, 0 <= k < MAX_SEQUENCE_LENGTH - 1 -> step_succeeds B k) ->
  let r := InferTokens B e image_data out_tokens 300 in
  fst (fst r) = 300 /\
  fst (fst r) = MAX_SEQUENCE_LENGTH /\
  Forall generated (tokens_of r) /\
  (length out_tokens = 300%nat ->
   length (tokens_of r) = 300%nat /\ tokens_of r !! 0%nat = Some START_TOKEN_ID).
Proof.
  intros He HB Hsteps. cbn zeta.
  pose proof (InferTokens_count_succeeding B e image_data out_tokens 300 He HB Hsteps)
    as Hcount.
  destruct (InferTokens_tokens B e image_data out_tokens 300) as (Hall & Hfirst & Hlen).
  cbn zeta in Hall, Hfirst, Hlen.
  split; [rewrite Hcount; reflexivity|].
  split; [rewrite Hcount; reflexivity|]. split; [assumption|].
  intros Hroom. split.
  - unfold tokens_of. rewrite length_take, Hlen, Hroom, Hcount. reflexivity.
  - apply Hfirst; [rewrite Hcount; reflexivity|].
    intros ->. discriminate.
Qed.



(** C4: for a fixed backend and a fixed image, a second call of
    [InferTokens] on the engine as the first call left it, with the same
    [max_tokens] and an array of the same size, returns the same number
    of tokens and the same tokens as the first. *)
Theorem InferTokens_deterministic (B : Backend T) e image_data out_tokens out_tokens'
    max_tokens :
  length out_tokens = length out_tokens' ->
  let first := InferTokens B e image_data out_tokens max_tokens in
  let second := InferTokens B (snd first) image_data out_tokens' max_tokens in
  fst (fst second) = fst (fst first) /\ tokens_of second = tokens_of first.
Proof.
  intros Hlen. cbn zeta.
  destruct (InferTokens_same_result B e
              (snd (InferTokens B e image_data out_tokens max_tokens))
              image_data out_tokens out_tokens' max_tokens) as [Hcount Htokens];
    [apply InferTokens_same_setup | assumption |].
  cbn zeta in Hcount, Htokens. split; congruence.
Qed.

(** C10: [FindMaxLogitToken] returns a vocabulary index, so the test
    [next_token < 0] of the decode loop is never true, and every token
    [InferTokens] hands back is a vocabulary index. *)
Theorem FindMaxLogitToken_valid (decoder_logits : list T) (seq_len : Z) :
  0 <= FindMaxLogitToken decoder_logits seq_len < VOCAB_SIZE /\
  (FindMaxLogitToken decoder_logits seq_len <? 0) = false /\
  (forall (B : Backend T) e image_data out_tokens max_tokens,
     Forall (fun t => 0 <= t < VOCAB_SIZE)
       (tokens_of (InferTokens B e image_data out_tokens max_tokens))).
Proof.
  split; [apply FindMaxLogitToken_range|].
  split; [apply FindMaxLogitToken_not_negative|].
  intros B e image_data out_tokens max_tokens.
  destruct (InferTokens_tokens B e image_data out_tokens max_tokens) as (Hall & _).
  cbn zeta in Hall. eapply Forall_impl; [exact Hall|]. now intros t [Ht _].
Qed.

Lemma partially_accelerated_rejected w (enc dec : CompiledModel T) :
  partially_accelerated w ->
  gpu_encoder_result w = Some enc -> gpu_decoder_result w = Some dec ->
  not_fully_accelerated enc = false -> not_fully_accelerated dec = false ->
  False.
Proof.
  unfold not_fully_accelerated.
  intros [(m & Hm & Hacc)|(m & Hm & Hacc)] Henc Hdec Haenc Hadec.
  - rewrite Henc in Hm. injection Hm as ->. now rewrite Hacc in Haenc.
  - rewrite Hdec in Hm. injection Hm as ->. now rewrite Hacc in Hadec.
Qed.

(** C5: when, compiled for the GPU, the encoder or the decoder reports
    itself as not fully accelerated, [TryCompileWithGpu] does not return
    true, and an engine that [Initialize] then initializes answers false
    to [IsEncoderUsingGpu] and to [IsDecoderUsingGpu], with [using_gpu]
    false; [using_gpu] is the conjunction of the two answers. *)
Theorem partial_acceleration_rejected w p (e : OcrInference T) a b c l0 :
  partially_accelerated w ->
  fst (fst (TryCompileWithGpu w p l0)) <> Returned true /\
  (forall p' e',
     Initialize w p e a b c = (true, p', e') ->
     IsEncoderUsingGpu e' = false /\ IsDecoderUsingGpu e' = false /\
     exists l, litert_ e' = Some l /\ using_gpu l = false /\
       using_gpu l = IsEncoderUsingGpu e' && IsDecoderUsingGpu e').
Proof.
  intros Hpartial. split.
  - destruct (TryCompileWithGpu w p l0) as [[r p1] l1] eqn:Hgpu. cbn [fst].
    intros ->. apply TryCompileWithGpu_true in Hgpu
      as (enc & dec & Henc & Hdec & Haenc & Hadec & _).
    eapply partially_accelerated_rejected; eassumption.
  - intros p' e' Hinit.
    apply Initialize_backend in Hinit as (l & Hl & Husing & Hsame & Hgpu).
    unfold IsEncoderUsingGpu, IsDecoderUsingGpu. rewrite Hl.
    assert (encoder_using_gpu l = false) as Henc.
    { destruct (encoder_using_gpu l); [|reflexivity].
      destruct Hgpu as (_ & enc & dec & Henc & Hdec & Haenc & Hadec); [reflexivity|].
      exfalso. eapply partially_accelerated_rejected; eassumption. }
    rewrite <- Hsame, Henc in *. repeat split.
    exists l. repeat split; assumption.
Qed.

(** C8: [Close] leaves the shared environment in place.  When the first
    [Initialize] of the process has created it, it is still there after
    [Close], after a second [Initialize] (of the same engine or of
    another one) and after a second [Close], and the environment has been
    created once in all. *)
Theorem shared_env_created_once w1 w2 (e e2 : OcrInference T) a b c a2 b2 c2 env :
  let first := Initialize w1 process_start e a b c in
  g_persist_env (snd (fst first)) = Some env ->
  let closed := Close (snd (fst first)) (snd first) in
  let second := Initialize w2 (fst closed) e2 a2 b2 c2 in
  let closed_again := Close (snd (fst second)) (snd second) in
  g_persist_env (fst closed) = Some env /\
  g_persist_env (snd (fst second)) = Some env /\
  g_persist_env (fst closed_again) = Some env /\
  shared_env_creations (snd (fst second)) = 1%nat /\
  shared_env_creations (fst closed_again) = 1%nat.
Proof.
  cbn zeta. intros Hcreated.
  set (p1 := snd (fst (Initialize w1 process_start e a b c))) in *.
  assert (shared_env_creations p1 = 1%nat) as Hone.
  { destruct (Initialize_shared_env w1 process_start e a b c) as [_ Hnew].
    cbn zeta in Hnew. fold p1 in Hnew. apply Hnew; [reflexivity|congruence]. }
  destruct (Close_same_env p1 (snd (Initialize w1 process_start e a b c)))
    as [Henv2 Hcount2].
  set (p2 := fst (Close p1 (snd (Initialize w1 process_start e a b c)))) in *.
  destruct (Initialize_shared_env w2 p2 e2 a2 b2 c2) as [Hkept _].
  cbn zeta in Hkept. destruct Hkept as [Henv3 Hcount3]; [congruence|].
  set (r2 := Initialize w2 p2 e2 a2 b2 c2) in *.
  destruct (Close_same_env (snd (fst r2)) (snd r2)) as [Henv4 Hcount4].
  repeat split; congruence.
Qed.

(** What [Close] releases is held by the engine at the call, and nothing
    is held after it. *)
Lemma Close_releases_holdings p (e : OcrInference T) :
  (exists evs,
     calls (fst (Close p e)) = calls p ++ evs /\
     forall ev, ev ∈ evs -> ev = Slept100ms \/ ev ∈ holdings e) /\
  holdings (snd (Close p e)) = [].
Proof.
  split; [|reflexivity].
  unfold Close, holdings. cbn [fst].
  destruct (litert_ e) as [l|].
  - eexists (release_objects l
             ++ (if using_gpu l then [Slept100ms] else [])
             ++ destroy_objects (released l)
             ++ close_asset (encoder_asset_ e) ++ close_asset (decoder_asset_ e)
             ++ close_asset (embeddings_asset_ e)).
    split.
    + cbn [using_gpu released]. destruct (using_gpu l); cbn [emit calls];
        rewrite <- ?app_assoc; reflexivity.
    + intros ev. unfold release_objects, destroy_objects, released.
      cbn [decoder_output_buffers decoder_input_buffers encoder_output_buffers
           encoder_input_buffers compiled_decoder compiled_encoder cpu_env
           destroy_buffers destroy_model map app].
      rewrite !elem_of_app. destruct (using_gpu l).
      * rewrite list_elem_of_singleton. tauto.
      * rewrite elem_of_nil. tauto.
  - eexists (close_asset (encoder_asset_ e) ++ close_asset (decoder_asset_ e)
             ++ close_asset (embeddings_asset_ e)).
    split; [cbn [emit calls]; rewrite <- ?app_assoc; reflexivity|].
    intros ev Hev. right. exact Hev.
Qed.

(** Everything the engine holds at the call is released by [Close]. *)
Lemma Close_releases_all p (e : OcrInference T) :
  exists evs,
    calls (fst (Close p e)) = calls p ++ evs /\
    forall ev, ev ∈ holdings e -> ev ∈ evs.
Proof.
  unfold Close, holdings. cbn [fst].
  destruct (litert_ e) as [l|].
  - eexists (release_objects l
             ++ (if using_gpu l then [Slept100ms] else [])
             ++ destroy_objects (released l)
             ++ close_asset (encoder_asset_ e) ++ close_asset (decoder_asset_ e)
             ++ close_asset (embeddings_asset_ e)).
    split.
    + cbn [using_gpu released]. destruct (using_gpu l); cbn [emit calls];
        rewrite <- ?app_assoc; reflexivity.
    + intros ev. unfold release_objects, destroy_objects, released.
      cbn [decoder_output_buffers decoder_input_buffers encoder_output_buffers
           encoder_input_buffers compiled_decoder compiled_encoder cpu_env
           destroy_buffers destroy_model map app].
      rewrite !elem_of_app. tauto.
  - eexists (close_asset (encoder_asset_ e) ++ close_asset (decoder_asset_ e)
             ++ close_asset (embeddings_asset_ e)).
    split; [cbn [emit calls]; rewrite <- ?app_assoc; reflexivity|].
    intros ev Hev. exact Hev.
Qed.

(** C9, amended: a second [Close] right after a [Close] makes no call,
    so it releases nothing, and leaves the engine as it is; so does
    [Close] on a new engine, and on any engine that holds nothing (it
    makes no call there, and changes at most the attention mask, which it
    empties).  That
    the engine is not initialized is not enough for this: an engine on
    which [Initialize] failed is not initialized and may still hold
    objects and assets.  On any engine, initialized or not, [Close]
    releases what the engine holds at the call and only that, and after
    it the engine holds no object, no asset and is not initialized. *)
Theorem Close_idempotent p (e : OcrInference T) :
  Close (fst (Close p e)) (snd (Close p e)) = Close p e /\
  calls (fst (Close (fst (Close p e)) (snd (Close p e)))) = calls (fst (Close p e)) /\
  Close p (new_engine (T:=T)) = (p, new_engine) /\
  holds_nothing (snd (Close p e)) /\
  holdings (snd (Close p e)) = [] /\
  (exists evs,
     calls (fst (Close p e)) = calls p ++ evs /\
     forall ev, ev ∈ evs -> ev = Slept100ms \/ ev ∈ holdings e) /\
  (holds_nothing e ->
   fst (Close p e) = p /\ (attention_mask_ e = [] -> snd (Close p e) = e)) /\
  (exists evs,
     calls (fst (Close p e)) = calls p ++ evs /\
     forall ev, ev ∈ holdings e -> ev ∈ evs).
Proof.
  destruct (Close_releases_holdings p e) as [Hheld Hempty].
  pose proof (Close_releases_all p e) as Hall.
  cut (Close (fst (Close p e)) (snd (Close p e)) = Close p e /\
       calls (fst (Close (fst (Close p e)) (snd (Close p e))))
         = calls (fst (Close p e)) /\
       Close p (new_engine (T:=T)) = (p, new_engine) /\
       holds_nothing (snd (Close p e)) /\
       (holds_nothing e ->
        fst (Close p e) = p /\ (attention_mask_ e = [] -> snd (Close p e) = e)));
    [tauto|].
  clear Hheld Hempty Hall.
  pose proof (Close_holds_nothing p e) as Hnothing.
  destruct (Close_of_nothing (fst (Close p e)) (snd (Close p e)) Hnothing)
    as [Hp He].
  assert (Close (fst (Close p e)) (snd (Close p e)) = Close p e) as Hsame.
  { rewrite (surjective_pairing (Close (fst (Close p e)) (snd (Close p e)))).
    rewrite Hp, He by reflexivity. symmetry. apply surjective_pairing. }
  split; [assumption|]. split; [now rewrite Hsame|].
  split; [|split; [assumption | intros Hn; now apply Close_of_nothing]].
  assert (holds_nothing (new_engine (T:=T))) as Hnew by (repeat split).
  destruct (Close_of_nothing p new_engine Hnew) as [Hp' He'].
  rewrite (surjective_pairing (Close p new_engine)).
  now rewrite Hp', He'.
Qed.

(** * Further properties of the engine *)

(** ** The embedding rows *)

Lemma UpdateEmbedding_frame (ed emb : list T) token index pos :
  (pos < Z.to_nat (index * HIDDEN_SIZE) \/
   Z.to_nat (index * HIDDEN_SIZE) + 768 <= pos)%nat ->
  UpdateEmbedding ed emb token index !! pos = emb !! pos.
Proof.
  intros Hpos. unfold UpdateEmbedding, memcpy.
  destruct Hpos as [Hlt|Hge].
  - now apply list_lookup_inserts_lt.
  - apply list_lookup_inserts_ge. rewrite length_take.
    change (Z.to_nat HIDDEN_SIZE) with 768%nat. lia.
Qed.

Lemma UpdateEmbedding_row (ed emb : list T) token index k :
  (Z.to_nat (token * HIDDEN_SIZE) + 768 <= length ed)%nat ->
  (Z.to_nat (index * HIDDEN_SIZE) + 768 <= length emb)%nat ->
  (k < 768)%nat ->
  UpdateEmbedding ed emb token index !! (Z.to_nat (index * HIDDEN_SIZE) + k)%nat
  = ed !! (Z.to_nat (token * HIDDEN_SIZE) + k)%nat.
Proof.
  intros Hed Hemb Hk. unfold UpdateEmbedding, memcpy.
  assert (length (take (Z.to_nat HIDDEN_SIZE) (drop (Z.to_nat (token * HIDDEN_SIZE)) ed))
          = 768%nat) as Hlen.
  { rewrite length_take, length_drop. change (Z.to_nat HIDDEN_SIZE) with 768%nat. lia. }
  rewrite list_lookup_inserts by (rewrite ?Hlen; lia).
  rewrite lookup_take_lt by (change (Z.to_nat HIDDEN_SIZE) with 768%nat; lia).
  rewrite lookup_drop. f_equal. lia.
Qed.

(** [UpdateEmbedding] copies row [token_id] of the embeddings to row
    [index] of [embeddings_input_] and leaves the other rows and the
    size of the vector as they are, when both rows lie within their
    vectors. *)
Theorem UpdateEmbedding_copies_row (ed emb : list T) token index :
  0 <= token -> 0 <= index ->
  (Z.to_nat (token * HIDDEN_SIZE) + 768 <= length ed)%nat ->
  (Z.to_nat (index * HIDDEN_SIZE) + 768 <= length emb)%nat ->
  length (UpdateEmbedding ed emb token index) = length emb /\
  take 768 (drop (Z.to_nat (index * HIDDEN_SIZE)) (UpdateEmbedding ed emb token index))
    = take 768 (drop (Z.to_nat (token * HIDDEN_SIZE)) ed) /\
  take (Z.to_nat (index * HIDDEN_SIZE)) (UpdateEmbedding ed emb token index)
    = take (Z.to_nat (index * HIDDEN_SIZE)) emb /\
  drop (Z.to_nat (index * HIDDEN_SIZE) + 768) (UpdateEmbedding ed emb token index)
    = drop (Z.to_nat (index * HIDDEN_SIZE) + 768) emb.
Proof.
  intros _ _ Hed Hemb.
  split; [apply length_UpdateEmbedding|].
  split; [|split].
  - apply list_eq. intros k.
    destruct (decide (k < 768)%nat) as [Hk|Hk].
    + rewrite !lookup_take_lt, !lookup_drop by assumption.
      now apply UpdateEmbedding_row.
    + rewrite !lookup_take_ge by lia. reflexivity.
  - apply list_eq. intros k.
    destruct (decide (k < Z.to_nat (index * HIDDEN_SIZE))%nat) as [Hk|Hk].
    + rewrite !lookup_take_lt by assumption.
      apply UpdateEmbedding_frame. now left.
    + rewrite !lookup_take_ge by lia. reflexivity.
  - apply list_eq. intros k. rewrite !lookup_drop.
    apply UpdateEmbedding_frame. right. lia.
Qed.

(** ** The decoding state *)

Lemma mask_of_insert (n len : nat) :
  (n < len)%nat -> <[n:=fone]> (mask_of n len) = mask_of (S n) len.
Proof.
  intros Hn. unfold mask_of.
  rewrite (replicate_S_end n), <- app_assoc.
  rewrite insert_app_r_alt by (rewrite length_replicate; lia).
  rewrite length_replicate, Nat.sub_diag.
  replace (len - n)%nat with (S (len - S n)) by lia.
  reflexivity.
Qed.

Lemma append_invariant (ed : list T) (l l' : LiteRtObjects T) emb mask out tc t :
  (Z.to_nat (VOCAB_SIZE * HIDDEN_SIZE) <= length ed)%nat ->
  1 <= tc < 300 -> 0 <= t < VOCAB_SIZE ->
  decoding_invariant ed
    {| ds_litert := l; ds_embeddings_input := emb; ds_attention_mask := mask;
       ds_out_tokens := out; ds_token_count := tc |} ->
  decoding_invariant ed
    {| ds_litert := l'; ds_embeddings_input := UpdateEmbedding ed emb t tc;
       ds_attention_mask := <[Z.to_nat tc:=fone]> mask;
       ds_out_tokens := <[Z.to_nat tc:=t]> out; ds_token_count := tc + 1 |}.
Proof.
  intros Hed Htc Ht (Hmask & Hlen & Hout & Hzero & Hrows).
  unfold decoding_invariant in *.
  cbn [ds_attention_mask ds_embeddings_input ds_out_tokens ds_token_count] in *.
  assert (Z.to_nat (tc + 1) = S (Z.to_nat tc)) as -> by lia.
  assert (Z.to_nat (tc * HIDDEN_SIZE) = (Z.to_nat tc * 768)%nat) as Hoff
    by (unfold HIDDEN_SIZE; lia).
  assert (Z.to_nat (t * HIDDEN_SIZE) = (Z.to_nat t * 768)%nat) as Hsrc
    by (unfold HIDDEN_SIZE; lia).
  set (n := Z.to_nat tc) in *.
  assert (n < 300)%nat as Hn by (subst n; lia).
  split; [rewrite Hmask; now apply mask_of_insert|].
  split; [now rewrite length_UpdateEmbedding|].
  split; [now rewrite length_insert|].
  split.
  - intros pos Hpos. rewrite UpdateEmbedding_frame by (rewrite Hoff; lia).
    apply Hzero. lia.
  - intros i k Hi Hk. destruct (decide (i = n)) as [->|Hne].
    + exists t. split; [apply list_lookup_insert_eq; lia|]. split; [assumption|].
      rewrite <- Hoff, <- Hsrc. apply UpdateEmbedding_row; [| |assumption].
      * rewrite Hsrc. unfold VOCAB_SIZE, HIDDEN_SIZE in *. lia.
      * rewrite Hoff, Hlen. lia.
    + destruct (Hrows i k ltac:(lia) Hk) as (t0 & Hlook & Hrange & Hrow).
      exists t0. split; [rewrite list_lookup_insert_ne by lia; assumption|].
      split; [assumption|].
      rewrite UpdateEmbedding_frame by (rewrite Hoff; lia). assumption.
Qed.

Lemma decode_step_invariant (B : Backend T) ed max_tokens step s :
  (Z.to_nat (VOCAB_SIZE * HIDDEN_SIZE) <= length ed)%nat ->
  1 <= ds_token_count s < 300 ->
  decoding_invariant ed s ->
  decoding_invariant ed (flow_state (decode_step B ed max_tokens step s)).
Proof.
  intros Hed Htc Hinv. destruct s as [l emb mask out tc].
  unfold decode_step. cbn [ds_litert ds_embeddings_input ds_attention_mask
    ds_out_tokens ds_token_count] in *.
  repeat break_match; cbn [flow_state with_litert ds_embeddings_input
    ds_attention_mask ds_out_tokens ds_token_count];
    try exact Hinv.
  all: apply (append_invariant ed l); try assumption; apply FindMaxLogitToken_range.
Qed.

Lemma decode_loop_invariant (B : Backend T) ed max_tokens n :
  forall step s,
    (Z.to_nat (VOCAB_SIZE * HIDDEN_SIZE) <= length ed)%nat ->
    1 <= ds_token_count s < 300 ->
    decoding_invariant ed s ->
    decoding_invariant ed (decode_loop B ed max_tokens n step s).
Proof.
  induction n as [|n IH]; intros step s Hed Htc Hinv; cbn [decode_loop];
    [assumption|].
  pose proof (decode_step_invariant B ed max_tokens step s Hed Htc Hinv) as Hstep.
  pose proof (decode_step_count B ed max_tokens step s) as Hcount.
  destruct (decode_step B ed max_tokens step s) as [r|r]; cbn [flow_state] in Hstep;
    [assumption|].
  apply IH; [assumption | unfold MAX_SEQUENCE_LENGTH in Hcount; lia | assumption].
Qed.

Lemma fill_zero_replicate (v : list T) n : length v = n -> fill_zero v = replicate n fzero.
Proof. intros <-. reflexivity. Qed.

(** The state in which [InferTokens] enters the decode loop. *)
Lemma decoding_invariant_start (ed emb mask : list T) (l : LiteRtObjects T) out :
  (Z.to_nat (VOCAB_SIZE * HIDDEN_SIZE) <= length ed)%nat ->
  length emb = (300 * 768)%nat -> length mask = 300%nat ->
  (300 <= length out)%nat ->
  decoding_invariant ed
    {| ds_litert := l;
       ds_embeddings_input := UpdateEmbedding ed (fill_zero emb) START_TOKEN_ID 0;
       ds_attention_mask := <[0%nat:=fone]> (fill_zero mask);
       ds_out_tokens := <[0%nat:=START_TOKEN_ID]> out; ds_token_count := 1 |}.
Proof.
  intros Hed Hemb Hmask Hout. unfold decoding_invariant.
  cbn [ds_attention_mask ds_embeddings_input ds_out_tokens ds_token_count].
  change (Z.to_nat 1) with 1%nat.
  split.
  { rewrite (fill_zero_replicate mask 300 Hmask).
    apply (mask_of_insert 0 300). lia. }
  split; [now rewrite length_UpdateEmbedding, length_fill_zero|].
  split; [now rewrite length_insert|].
  split.
  - intros pos Hpos.
    rewrite UpdateEmbedding_frame by (change (Z.to_nat (0 * HIDDEN_SIZE)) with 0%nat; lia).
    rewrite (fill_zero_replicate emb _ Hemb). apply lookup_replicate_2. lia.
  - intros i k Hi Hk. assert (i = 0%nat) as -> by lia.
    exists START_TOKEN_ID.
    split; [apply list_lookup_insert_eq; lia|].
    split; [unfold START_TOKEN_ID, VOCAB_SIZE; lia|].
    change (0 * 768 + k)%nat with (Z.to_nat (0 * HIDDEN_SIZE) + k)%nat.
    change (Z.to_nat START_TOKEN_ID * 768)%nat with (Z.to_nat (START_TOKEN_ID * HIDDEN_SIZE)).
    apply UpdateEmbedding_row; [|rewrite length_fill_zero, Hemb|assumption].
    + unfold START_TOKEN_ID, VOCAB_SIZE, HIDDEN_SIZE in *. lia.
    + change (Z.to_nat (0 * HIDDEN_SIZE)) with 0%nat. lia.
Qed.

(** After an inference that hands back [n > 0] tokens, on an engine whose
    two vectors have the sizes [Initialize] gives them and whose
    embeddings table has a row for every vocabulary index: the attention
    mask is [n] ones followed by zeros, the rows of [embeddings_input_]
    from [n] on are zero, and row [i] below [n] is the embedding of
    [out_tokens[i]]. *)
Theorem InferTokens_decoding_state (B : Backend T) e image_data out_tokens max_tokens :
  length (attention_mask_ e) = 300%nat ->
  length (embeddings_input_ e) = (300 * 768)%nat ->
  (Z.to_nat (VOCAB_SIZE * HIDDEN_SIZE) <= length (embeddings_data_ e))%nat ->
  (300 <= length out_tokens)%nat ->
  0 < fst (fst (InferTokens B e image_data out_tokens max_tokens)) ->
  let r := InferTokens B e image_data out_tokens max_tokens in
  let n := Z.to_nat (fst (fst r)) in
  attention_mask_ (snd r) = mask_of n 300 /\
  (forall pos, (n * 768 <= pos < 300 * 768)%nat ->
     embeddings_input_ (snd r) !! pos = Some fzero) /\
  (forall i k, (i < n)%nat -> (k < 768)%nat ->
     exists t, snd (fst r) !! i = Some t /\ 0 <= t < VOCAB_SIZE /\
       embeddings_input_ (snd r) !! (i * 768 + k)%nat
       = embeddings_data_ e !! (Z.to_nat t * 768 + k)%nat).
Proof.
  intros Hmask Hemb Hed Hout. cbn zeta. unfold InferTokens.
  repeat break_match; cbn [fst snd]; intros Hpos; try lia.
  match goal with
  | |- context [decode_loop ?b ?d ?m ?n ?st ?s0] =>
      pose proof (decode_loop_invariant b d m n st s0 Hed) as Hinv;
      pose proof (decode_loop_count b d m n st s0) as Hcount;
      set (r := decode_loop b d m n st s0) in *
  end.
  cbn [ds_token_count] in Hinv.
  destruct Hinv as (Hm & _ & _ & Hzero & Hrows);
    [lia | now apply decoding_invariant_start |].
  cbn [attention_mask_ embeddings_input_ with_objects].
  repeat split; assumption.
Qed.

(** ** What an inference leaves alone *)

Lemma decode_step_frame (B : Backend T) ed max_tokens step s :
  0 <= ds_token_count s ->
  let s' := flow_state (decode_step B ed max_tokens step s) in
  ds_token_count s <= ds_token_count s' /\
  forall i : nat, ds_token_count s' <= Z.of_nat i ->
    ds_out_tokens s' !! i = ds_out_tokens s !! i.
Proof.
  intros Htc. cbn zeta. unfold decode_step.
  repeat break_match; cbn [flow_state ds_out_tokens ds_token_count with_litert];
    (split; [lia|]); intros i Hi; try reflexivity.
  all: apply list_lookup_insert_ne; lia.
Qed.

Lemma decode_loop_frame (B : Backend T) ed max_tokens n :
  forall step s,
    0 <= ds_token_count s ->
    let r := decode_loop B ed max_tokens n step s in
    forall i : nat, ds_token_count r <= Z.of_nat i ->
      ds_out_tokens r !! i = ds_out_tokens s !! i.
Proof.
  induction n as [|n IH]; intros step s Htc; cbn zeta; cbn [decode_loop];
    [reflexivity|].
  pose proof (decode_step_frame B ed max_tokens step s Htc) as Hstep.
  cbn zeta in Hstep.
  destruct (decode_step B ed max_tokens step s) as [s'|s']; cbn [flow_state] in Hstep.
  - apply Hstep.
  - destruct Hstep as [Hle Hkeep]. intros i Hi.
    pose proof (decode_loop_count B ed max_tokens n (step + 1) s') as Hcount.
    cbn zeta in Hcount.
    rewrite (IH (step + 1) s') by lia. apply Hkeep. lia.
Qed.

Lemma InferTokens_frame (B : Backend T) e image_data out_tokens max_tokens (i : nat) :
  (1 <= i)%nat ->
  fst (fst (InferTokens B e image_data out_tokens max_tokens)) <= Z.of_nat i ->
  snd (fst (InferTokens B e image_data out_tokens max_tokens)) !! i = out_tokens !! i.
Proof.
  unfold InferTokens.
  repeat break_match; cbn [fst snd]; intros Hi Hcount; try reflexivity.
  all: try match goal with
       | |- context [decode_loop ?b ?d ?m ?n ?st ?s0] =>
           pose proof (decode_loop_frame b d m n st s0) as Hloop;
           cbn zeta in Hloop; cbn [ds_token_count ds_out_tokens] in Hloop;
           rewrite Hloop by (assumption || lia)
       end.
  all: apply list_lookup_insert_ne; lia.
Qed.

(** [InferTokens] writes the caller's array at index 0 and below the
    count it returns, nowhere else, and keeps its length. *)
Theorem InferTokens_writes_prefix (B : Backend T) e image_data out_tokens max_tokens :
  let r := InferTokens B e image_data out_tokens max_tokens in
  let n := Nat.max 1 (Z.to_nat (fst (fst r))) in
  length (snd (fst r)) = length out_tokens /\
  drop n (snd (fst r)) = drop n out_tokens.
Proof.
  cbn zeta. split; [apply InferTokens_tokens|].
  apply list_eq. intros i. rewrite !lookup_drop.
  apply InferTokens_frame; lia.
Qed.

Lemma decode_step_fixed (B : Backend T) ed max_tokens step s :
  let l := ds_litert s in
  let l' := ds_litert (flow_state (decode_step B ed max_tokens step s)) in
  cpu_env l' = cpu_env l /\ compiled_encoder l' = compiled_encoder l /\
  compiled_decoder l' = compiled_decoder l /\ using_gpu l' = using_gpu l /\
  encoder_using_gpu l' = encoder_using_gpu l /\
  decoder_using_gpu l' = decoder_using_gpu l.
Proof.
  cbn zeta. unfold decode_step.
  repeat break_match; cbn [flow_state ds_litert with_litert]; repeat split.
Qed.

Lemma decode_loop_fixed (B : Backend T) ed max_tokens n :
  forall step s,
    let l := ds_litert s in
    let l' := ds_litert (decode_loop B ed max_tokens n step s) in
    cpu_env l' = cpu_env l /\ compiled_encoder l' = compiled_encoder l /\
    compiled_decoder l' = compiled_decoder l /\ using_gpu l' = using_gpu l /\
    encoder_using_gpu l' = encoder_using_gpu l /\
    decoder_using_gpu l' = decoder_using_gpu l.
Proof.
  induction n as [|n IH]; intros step s; cbn zeta; cbn [decode_loop];
    [repeat split|].
  pose proof (decode_step_fixed B ed max_tokens step s) as Hstep. cbn zeta in Hstep.
  destruct (decode_step B ed max_tokens step s) as [s'|s']; cbn [flow_state] in Hstep;
    [exact Hstep|].
  specialize (IH (step + 1) s'). cbn zeta in IH.
  destruct Hstep as (<- & <- & <- & <- & <- & <-). exact IH.
Qed.

(** An inference assigns none of: the environment and the two compiled
    models behind [litert_], the three GPU flags, the three assets, the
    embeddings table and its count, [initialized_], the two output
    sizes. *)
Theorem InferTokens_fixed_part (B : Backend T) e image_data out_tokens max_tokens :
  fixed_part (snd (InferTokens B e image_data out_tokens max_tokens)) = fixed_part e.
Proof.
  unfold InferTokens.
  repeat break_match; cbn [snd]; try reflexivity.
  all: unfold fixed_part;
    cbn [litert_ encoder_asset_ decoder_asset_ embeddings_asset_ embeddings_data_
         embedding_count_ initialized_ encoder_output_size_ decoder_output_size_
         with_objects];
    match goal with Hl : litert_ _ = Some _ |- _ => rewrite Hl end.
  all: try match goal with
       | |- context [decode_loop ?b ?d ?m ?n ?st ?s0] =>
           pose proof (decode_loop_fixed b d m n st s0) as Hloop;
           cbn zeta in Hloop; cbn [ds_litert] in Hloop;
           destruct Hloop as (-> & -> & -> & -> & -> & ->)
       end.
  all: reflexivity.
Qed.

(** ** The encoder stage and the END token *)

Lemma InferTokens_encoder_fails (B : Backend T) e image_data out_tokens max_tokens :
  encoder_fails B ->
  fst (fst (InferTokens B e image_data out_tokens max_tokens)) = 0.
Proof.
  intros Hfail. unfold InferTokens, Write, Run, Read.
  repeat (break_match; try reflexivity); exfalso;
    destruct Hfail as [Hf|[Hf|[Hf|Hf]]]; rewrite ?Hf in *; discriminate.
Qed.

(** On an engine in service: when the calls before the decode loop have a
    value the inference hands back at least one token, START first; when
    one of them has none it hands back no token. *)
Theorem InferTokens_encoder_stage (B : Backend T) e image_data out_tokens max_tokens :
  in_service e ->
  let r := InferTokens B e image_data out_tokens max_tokens in
  (encoder_succeeds B ->
   1 <= fst (fst r) /\
   (out_tokens <> [] -> snd (fst r) !! 0%nat = Some START_TOKEN_ID)) /\
  (encoder_fails B -> fst (fst r) = 0).
Proof.
  intros He. cbn zeta. split; [|apply InferTokens_encoder_fails].
  intros HB.
  destruct (InferTokens_reaches_loop B e image_data out_tokens max_tokens He HB)
    as (s0 & -> & Htc & _ & Hout).
  cbn zeta. cbn [fst snd].
  pose proof (decode_loop_count B (embeddings_data_ e) max_tokens
                (Z.to_nat (MAX_SEQUENCE_LENGTH - 1)) 0 s0) as Hcount.
  destruct (decode_loop_tokens B (embeddings_data_ e) max_tokens
              (Z.to_nat (MAX_SEQUENCE_LENGTH - 1)) 0 s0) as (_ & Hkeep & _); [lia|].
  cbn zeta in Hcount. split; [lia|].
  intros Hne. rewrite Hkeep by lia. rewrite Hout.
  destruct out_tokens; [congruence|reflexivity].
Qed.

Lemma decode_step_ends (B : Backend T) ed max_tokens step s :
  step_ends B step (ds_token_count s) ->
  decoder_output_buffers (ds_litert s) <> [] ->
  exists s',
    decode_step B ed max_tokens step s = Break s' /\
    ds_token_count s' = ds_token_count s /\
    ds_out_tokens s' = ds_out_tokens s.
Proof.
  intros (Hmask & Hemb & Hrun & Hread) Hout.
  unfold decode_step, Write. rewrite Hmask, Hemb. unfold Run.
  match goal with
  | |- context [decoder_run B step ?ins] => destruct (Hrun ins) as (outs & -> & Hsel)
  end.
  unfold Read. rewrite Hread.
  cbn [decoder_output_buffers decoder_logits set_decoder_input_buffers
       set_decoder_output_buffers set_decoder_logits].
  rewrite data_at_store_outputs by assumption.
  rewrite Hsel, Z.eqb_refl, orb_true_r.
  eexists. repeat split.
Qed.

(** When the argmax selects END at step [j], after [j] iterations that
    appended a token and below the caller's limit, the inference hands
    back [1 + j] tokens: START and the [j] tokens appended.  END is not
    one of them. *)
Theorem InferTokens_stops_at_end (B : Backend T) e image_data out_tokens max_tokens
    (j : nat) :
  in_service e -> encoder_succeeds B ->
  (j < 299)%nat ->
  (forall k, 0 <= k < Z.of_nat j -> step_succeeds B k) ->
  step_ends B (Z.of_nat j) (1 + Z.of_nat j) ->
  1 + Z.of_nat j < max_tokens ->
  let r := InferTokens B e image_data out_tokens max_tokens in
  fst (fst r) = 1 + Z.of_nat j /\ END_TOKEN_ID ∉ tokens_of r.
Proof.
  intros He HB Hj Hsteps Hend Hmax. cbn zeta. split.
  - destruct (InferTokens_reaches_loop B e image_data out_tokens max_tokens He HB)
      as (s0 & -> & Htc & Hout & _).
    cbn zeta. cbn [fst].
    replace (Z.to_nat (MAX_SEQUENCE_LENGTH - 1)) with (j + S (298 - j))%nat
      by (unfold MAX_SEQUENCE_LENGTH; lia).
    destruct (decode_loop_prefix B (embeddings_data_ e) max_tokens j (S (298 - j)) 0 s0)
      as (s' & -> & Htc' & Hout');
      [assumption | assumption | lia | unfold MAX_SEQUENCE_LENGTH; lia |].
    cbn [decode_loop].
    destruct (decode_step_ends B (embeddings_data_ e) max_tokens (0 + Z.of_nat j) s')
      as (s'' & -> & Htc'' & _);
      [replace (ds_token_count s') with (1 + Z.of_nat j) by lia; assumption
      | assumption |].
    lia.
  - destruct (InferTokens_tokens B e image_data out_tokens max_tokens) as (Hall & _).
    intros Hin. rewrite Forall_forall in Hall. apply Hall in Hin.
    destruct Hin as [_ Hne]. congruence.
Qed.

(** ** Engines that are not in service *)

(** After [Close], an inference hands back no token and changes neither
    the caller's array nor the engine. *)
Theorem InferTokens_after_Close (B : Backend T) p e image_data out_tokens max_tokens :
  InferTokens B (snd (Close p e)) image_data out_tokens max_tokens
  = (0, out_tokens, snd (Close p e)).
Proof.
  destruct (Close_holds_nothing p e) as (_ & _ & _ & _ & Hinit).
  unfold InferTokens. now rewrite Hinit.
Qed.

Lemma caught_not_initialized p (e : OcrInference T) :
  initialized_ (snd (caught p e)) = false.
Proof.
  destruct (caught_holds_nothing p e) as (_ & _ & _ & _ & _ & Hinit). exact Hinit.
Qed.

Lemma Initialize_false_not_initialized w p (e : OcrInference T) a b c :
  initialized_ e = false ->
  fst (fst (Initialize w p e a b c)) = false ->
  initialized_ (snd (Initialize w p e a b c)) = false.
Proof.
  intros Hinit. unfold Initialize. rewrite Hinit.
  repeat break_match; cbn [fst snd]; intros Hres; try discriminate;
    try apply caught_not_initialized;
    cbn [initialized_ set_output_sizes set_litert with_objects own_assets];
    assumption.
Qed.

(** When [Initialize] fails on an engine that was not initialized, the
    engine stays unusable: an inference on it hands back no token and
    changes neither the caller's array nor the engine. *)
Theorem InferTokens_after_failed_Initialize (B : Backend T) w p e a b c
    image_data out_tokens max_tokens :
  initialized_ e = false ->
  fst (fst (Initialize w p e a b c)) = false ->
  IsInitialized (snd (Initialize w p e a b c)) = false /\
  InferTokens B (snd (Initialize w p e a b c)) image_data out_tokens max_tokens
  = (0, out_tokens, snd (Initialize w p e a b c)).
Proof.
  intros Hinit Hres.
  pose proof (Initialize_false_not_initialized w p e a b c Hinit Hres) as Hnot.
  split; [exact Hnot|]. unfold InferTokens. now rewrite Hnot.
Qed.

(** ** What a successful initialization sets up *)

Lemma length_resize (v : list T) n x : length (resize v n x) = Z.to_nat n.
Proof. unfold resize. rewrite length_app, length_take, length_replicate. lia. Qed.

Lemma Size0_store_outputs outs (bufs : list (TensorBuffer T)) :
  Size0 (store_outputs outs bufs) = Size0 bufs.
Proof. now destruct bufs. Qed.

Lemma Run_Size0 model (ins outs outs' : list (TensorBuffer T)) :
  Run model ins outs = Some outs' -> Size0 outs' = Size0 outs.
Proof.
  unfold Run. destruct (model (map buf_data ins)); [|discriminate].
  intros [= <-]. apply Size0_store_outputs.
Qed.

Lemma CreateBuffers_sizes (l : LiteRtObjects T) a b l' a' b' :
  CreateBuffers l a b = (true, l', a', b') ->
  length (encoder_hidden_states l') = Z.to_nat a' /\
  length (decoder_logits l') = Z.to_nat b' /\
  exists enc_bytes dec_bytes,
    Size0 (encoder_output_buffers l') = Some enc_bytes /\
    a' = enc_bytes / sizeof_float /\
    Size0 (decoder_output_buffers l') = Some dec_bytes /\
    b' = dec_bytes / sizeof_float.
Proof.
  unfold CreateBuffers.
  repeat break_match; intros Heq; inversion Heq; subst.
  cbn [encoder_output_buffers decoder_output_buffers encoder_hidden_states
       decoder_logits set_encoder_input_buffers
       set_encoder_output_buffers set_decoder_input_buffers
       set_decoder_output_buffers set_encoder_hidden_states set_decoder_logits] in *.
  rewrite !length_resize.
  split; [reflexivity|]. split; [reflexivity|].
  eexists _, _. split; [eassumption|]. split; [reflexivity|].
  split; [eassumption|reflexivity].
Qed.

Lemma PerformWarmup_keeps (B : Backend T) (l : LiteRtObjects T) l' :
  PerformWarmup B l = (true, l') ->
  encoder_hidden_states l' = encoder_hidden_states l /\
  decoder_logits l' = decoder_logits l /\
  Size0 (encoder_output_buffers l') = Size0 (encoder_output_buffers l) /\
  Size0 (decoder_output_buffers l') = Size0 (decoder_output_buffers l) /\
  forall bytes, Size0 (encoder_output_buffers l) = Some bytes ->
    bytes / sizeof_float <> 0.
Proof.
  unfold PerformWarmup.
  repeat break_match; intros Heq; inversion Heq; subst.
  all: cbn [encoder_output_buffers decoder_output_buffers encoder_hidden_states
            decoder_logits set_encoder_input_buffers
            set_encoder_output_buffers set_decoder_input_buffers
            set_decoder_output_buffers] in *.
  all: repeat match goal with
         | Hr : Run _ _ _ = Some _ |- _ => apply Run_Size0 in Hr
         end.
  all: repeat split; try congruence.
  all: intros bytes Hb.
  all: match goal with
       | Hz : (_ =? 0) = false |- _ => apply Z.eqb_neq in Hz
       end; congruence.
Qed.

Lemma Initialize_vectors w p (e : OcrInference T) a b c p' e' :
  Initialize w p e a b c = (true, p', e') ->
  length (attention_mask_ e') = 300%nat /\
  length (embeddings_input_ e') = (300 * 768)%nat /\
  embeddings_data_ e' = asset_floats c.
Proof.
  unfold Initialize.
  repeat break_match; intros Heq; subst;
    try (pose proof (caught_holds_nothing p (own_assets a b c e)) as [Hc _];
         rewrite Heq in Hc; discriminate);
    try match type of Heq with
        | caught ?p ?e = _ =>
            pose proof (caught_holds_nothing p e) as [Hc _];
            rewrite Heq in Hc; discriminate
        end;
    inversion Heq; subst; clear Heq.
  all: cbn [attention_mask_ embeddings_input_ embeddings_data_
            make_ready set_litert with_objects set_output_sizes own_assets].
  all: rewrite !length_resize.
  all: split; [reflexivity|].
  all: split; [unfold MAX_SEQUENCE_LENGTH, HIDDEN_SIZE; lia | reflexivity].
Qed.

(** After a successful [Initialize]: the attention mask has 300 floats
    and the embeddings input 300 rows of 768; the engine owns the three
    assets and reads its embeddings from the third; the two scratch
    vectors have the sizes of the first output buffers, in floats, and
    the encoder's is not empty. *)
Theorem Initialize_sizes w p (e : OcrInference T) a b c p' e' :
  Initialize w p e a b c = (true, p', e') ->
  length (attention_mask_ e') = 300%nat /\
  length (embeddings_input_ e') = (300 * 768)%nat /\
  encoder_asset_ e' = Some a /\ decoder_asset_ e' = Some b /\
  embeddings_asset_ e' = Some c /\
  embeddings_data_ e' = asset_floats c /\
  embedding_count_ e' = asset_length c / sizeof_float /\
  exists l enc_bytes dec_bytes,
    litert_ e' = Some l /\
    Size0 (encoder_output_buffers l) = Some enc_bytes /\
    Size0 (decoder_output_buffers l) = Some dec_bytes /\
    encoder_output_size_ e' = enc_bytes / sizeof_float /\
    decoder_output_size_ e' = dec_bytes / sizeof_float /\
    length (encoder_hidden_states l) = Z.to_nat (encoder_output_size_ e') /\
    length (decoder_logits l) = Z.to_nat (decoder_output_size_ e') /\
    encoder_output_size_ e' <> 0.
Proof.
  unfold Initialize.
  repeat break_match; intros Heq; subst;
    try (pose proof (caught_holds_nothing p (own_assets a b c e)) as [Hc _];
         rewrite Heq in Hc; discriminate);
    try match type of Heq with
        | caught ?p ?e = _ =>
            pose proof (caught_holds_nothing p e) as [Hc _];
            rewrite Heq in Hc; discriminate
        end;
    inversion Heq; subst; clear Heq.
  all: cbn [litert_ attention_mask_ embeddings_input_ encoder_asset_ decoder_asset_
            embeddings_asset_ embeddings_data_ embedding_count_
            encoder_output_size_ decoder_output_size_
            make_ready set_litert with_objects set_output_sizes own_assets].
  all: rewrite !length_resize.
  all: split; [reflexivity|]. 
  all: split; [unfold MAX_SEQUENCE_LENGTH, HIDDEN_SIZE; lia|].
  all: do 5 (split; [reflexivity|]).
  all: match goal with
       | Hb : CreateBuffers _ _ _ = _, Hw : PerformWarmup _ _ = _ |- _ =>
           apply CreateBuffers_sizes in Hb
             as (Hh & Hl & enc_bytes & dec_bytes & He & Ha & Hd & Hb);
           apply PerformWarmup_keeps in Hw as (Hh' & Hl' & He' & Hd' & Hnz)
       end.
  all: eexists _, enc_bytes, dec_bytes; split; [reflexivity|].
  all: repeat split; try congruence.
  all: subst; now apply Hnz.
Qed.

(** ** What [Close] releases *)

Lemma destroy_objects_released (l : LiteRtObjects T) :
  destroy_objects (released l) = destroy_env (cpu_env l).
Proof. reflexivity. Qed.

Ltac perm_solve :=
  rewrite <- ?app_assoc;
  repeat match goal with
         | |- ?a ≡ₚ ?a => reflexivity
         | |- ?a ++ _ ≡ₚ ?a ++ _ => apply Permutation_app_head
         | |- _ ++ _ ≡ₚ _ ++ _ =>
             etransitivity; [|apply Permutation_app_comm]; rewrite <- ?app_assoc
         end.

(** [Close] releases each thing the engine holds exactly once: the
    destructor and [AAsset_close] calls it makes are, in some order, those
    of the buffers, the models, the CPU environment and the three
    assets held, and the wait for the GPU when it was in use. *)
Theorem Close_releases_each_once p (e : OcrInference T) :
  exists evs,
    calls (fst (Close p e)) = calls p ++ evs /\
    evs ≡ₚ gpu_drain e ++ holdings e.
Proof.
  unfold Close, holdings, gpu_drain. cbn [fst].
  destruct (litert_ e) as [l|].
  - exists (release_objects l
             ++ (if using_gpu l then [Slept100ms] else [])
             ++ destroy_objects (released l)
             ++ close_asset (encoder_asset_ e) ++ close_asset (decoder_asset_ e)
             ++ close_asset (embeddings_asset_ e)).
    split.
    + cbn [using_gpu released]. destruct (using_gpu l); cbn [emit calls];
        rewrite <- ?app_assoc; reflexivity.
    + rewrite destroy_objects_released. unfold release_objects, destroy_objects.
      generalize (if using_gpu l then [Slept100ms] else []).
      generalize (destroy_buffers (encoder_input_buffers l))
                 (destroy_buffers (encoder_output_buffers l))
                 (destroy_buffers (decoder_input_buffers l))
                 (destroy_buffers (decoder_output_buffers l))
                 (destroy_model (compiled_encoder l))
                 (destroy_model (compiled_decoder l))
                 (destroy_env (cpu_env l))
                 (close_asset (encoder_asset_ e))
                 (close_asset (decoder_asset_ e))
                 (close_asset (embeddings_asset_ e)).
      intros ei eo di do_ me md ce a1 a2 a3 sl.
      perm_solve.
  - exists (close_asset (encoder_asset_ e) ++ close_asset (decoder_asset_ e)
             ++ close_asset (embeddings_asset_ e)).
    split; [cbn [emit calls]; rewrite <- ?app_assoc; reflexivity|].
    reflexivity.
Qed.

(** ** The token selected *)

Lemma max_logit_loop_later (data : list T) base n :
  forall vocab_idx max_token,
    max_token < vocab_idx ->
    (forall i, max_token < i < vocab_idx ->
       fgt (read_at data base i) (read_at data base max_token) = false) ->
    let m := max_logit_loop data base n vocab_idx (read_at data base max_token)
               max_token in
    forall i, m < i < vocab_idx + Z.of_nat n ->
      fgt (read_at data base i) (read_at data base m) = false.
Proof.
  induction n as [|n IH]; intros vocab_idx max_token Hlt Hlater; cbn zeta;
    cbn [max_logit_loop].
  - intros i Hi. apply Hlater. lia.
  - destruct (fgt (read_at data base vocab_idx) (read_at data base max_token)) eqn:Hgt.
    + intros i Hi. apply (IH (vocab_idx + 1) vocab_idx); [lia|intros; lia|lia].
    + intros i Hi. apply (IH (vocab_idx + 1) max_token); [lia| |lia].
      intros k Hk. destruct (Z.eq_dec k vocab_idx) as [->|Hne]; [assumption|].
      apply Hlater. lia.
Qed.

(** No logit of the row after the one selected is greater than it,
    whatever the floats are (NaN included). *)
Theorem FindMaxLogitToken_no_later_greater (decoder_logits : list T) seq_len :
  let m := FindMaxLogitToken decoder_logits seq_len in
  let row i := read_at decoder_logits ((seq_len - 1) * VOCAB_SIZE) i in
  0 <= m < VOCAB_SIZE /\
  forall i, m < i < VOCAB_SIZE -> fgt (row i) (row m) = false.
Proof.
  cbn zeta. split; [apply FindMaxLogitToken_range|].
  intros i Hi. unfold FindMaxLogitToken in *.
  apply (max_logit_loop_later decoder_logits ((seq_len - 1) * VOCAB_SIZE)
           (Z.to_nat (VOCAB_SIZE - 1)) 1 0); [lia | intros; lia |].
  unfold VOCAB_SIZE in *. lia.
Qed.

Lemma max_logit_loop_earlier (data : list T) base n :
  forall vocab_idx max_token,
    let row := read_at data base in
    (forall i j, 0 <= i < vocab_idx + Z.of_nat n -> 0 <= j < vocab_idx + Z.of_nat n ->
       fgt (row i) (row j) = true -> fgt (row j) (row i) = false) ->
    (forall i j k, 0 <= i < vocab_idx + Z.of_nat n ->
       0 <= j < vocab_idx + Z.of_nat n -> 0 <= k < vocab_idx + Z.of_nat n ->
       fgt (row i) (row j) = true -> fgt (row k) (row j) = false ->
       fgt (row i) (row k) = true) ->
    0 <= max_token < vocab_idx ->
    (forall i, max_token < i < vocab_idx -> fgt (row i) (row max_token) = false) ->
    (forall i, 0 <= i < max_token -> fgt (row max_token) (row i) = true) ->
    let m := max_logit_loop data base n vocab_idx (row max_token) max_token in
    forall i, 0 <= i < m -> fgt (row m) (row i) = true.
Proof.
  induction n as [|n IH]; intros vocab_idx max_token row Hasym Hneg Hmt Hlater Hearlier;
    cbn zeta; cbn [max_logit_loop].
  - assumption.
  - fold row.
    destruct (fgt (row vocab_idx) (row max_token)) eqn:Hgt.
    + apply (IH (vocab_idx + 1) vocab_idx).
      * intros i j Hi Hj. apply Hasym; lia.
      * intros i j k Hi Hj Hk. apply Hneg; lia.
      * lia.
      * intros; lia.
      * intros i Hi.
        destruct (Z.eq_dec i max_token) as [->|Hne]; [assumption|].
        apply (Hneg vocab_idx max_token i); [lia | lia | lia | assumption |].
        destruct (Z_lt_le_dec i max_token).
        -- apply Hasym; [lia | lia |]. apply Hearlier. lia.
        -- apply Hlater. lia.
    + apply (IH (vocab_idx + 1) max_token).
      * intros i j Hi Hj. apply Hasym; lia.
      * intros i j k Hi Hj Hk. apply Hneg; lia.
      * lia.
      * intros i Hi. destruct (Z.eq_dec i vocab_idx) as [->|Hne]; [assumption|].
        apply Hlater. lia.
      * assumption.
Qed.

Lemma FindMaxLogitToken_earlier (decoder_logits : list T) seq_len :
  let row i := read_at decoder_logits ((seq_len - 1) * VOCAB_SIZE) i in
  (forall i j, 0 <= i < VOCAB_SIZE -> 0 <= j < VOCAB_SIZE ->
     fgt (row i) (row j) = true -> fgt (row j) (row i) = false) ->
  (forall i j k, 0 <= i < VOCAB_SIZE -> 0 <= j < VOCAB_SIZE -> 0 <= k < VOCAB_SIZE ->
     fgt (row i) (row j) = true -> fgt (row k) (row j) = false ->
     fgt (row i) (row k) = true) ->
  forall i, 0 <= i < FindMaxLogitToken decoder_logits seq_len ->
    fgt (row (FindMaxLogitToken decoder_logits seq_len)) (row i) = true.
Proof.
  cbn zeta. intros Hasym Hneg. unfold FindMaxLogitToken.
  apply (max_logit_loop_earlier decoder_logits ((seq_len - 1) * VOCAB_SIZE)
           (Z.to_nat (VOCAB_SIZE - 1)) 1 0).
  - intros i j Hi Hj. apply Hasym; unfold VOCAB_SIZE in *; lia.
  - intros i j k Hi Hj Hk. apply Hneg; unfold VOCAB_SIZE in *; lia.
  - lia.
  - intros; lia.
  - intros; lia.
Qed.

Lemma FindMaxLogitToken_later (decoder_logits : list T) seq_len :
  let row i := read_at decoder_logits ((seq_len - 1) * VOCAB_SIZE) i in
  forall i, FindMaxLogitToken decoder_logits seq_len < i < VOCAB_SIZE ->
    fgt (row i) (row (FindMaxLogitToken decoder_logits seq_len)) = false.
Proof.
  cbn zeta. intros i Hi. unfold FindMaxLogitToken in *.
  apply (max_logit_loop_later decoder_logits ((seq_len - 1) * VOCAB_SIZE)
           (Z.to_nat (VOCAB_SIZE - 1)) 1 0); [lia | intros; lia |].
  unfold VOCAB_SIZE in *. lia.
Qed.

(** A row with one logit [y] at [c] above all the others, which are
    [x]: [c] is selected. *)
Lemma FindMaxLogitToken_spike (decoder_logits : list T) seq_len c x y :
  0 <= c < VOCAB_SIZE ->
  (forall i, 0 <= i < VOCAB_SIZE ->
     read_at decoder_logits ((seq_len - 1) * VOCAB_SIZE) i = if i =? c then y else x) ->
  fgt y x = true -> fgt x y = false -> fgt x x = false -> fgt y y = false ->
  FindMaxLogitToken decoder_logits seq_len = c.
Proof.
  intros Hc Hrow Hyx Hxy Hxx Hyy.
  pose proof (FindMaxLogitToken_range decoder_logits seq_len) as Hm.
  pose proof (FindMaxLogitToken_later decoder_logits seq_len) as Hlater.
  pose proof (FindMaxLogitToken_earlier decoder_logits seq_len) as Hearlier.
  cbn beta zeta in Hlater, Hearlier.
  set (m := FindMaxLogitToken decoder_logits seq_len) in *.
  destruct (Z.lt_trichotomy m c) as [Hlt|[Heq|Hgt]]; [|assumption|]; exfalso.
  - specialize (Hlater c ltac:(lia)).
    rewrite (Hrow c), (Hrow m), Z.eqb_refl in Hlater by lia.
    replace (m =? c) with false in Hlater by (symmetry; apply Z.eqb_neq; lia).
    congruence.
  - assert (fgt (read_at decoder_logits ((seq_len - 1) * VOCAB_SIZE) m)
              (read_at decoder_logits ((seq_len - 1) * VOCAB_SIZE) c) = true) as Hbad.
    { apply Hearlier; [| |lia].
      - intros i j Hi Hj. rewrite (Hrow i), (Hrow j) by lia.
        destruct (i =? c), (j =? c); congruence.
      - intros i j k Hi Hj Hk. rewrite (Hrow i), (Hrow j), (Hrow k) by lia.
        destruct (i =? c), (j =? c), (k =? c); congruence. }
    rewrite (Hrow c), (Hrow m), Z.eqb_refl in Hbad by lia.
    replace (m =? c) with false in Hbad by (symmetry; apply Z.eqb_neq; lia).
    congruence.
Qed.

(** On a logits vector that holds [seq_len] rows whose floats [>]
    orders as a strict weak order (so: no NaN among them), the token
    selected is the first maximum of the last row: it is greater than
    every logit before it, and no logit after it is greater. *)
Theorem FindMaxLogitToken_first_maximum (decoder_logits : list T) seq_len :
  1 <= seq_len ->
  (Z.to_nat (seq_len * VOCAB_SIZE) <= length decoder_logits)%nat ->
  let row i := read_at decoder_logits ((seq_len - 1) * VOCAB_SIZE) i in
  (forall i j, 0 <= i < VOCAB_SIZE -> 0 <= j < VOCAB_SIZE ->
     fgt (row i) (row j) = true -> fgt (row j) (row i) = false) ->
  (forall i j k, 0 <= i < VOCAB_SIZE -> 0 <= j < VOCAB_SIZE -> 0 <= k < VOCAB_SIZE ->
     fgt (row i) (row j) = true -> fgt (row k) (row j) = false ->
     fgt (row i) (row k) = true) ->
  let m := FindMaxLogitToken decoder_logits seq_len in
  0 <= m < VOCAB_SIZE /\
  (forall i, 0 <= i < m -> fgt (row m) (row i) = true) /\
  (forall i, m < i < VOCAB_SIZE -> fgt (row i) (row m) = false).
Proof.
  intros _ _. cbn zeta. intros Hasym Hneg.
  split; [apply FindMaxLogitToken_range|]. split.
  - now apply FindMaxLogitToken_earlier.
  - intros i Hi. unfold FindMaxLogitToken in *.
    apply (max_logit_loop_later decoder_logits ((seq_len - 1) * VOCAB_SIZE)
             (Z.to_nat (VOCAB_SIZE - 1)) 1 0); [lia | intros; lia |].
    unfold VOCAB_SIZE in *. lia.
Qed.

(** ** The assets closed *)

Lemma asset_closes_app evs evs' :
  asset_closes (evs ++ evs') = asset_closes evs ++ asset_closes evs'.
Proof. apply flat_map_app. Qed.

Lemma asset_closes_destroy_buffers (bufs : list (TensorBuffer T)) :
  asset_closes (destroy_buffers bufs) = [].
Proof. induction bufs as [|b bufs IH]; [reflexivity | exact IH]. Qed.

Lemma asset_closes_destroy_model (m : option (CompiledModel T)) :
  asset_closes (destroy_model m) = [].
Proof. now destruct m. Qed.

Lemma asset_closes_destroy_env v : asset_closes (destroy_env v) = [].
Proof. now destruct v. Qed.

Lemma asset_closes_destroy_objects (l : LiteRtObjects T) :
  asset_closes (destroy_objects l) = [].
Proof.
  unfold destroy_objects.
  now rewrite !asset_closes_app, !asset_closes_destroy_buffers,
    !asset_closes_destroy_model, asset_closes_destroy_env.
Qed.

Lemma asset_closes_release_objects (l : LiteRtObjects T) :
  asset_closes (release_objects l) = [].
Proof.
  unfold release_objects.
  now rewrite !asset_closes_app, !asset_closes_destroy_buffers,
    !asset_closes_destroy_model.
Qed.

Lemma asset_closes_emit evs p :
  asset_closes (calls (emit evs p)) = asset_closes (calls p) ++ asset_closes evs.
Proof. unfold emit. cbn [calls]. apply asset_closes_app. Qed.

Lemma Close_asset_closes p (e : OcrInference T) :
  asset_closes (calls (fst (Close p e))) = asset_closes (calls p) ++ held_assets e /\
  held_assets (snd (Close p e)) = [].
Proof.
  split; [|reflexivity].
  unfold Close, held_assets. cbn [fst].
  rewrite !asset_closes_emit, !asset_closes_app, <- !app_assoc. f_equal.
  destruct (litert_ e) as [l|]; [|reflexivity].
  destruct (using_gpu (released l));
    rewrite !asset_closes_emit, asset_closes_destroy_objects,
      asset_closes_release_objects, ?app_nil_r; reflexivity.
Qed.

Lemma TryCompileWithGpu_asset_closes w p (l : LiteRtObjects T) :
  asset_closes (calls (snd (fst (TryCompileWithGpu w p l)))) = asset_closes (calls p).
Proof.
  unfold TryCompileWithGpu.
  repeat break_match; cbn [fst snd]; try reflexivity.
  all: now rewrite asset_closes_emit, asset_closes_app, !asset_closes_destroy_model,
         app_nil_r.
Qed.

Lemma gpu_attempt_asset_closes w p (l : LiteRtObjects T) a b :
  asset_closes (calls (snd (fst (gpu_attempt w p l a b)))) = asset_closes (calls p).
Proof.
  unfold gpu_attempt.
  pose proof (TryCompileWithGpu_asset_closes w p l) as Hgpu.
  destruct (TryCompileWithGpu w p l) as [[[[]|] p'] l']; cbn [fst snd] in *;
    try assumption.
  rewrite asset_closes_emit, Hgpu. apply app_nil_r.
Qed.

Lemma TryCompileWithCpu_asset_closes w p (l : LiteRtObjects T) :
  asset_closes (calls (snd (fst (TryCompileWithCpu w p l)))) = asset_closes (calls p).
Proof.
  unfold TryCompileWithCpu, ensure_cpu_env.
  repeat break_match; cbn [fst snd];
    repeat match goal with
           | Heq : (_, _) = (_, _) |- _ => inversion Heq; subst; clear Heq
           end;
    rewrite ?asset_closes_emit, ?asset_closes_app, ?asset_closes_destroy_model,
      ?app_nil_r; reflexivity.
Qed.

Lemma acquire_shared_env_asset_closes w p :
  asset_closes (calls (fst (acquire_shared_env (T:=T) w p))) = asset_closes (calls p).
Proof.
  unfold acquire_shared_env.
  repeat break_match; cbn [fst calls]; rewrite ?asset_closes_emit;
    try reflexivity; apply app_nil_r.
Qed.

Lemma caught_asset_closes p (e : OcrInference T) :
  asset_closes (calls (snd (fst (caught p e)))) = asset_closes (calls p) ++ held_assets e /\
  held_assets (snd (caught p e)) = [].
Proof.
  unfold caught. pose proof (Close_asset_closes p e) as Hc.
  destruct (Close p e). exact Hc.
Qed.

(** Collects what is known of the assets closed in the processes named
    in the equations of the context. *)
Ltac closes_facts :=
  repeat match goal with
    | Heq : gpu_attempt ?w ?p ?l ?a ?b = (_, ?p', _) |- _ =>
        lazymatch goal with
        | _ : asset_closes (calls p') = asset_closes (calls p) |- _ => fail
        | _ => let Hs := fresh "Hs" in
               pose proof (gpu_attempt_asset_closes w p l a b) as Hs;
               rewrite Heq in Hs; cbn [fst snd] in Hs
        end
    | Heq : TryCompileWithCpu ?w ?p ?l = (_, ?p', _) |- _ =>
        lazymatch goal with
        | _ : asset_closes (calls p') = asset_closes (calls p) |- _ => fail
        | _ => let Hs := fresh "Hs" in
               pose proof (TryCompileWithCpu_asset_closes w p l) as Hs;
               rewrite Heq in Hs; cbn [fst snd] in Hs
        end
    | Heq : acquire_shared_env ?w ?p = (?p', _) |- _ =>
        lazymatch goal with
        | _ : asset_closes (calls p') = asset_closes (calls p) |- _ => fail
        | _ => let Hs := fresh "Hs" in
               pose proof (acquire_shared_env_asset_closes w p) as Hs;
               rewrite Heq in Hs; cbn [fst snd] in Hs
        end
    end.

(** The assets given to [Initialize] are, after it, either closed or
    held by the engine, each one once. *)
Lemma Initialize_asset_balance w p (e : OcrInference T) a b c :
  initialized_ e = false ->
  let r := Initialize w p e a b c in
  asset_closes (calls (snd (fst r))) ++ held_assets (snd r)
  = asset_closes (calls p) ++ [asset_id a; asset_id b; asset_id c].
Proof.
  intros Hinit. cbn zeta. unfold Initialize. rewrite Hinit.
  repeat break_match; subst; closes_facts.
  all: repeat match goal with
         | |- context [caught ?p ?e] =>
             let Hc := fresh "Hc" in let Hh := fresh "Hh" in
             destruct (caught_asset_closes p e) as [Hc Hh];
             rewrite Hc, Hh; clear Hc Hh
         end.
  all: cbn [fst snd].
  all: unfold held_assets;
    cbn [encoder_asset_ decoder_asset_ embeddings_asset_ make_ready set_litert
         with_objects set_output_sizes own_assets close_asset].
  all: rewrite ?app_nil_r.
  all: repeat match goal with
         | Hs : asset_closes (calls _) = asset_closes (calls _) |- _ =>
             rewrite Hs; clear Hs
         end.
  all: rewrite ?asset_closes_emit.
  all: try match goal with
       | |- context [match ?x with Some _ => _ | None => _ end] => destruct x
       end.
  all: rewrite ?asset_closes_destroy_objects, ?app_nil_r; reflexivity.
Qed.

(** The engine that [Initialize] puts in service owns the three assets,
    and none was closed on the way. *)
Lemma Initialize_owns_assets w p (e : OcrInference T) a b c p' e' :
  Initialize w p e a b c = (true, p', e') ->
  held_assets e' = [asset_id a; asset_id b; asset_id c] /\
  asset_closes (calls p') = asset_closes (calls p).
Proof.
  intros Hi.
  assert (held_assets e' = [asset_id a; asset_id b; asset_id c]) as Hheld.
  { revert Hi. unfold Initialize.
    repeat break_match; intros Heq; subst;
      try (pose proof (caught_holds_nothing p (own_assets a b c e)) as [Hc _];
           rewrite Heq in Hc; discriminate);
      try match type of Heq with
          | caught ?p ?e = _ =>
              pose proof (caught_holds_nothing p e) as [Hc _];
              rewrite Heq in Hc; discriminate
          end;
      inversion Heq; subst; clear Heq.
    all: unfold held_assets;
      cbn [encoder_asset_ decoder_asset_ embeddings_asset_ make_ready set_litert
           with_objects set_output_sizes own_assets close_asset];
      reflexivity. }
  split; [exact Hheld|].
  assert (initialized_ e = false) as Hinit.
  { revert Hi. unfold Initialize. destruct (initialized_ e); [discriminate|reflexivity]. }
  pose proof (Initialize_asset_balance w p e a b c Hinit) as Hbalance.
  cbn zeta in Hbalance. rewrite Hi in Hbalance. cbn [fst snd] in Hbalance.
  rewrite Hheld in Hbalance. now apply app_inv_tail in Hbalance.
Qed.

(** Whatever [Initialize] returns on a new engine, the destructor of the
    engine, or [Close], then closes each of the three assets once: after
    it the assets closed since before [Initialize] are the encoder's,
    the decoder's and the embeddings', and the engine holds none. *)
Theorem Initialize_then_Close_closes_assets w p (e : OcrInference T) a b c :
  initialized_ e = false ->
  let r := Initialize w p e a b c in
  let r' := Close (snd (fst r)) (snd r) in
  asset_closes (calls (fst r'))
  = asset_closes (calls p) ++ [asset_id a; asset_id b; asset_id c] /\
  held_assets (snd r') = [].
Proof.
  intros Hinit. cbn zeta.
  destruct (Close_asset_closes (snd (fst (Initialize w p e a b c)))
              (snd (Initialize w p e a b c))) as [-> Hheld].
  split; [|exact Hheld].
  now apply Initialize_asset_balance.
Qed.

(** ** The models of an initialized engine *)

Lemma CreateBuffers_models (l : LiteRtObjects T) a b ok l' a' b' :
  CreateBuffers l a b = (ok, l', a', b') ->
  cpu_env l' = cpu_env l /\ compiled_encoder l' = compiled_encoder l /\
  compiled_decoder l' = compiled_decoder l.
Proof.
  unfold CreateBuffers.
  repeat break_match; intros Heq; inversion Heq; subst;
    cbn [cpu_env compiled_encoder compiled_decoder set_encoder_input_buffers
         set_encoder_output_buffers set_decoder_input_buffers
         set_decoder_output_buffers set_encoder_hidden_states set_decoder_logits];
    auto.
Qed.

Lemma PerformWarmup_models (B : Backend T) (l : LiteRtObjects T) ok l' :
  PerformWarmup B l = (ok, l') ->
  cpu_env l' = cpu_env l /\ compiled_encoder l' = compiled_encoder l /\
  compiled_decoder l' = compiled_decoder l.
Proof.
  unfold PerformWarmup.
  repeat break_match; intros Heq; inversion Heq; subst;
    cbn [cpu_env compiled_encoder compiled_decoder set_encoder_input_buffers
         set_encoder_output_buffers set_decoder_input_buffers
         set_decoder_output_buffers];
    auto.
Qed.

Lemma TryCompileWithGpu_false w p (l : LiteRtObjects T) p' l' :
  TryCompileWithGpu w p l = (Returned false, p', l') -> l' = l.
Proof.
  unfold TryCompileWithGpu.
  repeat break_match; intros Heq; inversion Heq; subst; reflexivity.
Qed.

Lemma gpu_attempt_false w p (l : LiteRtObjects T) a b p' l' :
  gpu_attempt w p l a b = (Returned false, p', l') -> l' = l.
Proof.
  unfold gpu_attempt.
  destruct (TryCompileWithGpu w p l) as [[[[]|] p0] l0] eqn:Hgpu;
    intros Heq; inversion Heq; subst.
  eapply TryCompileWithGpu_false; eassumption.
Qed.

Lemma TryCompileWithCpu_models w p (l : LiteRtObjects T) p' l' :
  TryCompileWithCpu w p l = (true, p', l') ->
  cpu_env l = None ->
  let threads (options : bool) :=
    if options then Some (GetOptimalThreadCount (hardware_concurrency w)) else None in
  exists enc dec,
    compiled_encoder l' = Some enc /\ compiled_decoder l' = Some dec /\
    cpu_env l' = cpu_env_result w /\ cpu_env l' <> None /\
    cpu_encoder_result w (threads (cpu_encoder_cpu_options w)) = Some enc /\
    cpu_decoder_result w (threads (cpu_decoder_cpu_options w)) = Some dec.
Proof.
  unfold TryCompileWithCpu, ensure_cpu_env. intros Heq Hnone. cbn zeta.
  revert Heq. rewrite Hnone.
  destruct (cpu_env_result w) as [v|]; [|discriminate].
  repeat break_match; intros Heq; inversion Heq; subst.
  all: eexists _, _;
    cbn [compiled_encoder compiled_decoder cpu_env with_models set_cpu_env];
    repeat split; try eassumption; discriminate.
Qed.

(** The engine that [Initialize] puts in service holds the two models
    of one backend.  On the GPU: OpenCL is there, the models are those
    compiled for the GPU, and no CPU environment was created.  On the
    CPU: the models are those compiled in the CPU environment created
    for this engine, with the thread count of [GetOptimalThreadCount]
    where the CPU options could be set.  Both queries of the backend
    answer the same. *)
Theorem Initialize_models w p (e : OcrInference T) a b c p' e' :
  Initialize w p e a b c = (true, p', e') ->
  let threads (options : bool) :=
    if options then Some (GetOptimalThreadCount (hardware_concurrency w)) else None in
  exists l enc dec,
    litert_ e' = Some l /\
    compiled_encoder l = Some enc /\ compiled_decoder l = Some dec /\
    IsEncoderUsingGpu e' = using_gpu l /\ IsDecoderUsingGpu e' = using_gpu l /\
    if using_gpu l
    then opencl_lib w = true /\ cpu_env l = None /\
         gpu_encoder_result w = Some enc /\ gpu_decoder_result w = Some dec
    else cpu_env l = cpu_env_result w /\ cpu_env l <> None /\
         cpu_encoder_result w (threads (cpu_encoder_cpu_options w)) = Some enc /\
         cpu_decoder_result w (threads (cpu_decoder_cpu_options w)) = Some dec.
Proof.
  unfold Initialize.
  repeat break_match; intros Heq; subst;
    try (pose proof (caught_holds_nothing p (own_assets a b c e)) as [Hc _];
         rewrite Heq in Hc; discriminate);
    try match type of Heq with
        | caught ?p ?e = _ =>
            pose proof (caught_holds_nothing p e) as [Hc _];
            rewrite Heq in Hc; discriminate
        end;
    inversion Heq; subst; clear Heq.
  all: cbn zeta.
  all: unfold IsEncoderUsingGpu, IsDecoderUsingGpu.
  all: cbn [litert_ make_ready set_litert with_objects].
  all: match goal with
       | Hb : CreateBuffers _ _ _ = _, Hw : PerformWarmup _ _ = _ |- _ =>
           pose proof (CreateBuffers_models _ _ _ _ _ _ _ Hb) as (Hb1 & Hb2 & Hb3);
           pose proof (PerformWarmup_models _ _ _ _ Hw) as (Hw1 & Hw2 & Hw3);
           apply CreateBuffers_flags in Hb as (Hb4 & Hb5 & Hb6);
           apply PerformWarmup_flags in Hw as (Hw4 & Hw5 & Hw6)
       end.
  all: cbn [cpu_env compiled_encoder compiled_decoder using_gpu encoder_using_gpu
            decoder_using_gpu set_using_gpu] in *.
  all: repeat match goal with
         | Hn : negb ?x = true |- _ => destruct x; [discriminate|]; clear Hn
         | Hn : negb ?x = false |- _ => destruct x; [|discriminate]; clear Hn
         | Hp : (_, _) = (_, _) |- _ => inversion Hp; subst; clear Hp
         end.
  all: repeat match goal with
         | Hg : gpu_attempt _ _ _ _ _ = (Returned false, _, _) |- _ =>
             apply gpu_attempt_false in Hg; subst
         | Hg : gpu_attempt _ _ _ _ _ = (Returned true, _, _) |- _ =>
             apply gpu_attempt_true in Hg as (enc & dec & Hge & Hgd & _ & _ & ->)
         end.
  all: try match goal with
       | Hc : TryCompileWithCpu _ _ _ = (true, _, _) |- _ =>
           pose proof (TryCompileWithCpu_models _ _ _ _ _ Hc eq_refl)
             as (enc & dec & Hce & Hcd & Hcv & Hcn & Hre & Hrd);
           apply TryCompileWithCpu_true in Hc as (Hf1 & Hf2 & Hf3)
       end.
  all: cbn [cpu_env compiled_encoder compiled_decoder using_gpu encoder_using_gpu
            decoder_using_gpu with_models fresh_objects] in *.
  all: repeat match goal with
         | Hb : ?x = _, Hr : context [if ?x then _ else _] |- _ => rewrite Hb in Hr
         | Hf : ?x = false, Hu : context [?x && _] |- _ => rewrite Hf in Hu
         | Hf : ?x = false, Hu : context [_ && ?x] |- _ => rewrite Hf in Hu
         end.
  all: cbn [andb] in *.
  all: eexists _, enc, dec.
  all: split; [reflexivity|].
  all: split; [congruence|]. all: split; [congruence|].
  all: split; [congruence|]. all: split; [congruence|].
  all: match goal with
       | |- context [if using_gpu ?l then _ else _] =>
           first [ replace (using_gpu l) with true by congruence
                 | replace (using_gpu l) with false by congruence ]
       end.
  all: repeat split; congruence.
Qed.

End Facts.

(** * The model assets and the plugin boundary *)

(** ** The pages released *)

Lemma wrap64_small x : 0 <= x < 2 ^ 64 -> wrap64 x = x.
Proof. intros Hx. unfold wrap64. now apply Z.mod_small. Qed.

Lemma page_base_aligned addr k :
  0 <= addr < 2 ^ 64 -> 0 <= k < 64 ->
  page_base addr (2 ^ k) = addr - addr mod 2 ^ k.
Proof.
  intros Haddr Hk. unfold page_base.
  assert (0 < 2 ^ k <= 2 ^ 63) as Hp.
  { split; [apply Z.pow_pos_nonneg; lia|]. apply Z.pow_le_mono_r; lia. }
  rewrite (wrap64_small (2 ^ k - 1)) by lia.
  replace (2 ^ k - 1) with (Z.ones k) by (rewrite Z.ones_equiv; lia).
  unfold wrap64. rewrite <- (Z.land_ones _ 64) by lia.
  rewrite Z.land_assoc, (Z.land_comm addr), <- Z.land_assoc.
  rewrite (Z.land_ones addr 64), (Z.mod_small addr) by lia.
  rewrite Z.land_comm, <- Z.ldiff_land, Z.ldiff_ones_r by lia.
  rewrite Z.shiftr_div_pow2, Z.shiftl_mul_pow2 by lia.
  pose proof (Z.div_mod addr (2 ^ k)). lia.
Qed.

(** For a page size that is a power of two and a buffer that lies in the
    address space, [ReleaseSystemPages] gives [madvise] the start of the
    page that holds the first byte of the buffer, and a length that ends
    at the end of the buffer. *)
Theorem ReleaseSystemPages_page_aligned addr size k :
  0 <= addr < 2 ^ 64 -> 0 <= size -> addr + size < 2 ^ 64 -> 0 <= k < 64 ->
  let page_size := 2 ^ k in
  let base := fst (ReleaseSystemPages addr size page_size) in
  let len := snd (ReleaseSystemPages addr size page_size) in
  base mod page_size = 0 /\
  base <= addr < base + page_size /\
  len = size + (addr - base) /\
  base + len = addr + size.
Proof.
  intros Haddr Hsize Hend Hk. cbn zeta. unfold ReleaseSystemPages, page_len. cbn [fst snd].
  rewrite page_base_aligned by assumption.
  assert (0 < 2 ^ k) as Hp by (apply Z.pow_pos_nonneg; lia).
  assert (2 ^ k <= 2 ^ 63) as Hq by (apply Z.pow_le_mono_r; lia).
  pose proof (Z.mod_pos_bound addr (2 ^ k) Hp) as Hm.
  pose proof (Z.div_mod addr (2 ^ k)) as Hd.
  pose proof (Z.mod_le addr (2 ^ k)) as Hle.
  rewrite (wrap64_small (addr - _)) by lia.
  rewrite wrap64_small by lia.
  repeat split; try lia.
  replace (addr - addr mod 2 ^ k) with (addr / 2 ^ k * 2 ^ k) by lia.
  apply Z.mod_mul. lia.
Qed.

(** ** The pixels *)

(** The three channels are bytes, and together they are the low 24 bits
    of the pixel, red highest: the top byte of the pixel is not used. *)
Theorem channels_of_pixel pixel :
  0 <= channel_r pixel <= 255 /\ 0 <= channel_g pixel <= 255 /\
  0 <= channel_b pixel <= 255 /\
  pixel mod 2 ^ 24 = channel_r pixel * 65536 + channel_g pixel * 256 + channel_b pixel.
Proof.
  unfold channel_r, channel_g, channel_b.
  change 255 with (Z.ones 8). rewrite !Z.land_ones, !Z.shiftr_div_pow2 by lia.
  change (2 ^ 8) with 256. change (2 ^ 16) with 65536. change (2 ^ 24) with 16777216.
  change (Z.ones 8) with 255.
  Z.to_euclidean_division_equations. lia.
Qed.

Section NativeFacts.
Context {T : Type} `{FloatOps T}.
Variable normalize : Z -> T.
Variable getVocabulary : list String.string.
Variable postprocess : String.string -> String.string.

Lemma preprocess_loop_spec (srcPixels : list Z) n :
  forall i (output : list T),
    0 <= i ->
    let out := preprocess_loop normalize srcPixels n i (3 * i) output in
    length out = length output /\
    (forall pos, (pos < Z.to_nat (3 * i) \/ Z.to_nat (3 * (i + Z.of_nat n)) <= pos)%nat ->
       out !! pos = output !! pos) /\
    (forall q, i <= q < i + Z.of_nat n ->
       (Z.to_nat (3 * q + 2) < length output)%nat ->
       let pixel := nth (Z.to_nat q) srcPixels 0 in
       out !! Z.to_nat (3 * q) = Some (normalize (channel_r pixel)) /\
       out !! Z.to_nat (3 * q + 1) = Some (normalize (channel_g pixel)) /\
       out !! Z.to_nat (3 * q + 2) = Some (normalize (channel_b pixel))).
Proof.
  induction n as [|n IH]; intros i output Hi; cbn zeta; cbn [preprocess_loop].
  - split; [reflexivity|]. split; [reflexivity|]. intros q Hq. lia.
  - replace (3 * i + 1 + 1 + 1) with (3 * (i + 1)) by lia.
    set (pixel := nth (Z.to_nat i) srcPixels 0).
    set (out1 := <[Z.to_nat (3 * i + 1 + 1) := normalize (channel_b pixel)]>
                   (<[Z.to_nat (3 * i + 1) := normalize (channel_g pixel)]>
                      (<[Z.to_nat (3 * i) := normalize (channel_r pixel)]> output))).
    assert (length out1 = length output) as Hlen1
      by (subst out1; now rewrite !length_insert).
    destruct (IH (i + 1) out1) as (Hlen & Hframe & Hvalues); [lia|].
    cbn zeta in Hvalues.
    split; [congruence|]. split.
    + intros pos Hpos. rewrite Hframe by lia. subst out1.
      rewrite !list_lookup_insert_ne by lia. reflexivity.
    + intros q Hq Hroom.
      destruct (Z.eq_dec q i) as [->|Hne].
      * rewrite !Hframe by lia. subst out1. fold pixel.
        replace (3 * i + 1 + 1) with (3 * i + 2) by lia.
        split; [|split].
        -- rewrite !list_lookup_insert_ne by lia.
           apply list_lookup_insert_eq. lia.
        -- rewrite list_lookup_insert_ne by lia.
           apply list_lookup_insert_eq. rewrite length_insert. lia.
        -- apply list_lookup_insert_eq. rewrite !length_insert. lia.
      * apply Hvalues; [lia|]. rewrite Hlen1. assumption.
Qed.

(** [PreprocessBitmap] leaves the buffer as it is when the bitmap cannot
    be read.  Otherwise it writes, for each of the 224*224 pixels, the
    normalized red, green and blue channel at [3q], [3q+1] and [3q+2], and
    nothing else; the buffer keeps its size. *)
Theorem PreprocessBitmap_layout (bitmap : Bitmap) (output : list T) :
  length output = Z.to_nat (IMAGE_SIZE * IMAGE_SIZE * 3) ->
  let out := PreprocessBitmap normalize bitmap output in
  length out = length output /\
  (bitmap_info_ok bitmap = false \/ bitmap_lock_ok bitmap = false -> out = output) /\
  (bitmap_info_ok bitmap = true -> bitmap_lock_ok bitmap = true ->
   forall q pixel,
     0 <= q < IMAGE_SIZE * IMAGE_SIZE ->
     bitmap_pixels bitmap !! Z.to_nat q = Some pixel ->
     out !! Z.to_nat (3 * q) = Some (normalize (channel_r pixel)) /\
     out !! Z.to_nat (3 * q + 1) = Some (normalize (channel_g pixel)) /\
     out !! Z.to_nat (3 * q + 2) = Some (normalize (channel_b pixel))).
Proof.
  intros Hlen. cbn zeta. unfold PreprocessBitmap.
  destruct (bitmap_info_ok bitmap); cbn [negb];
    [|split; [reflexivity|]; split; [reflexivity | discriminate]].
  destruct (bitmap_lock_ok bitmap); cbn [negb];
    [|split; [reflexivity|]; split; [reflexivity | discriminate]].
  destruct (preprocess_loop_spec (bitmap_pixels bitmap)
              (Z.to_nat (IMAGE_SIZE * IMAGE_SIZE)) 0 output) as (Hl & _ & Hvalues);
    [lia|].
  cbn zeta in Hvalues. change (3 * 0) with 0 in *.
  split; [assumption|]. split; [intros [Hf|Hf]; discriminate|].
  intros _ _ q pixel Hq Hpixel.
  rewrite <- (nth_lookup_Some _ _ 0 _ Hpixel).
  apply Hvalues; [unfold IMAGE_SIZE in *; lia|].
  rewrite Hlen. unfold IMAGE_SIZE in *. lia.
Qed.


(** ** The text *)

Lemma render_loop_render (vocab : list String.string) (tokens : list Z) n :
  forall i result,
    0 <= i ->
    render_loop vocab tokens n i result
    = render vocab (take n (drop (Z.to_nat i) tokens)) result.
Proof.
  induction n as [|n IH]; intros i result Hi; [reflexivity|].
  cbn [render_loop]. rewrite !IH by lia.
  replace (Z.to_nat (i + 1)) with (S (Z.to_nat i)) by lia.
  rewrite nth_lookup.
  destruct (tokens !! Z.to_nat i) as [t|] eqn:Hlook.
  - rewrite (drop_S _ _ _ Hlook). cbn [default from_option id take].
    unfold render, renders.
    cbn [List.filter].
    destruct (t <? SPECIAL_TOKEN_THRESHOLD); cbn [negb andb]; [reflexivity|].
    destruct (t <? Z.of_nat (length vocab)); reflexivity.
  - apply lookup_ge_None in Hlook.
    rewrite !drop_ge by lia. cbn [default from_option]. now destruct n.
Qed.

(** The text of a recognition.  Without an initialized engine it is
    empty and the globals stay as they are.  Otherwise it is empty when
    the inference hands back no token, and else the vocabulary entries of
    the tokens handed back, in order, leaving out the special tokens
    (below 5) and those the vocabulary does not have; the postprocessor
    is applied when it is set.  When the growth of the string throws, or
    the postprocessor that is set, the text is empty. *)
Theorem nativeRecognizeText_text (c : RecognizeCall) (B : Backend T) (bitmap : Bitmap)
    (n : Native) :
  (engine_ready n = false ->
   nativeRecognizeText normalize postprocess c B bitmap n = (String.EmptyString, n)) /\
  (forall e, g_ocrInference n = Some e -> IsInitialized e = true ->
   let r := InferTokens B e (PreprocessBitmap normalize bitmap (g_imageBuffer n))
              (g_tokenBuffer n) MAX_SEQUENCE_LENGTH in
   let text := render (g_vocab n) (tokens_of r) String.EmptyString in
   fst (nativeRecognizeText normalize postprocess c B bitmap n)
   = if fst (fst r) <=? 0 then String.EmptyString
     else if result_growth_throws c then String.EmptyString
     else if g_textPostprocessor n
          then if postprocess_throws c then String.EmptyString else postprocess text
          else text).
Proof.
  split.
  - unfold engine_ready, nativeRecognizeText.
    destruct (g_ocrInference n) as [e|]; [|reflexivity].
    now intros ->.
  - intros e He Hinit. cbn zeta. unfold nativeRecognizeText, tokens_of.
    rewrite He, Hinit. cbn [negb].
    destruct (InferTokens B e (PreprocessBitmap normalize bitmap (g_imageBuffer n))
                (g_tokenBuffer n) MAX_SEQUENCE_LENGTH) as [[count tokens] e'].
    cbn [fst snd g_vocab g_textPostprocessor].
    destruct (count <=? 0); [reflexivity|].
    destruct (result_growth_throws c); [reflexivity|].
    rewrite render_loop_render by lia.
    destruct (g_textPostprocessor n); [|reflexivity].
    destruct (postprocess_throws c); reflexivity.
Qed.

(** ** The globals *)

Lemma length_resize_tokens v n : length (resize_tokens v n) = Z.to_nat n.
Proof. unfold resize_tokens. rewrite length_app, length_take, length_replicate. lia. Qed.

Lemma in_service_ready (e : OcrInference T) : in_service e -> IsInitialized e = true.
Proof. now intros [Hinit _]. Qed.

Lemma native_invariant_not_ready (n : @Native T) :
  native_invariant n -> engine_ready n = false -> g_ocrInference n = None.
Proof.
  unfold native_invariant, engine_ready.
  destruct (g_ocrInference n) as [e|]; [|reflexivity].
  intros (Hin & _) Hready. apply in_service_ready in Hin. congruence.
Qed.

Lemma native_invariant_reuse (n : @Native T) :
  native_invariant n -> engine_ready n = true ->
  native_invariant (set_engine (g_ocrInference n) (g_activeOcrClients n + 1) n).
Proof.
  unfold native_invariant, engine_ready.
  cbn [set_engine g_ocrInference g_activeOcrClients g_imageBuffer g_tokenBuffer].
  destruct (g_ocrInference n); [|discriminate].
  intros (? & ? & ? & ?) _.
  split; [assumption|]. split; [lia|]. split; assumption.
Qed.


(** Simplifies the globals of a result of [nativeOcrInit]. *)
Ltac native_cbn :=
  cbn [fst snd set_engine set_postprocessor set_vocab set_image_buffer
       set_token_buffer g_ocrInference g_activeOcrClients g_imageBuffer
       g_tokenBuffer g_textPostprocessor g_vocab destroy_engine negb] in *.

(** Without a throwing [resize], [nativeOcrInit] keeps the globals
    consistent and returns whether an initialized engine is there. *)
Lemma nativeOcrInit_invariant (j : InitCall) p (n : Native) :
  native_invariant n ->
  image_resize_throws j = false -> token_resize_throws j = false ->
  native_invariant (snd (nativeOcrInit getVocabulary j p n)) /\
  fst (fst (nativeOcrInit getVocabulary j p n))
  = engine_ready (snd (nativeOcrInit getVocabulary j p n)).
Proof.
  intros Hinv Himage Htoken. unfold nativeOcrInit.
  destruct (engine_ready n) eqn:Hready.
  - cbn [fst snd]. split; [now apply native_invariant_reuse|].
    unfold engine_ready in *. cbn [set_engine g_ocrInference]. now rewrite Hready.
  - pose proof (native_invariant_not_ready n Hinv Hready) as Hnone.
    unfold native_invariant in Hinv. rewrite Hnone in Hinv.
    rewrite Himage, Htoken.
    repeat break_match; native_cbn; unfold native_invariant, engine_ready;
      native_cbn; rewrite ?Hnone; try (split; [assumption || reflexivity | reflexivity]).
    match goal with
    | Hi : Initialize _ _ _ _ _ _ = (true, _, _) |- _ =>
        apply Initialize_in_service in Hi
    end.
    rewrite length_resize, length_resize_tokens.
    split; [split; [assumption|]; split; [lia|]; split; reflexivity|].
    symmetry. now apply in_service_ready.
Qed.





(** ** The clients *)

Lemma Close_twice p (e : OcrInference T) :
  fst (Close (fst (Close p e)) (snd (Close p e))) = fst (Close p e).
Proof.
  apply Close_of_nothing. apply Close_holds_nothing.
Qed.

(** With an initialized engine that has a client, [nativeOcrInit] only
    counts one more client and makes no call, and the [nativeOcrClose]
    that follows only takes it back: the globals are as before.  The
    [nativeOcrClose] of the last client closes the engine, once, and
    leaves the globals as they are when the library is loaded. *)
Theorem native_clients_counted (j : InitCall) p (n : Native) :
  native_invariant n ->
  (engine_ready n = true ->
   let r := nativeOcrInit getVocabulary j p n in
   fst r = (true, p) /\
   g_activeOcrClients (snd r) = g_activeOcrClients n + 1 /\
   nativeOcrClose p (snd r) = (p, n)) /\
  (g_activeOcrClients n <= 1 ->
   nativeOcrClose p n = (destroy_engine p (g_ocrInference n), native_start)).
Proof.
  intros Hinv. split.
  - intros Hready. cbn zeta. unfold nativeOcrInit. rewrite Hready. cbn [fst snd].
    split; [reflexivity|]. split; [reflexivity|].
    unfold native_invariant, engine_ready in *.
    destruct (g_ocrInference n) as [e|] eqn:He; [|discriminate].
    destruct Hinv as (_ & Hclients & _).
    unfold nativeOcrClose. cbn [g_activeOcrClients g_ocrInference g_textPostprocessor
      g_vocab g_imageBuffer g_tokenBuffer set_engine].
    replace (1 <? g_activeOcrClients n + 1) with true by (symmetry; apply Z.ltb_lt; lia).
    f_equal. destruct n. cbn in *. subst. f_equal. lia.
  - intros Hlast. unfold nativeOcrClose.
    replace (1 <? g_activeOcrClients n) with false by (symmetry; apply Z.ltb_ge; lia).
    f_equal. destruct (g_ocrInference n) as [e|]; [|reflexivity].
    cbn [destroy_engine].
    rewrite <- (Close_twice p e). now destruct (Close p e).
Qed.

(** ** The assets opened *)

(** A [nativeOcrInit] that has no engine to reuse and returns false
    closes each asset it opened once and leaves no engine behind:
    directly when an asset is missing, through [g_ocrInference.reset()]
    when [Initialize] fails.  There are two ways out of it, both through
    the [catch] clause, where this is not so.  When
    [std::make_unique<mihon::OcrInference>()] throws, the three assets
    are open and none is closed.  When a [resize] throws after
    [Initialize] succeeded, the engine stays, initialized and holding
    the three assets, none of which is closed. *)
Theorem nativeOcrInit_failure_closes_assets (j : InitCall) p (n : Native) :
  g_ocrInference n = None ->
  fst (fst (nativeOcrInit getVocabulary j p n)) = false ->
  let r := nativeOcrInit getVocabulary j p n in
  if allocates_engine j && engine_alloc_throws j
  then asset_closes (calls (snd (fst r))) = asset_closes (calls p) /\
       g_ocrInference (snd r) = None
  else
    match g_ocrInference (snd r) with
    | None =>
        asset_closes (calls (snd (fst r)))
        = asset_closes (calls p) ++ asset_closes (opened_closes j)
    | Some e =>
        (image_resize_throws j = true \/ token_resize_throws j = true) /\
        IsInitialized e = true /\
        held_assets e = asset_closes (opened_closes j) /\
        asset_closes (calls (snd (fst r))) = asset_closes (calls p)
    end.
Proof.
  intros Hnone. cbn zeta.
  unfold nativeOcrInit, engine_ready, allocates_engine, opened_closes, opens_assets.
  rewrite Hnone.
  destruct (postprocessor_throws j);
    [intros _; native_cbn; rewrite Hnone; symmetry; apply app_nil_r|].
  destruct (vocabulary_throws j);
    [intros _; native_cbn; rewrite Hnone; symmetry; apply app_nil_r|].
  destruct (asset_manager j);
    [|intros _; native_cbn; rewrite Hnone; symmetry; apply app_nil_r].
  cbn [negb andb].
  destruct (open_encoder j) as [a|], (open_decoder j) as [b|],
    (open_embeddings j) as [c|]; cbn [andb];
    try (intros _; native_cbn; rewrite Hnone; apply asset_closes_emit).
  destruct (engine_alloc_throws j);
    [intros _; native_cbn; now split|].
  native_cbn. rewrite Hnone. native_cbn.
  destruct (Initialize (init_world j) p new_engine a b c) as [[[] p'] e'] eqn:Hi.
  - destruct (Initialize_owns_assets _ _ _ _ _ _ _ _ Hi) as [Hheld Hcalls].
    pose proof (in_service_ready e' (Initialize_in_service _ _ _ _ _ _ _ _ Hi))
      as Hready.
    destruct (image_resize_throws j);
      [intros _; native_cbn; split; [now left|];
       split; [exact Hready|]; split; [exact Hheld | exact Hcalls]|].
    destruct (token_resize_throws j);
      [intros _; native_cbn; split; [now right|];
       split; [exact Hready|]; split; [exact Hheld | exact Hcalls]|].
    native_cbn. discriminate.
  - intros _. native_cbn.
    pose proof (Initialize_asset_balance (init_world j) p new_engine a b c eq_refl)
      as Hbalance.
    cbn zeta in Hbalance. rewrite Hi in Hbalance. cbn [fst snd] in Hbalance.
    destruct (Close_asset_closes p' e') as [-> _]. exact Hbalance.
Qed.

End NativeFacts.

(** * The claims on the sample platform *)

Lemma Sample_engine_in_service : in_service Sample.engine.
Proof.
  unfold Sample.engine.
  destruct (Initialize (Sample.world true true true) process_start new_engine
              Sample.encoder_asset Sample.decoder_asset Sample.embeddings_asset)
    as [[ok p] e] eqn:Hinit.
  assert (ok = true) as ->.
  { change ok with (fst (fst (ok, p, e))). rewrite <- Hinit. reflexivity. }
  cbn [snd]. eapply Initialize_in_service. exact Hinit.
Qed.

Lemma Sample_encoder_succeeds : encoder_succeeds Sample.backend.
Proof. repeat split; intros; discriminate. Qed.

Lemma Sample_flat_logits seq_len :
  FindMaxLogitToken Sample.flat_logits seq_len = 0.
Proof.
  exact (FindMaxLogitToken_flat (T:=float)
           (Z.to_nat (MAX_SEQUENCE_LENGTH * VOCAB_SIZE)) seq_len eq_refl).
Qed.

Lemma Sample_step_succeeds k : step_succeeds Sample.backend k.
Proof.
  repeat split; try reflexivity.
  intros ins. exists [Sample.flat_logits]. split; [reflexivity|].
  intros seq_len. unfold first_output. cbn [nth].
  rewrite Sample_flat_logits. discriminate.
Qed.




Lemma Sample_token_buffer_length : length Sample.token_buffer = 300%nat.
Proof. unfold Sample.token_buffer. now rewrite length_replicate. Qed.

(** C1 on the sample platform: 300 tokens are returned. *)
Lemma InferTokens_without_end_token_witness :
  fst (fst (InferTokens Sample.backend Sample.engine Sample.image
              Sample.token_buffer 300)) = 300.
Proof.
  apply (InferTokens_without_end_token Sample.backend Sample.engine Sample.image
           Sample.token_buffer Sample_engine_in_service Sample_encoder_succeeds
           (fun k _ => Sample_step_succeeds k)).
Defined.

(** C1 as stated fails on the sample platform: the engine is in service,
    no call fails, END is never selected, and the value returned for
    [max_tokens = 300] is not 299. *)
Lemma InferTokens_without_end_token_not_299 :
  in_service Sample.engine /\ encoder_succeeds Sample.backend /\
  (forall k, step_succeeds Sample.backend k) /\
  fst (fst (InferTokens Sample.backend Sample.engine Sample.image
              Sample.token_buffer 300)) <> 299.
Proof.
  split; [apply Sample_engine_in_service|].
  split; [apply Sample_encoder_succeeds|].
  split; [apply Sample_step_succeeds|].
  rewrite InferTokens_count_succeeding;
    [discriminate | apply Sample_engine_in_service | apply Sample_encoder_succeeds
    | intros k _; apply Sample_step_succeeds].
Qed.

(** C2 fails on the code: asked for at most one token, with an array of
    one entry, [InferTokens] on the sample platform returns 2, which is
    above [min(1, MAX_SEQUENCE_LENGTH)]. *)
Theorem InferTokens_exceeds_max_tokens :
  fst (fst (InferTokens Sample.backend Sample.engine Sample.image [0] 1)) = 2 /\
  ~ (0 <= fst (fst (InferTokens Sample.backend Sample.engine Sample.image [0] 1))
       <= Z.min 1 MAX_SEQUENCE_LENGTH).
Proof.
  rewrite InferTokens_count_succeeding;
    [| apply Sample_engine_in_service | apply Sample_encoder_succeeds
     | intros k _; apply Sample_step_succeeds].
  split; [reflexivity|]. unfold MAX_SEQUENCE_LENGTH. lia.
Qed.


(** C4 on the sample platform: two calls in a row. *)
Lemma InferTokens_deterministic_witness :
  tokens_of (InferTokens Sample.backend
               (snd (InferTokens Sample.backend Sample.engine Sample.image
                       Sample.token_buffer 300))
               Sample.image Sample.token_buffer 300) =
  tokens_of (InferTokens Sample.backend Sample.engine Sample.image
               Sample.token_buffer 300).
Proof.
  apply (InferTokens_deterministic Sample.backend Sample.engine Sample.image
           Sample.token_buffer Sample.token_buffer 300 eq_refl).
Defined.

Lemma Sample_partially_accelerated :
  partially_accelerated (Sample.world true true false).
Proof. right. exists (Sample.decoder 20 false). now split. Qed.

(** C5 on the sample platform, with a decoder that is not fully
    accelerated on the GPU: the engine is initialized on the CPU. *)
Lemma partial_acceleration_rejected_witness :
  fst (fst (Initialize (Sample.world true true false) process_start new_engine
              Sample.encoder_asset Sample.decoder_asset Sample.embeddings_asset))
    = true /\
  IsEncoderUsingGpu
    (snd (Initialize (Sample.world true true false) process_start new_engine
            Sample.encoder_asset Sample.decoder_asset Sample.embeddings_asset))
    = false /\
  IsDecoderUsingGpu
    (snd (Initialize (Sample.world true true false) process_start new_engine
            Sample.encoder_asset Sample.decoder_asset Sample.embeddings_asset))
    = false.
Proof.
  destruct (Initialize (Sample.world true true false) process_start new_engine
              Sample.encoder_asset Sample.decoder_asset Sample.embeddings_asset)
    as [[ok p] e] eqn:Hinit.
  assert (ok = true) as ->.
  { change ok with (fst (fst (ok, p, e))). rewrite <- Hinit. reflexivity. }
  cbn [fst snd]. split; [reflexivity|].
  destruct (partial_acceleration_rejected (Sample.world true true false)
              process_start new_engine Sample.encoder_asset Sample.decoder_asset
              Sample.embeddings_asset fresh_objects Sample_partially_accelerated)
    as [_ Hcpu].
  destruct (Hcpu p e Hinit) as (Henc & Hdec & _). now split.
Defined.

(** C7 fails on the code: on a device without OpenCL where the encoder
    does not compile for the CPU, [Initialize] returns false and the
    engine still holds the three assets and the objects behind
    [litert_]; no asset was closed, and [Close] still has them to
    release. *)
Theorem Initialize_failure_keeps_resources :
  fst (fst (Initialize Sample.world_without_backend process_start new_engine
              Sample.encoder_asset Sample.decoder_asset Sample.embeddings_asset))
    = false /\
  ~ holds_nothing
      (snd (Initialize Sample.world_without_backend process_start new_engine
              Sample.encoder_asset Sample.decoder_asset Sample.embeddings_asset)) /\
  encoder_asset_
    (snd (Initialize Sample.world_without_backend process_start new_engine
            Sample.encoder_asset Sample.decoder_asset Sample.embeddings_asset))
    = Some Sample.encoder_asset /\
  calls
    (snd (fst (Initialize Sample.world_without_backend process_start new_engine
                 Sample.encoder_asset Sample.decoder_asset Sample.embeddings_asset)))
    = [SharedEnvCreate; CpuEnvCreate; ModelDestroyed 40] /\
  calls
    (fst (Close
            (snd (fst (Initialize Sample.world_without_backend process_start
                         new_engine Sample.encoder_asset Sample.decoder_asset
                         Sample.embeddings_asset)))
            (snd (Initialize Sample.world_without_backend process_start new_engine
                    Sample.encoder_asset Sample.decoder_asset
                    Sample.embeddings_asset))))
    = [SharedEnvCreate; CpuEnvCreate; ModelDestroyed 40; EnvDestroyed 2000;
       AssetClosed 1; AssetClosed 2; AssetClosed 3].
Proof.
  split; [reflexivity|]. split; [intros (Hl & _); discriminate Hl|].
  split; [reflexivity|]. split; reflexivity.
Qed.

(** The other way out of [Initialize]: when its last allocation throws,
    the [catch] clause calls [Close], and the engine holds nothing. *)
Lemma Initialize_exception_unwinds :
  fst (fst (Initialize Sample.world_out_of_memory process_start new_engine
              Sample.encoder_asset Sample.decoder_asset Sample.embeddings_asset))
    = false /\
  holds_nothing
    (snd (Initialize Sample.world_out_of_memory process_start new_engine
            Sample.encoder_asset Sample.decoder_asset Sample.embeddings_asset)).
Proof. split; [reflexivity|]. repeat split. Qed.

(** C9 as stated fails on the sample platform: the engine on which
    [Initialize] failed is not initialized, and [Close] on it is not a
    no-op: it destroys the CPU environment and closes the three
    assets. *)
Lemma Close_of_uninitialized_engine_releases :
  IsInitialized
    (snd (Initialize Sample.world_without_backend process_start new_engine
            Sample.encoder_asset Sample.decoder_asset Sample.embeddings_asset))
  = false /\
  calls
    (fst (Close
            (snd (fst (Initialize Sample.world_without_backend process_start
                         new_engine Sample.encoder_asset Sample.decoder_asset
                         Sample.embeddings_asset)))
            (snd (Initialize Sample.world_without_backend process_start new_engine
                    Sample.encoder_asset Sample.decoder_asset
                    Sample.embeddings_asset))))
  = calls
      (snd (fst (Initialize Sample.world_without_backend process_start new_engine
                   Sample.encoder_asset Sample.decoder_asset
                   Sample.embeddings_asset)))
    ++ [EnvDestroyed 2000; AssetClosed 1; AssetClosed 2; AssetClosed 3] /\
  fst (Close
         (snd (fst (Initialize Sample.world_without_backend process_start
                      new_engine Sample.encoder_asset Sample.decoder_asset
                      Sample.embeddings_asset)))
         (snd (Initialize Sample.world_without_backend process_start new_engine
                 Sample.encoder_asset Sample.decoder_asset
                 Sample.embeddings_asset)))
  <> snd (fst (Initialize Sample.world_without_backend process_start new_engine
                 Sample.encoder_asset Sample.decoder_asset
                 Sample.embeddings_asset)).
Proof.
  split; [reflexivity|]. split; [reflexivity|].
  intros Heq. apply (f_equal calls) in Heq. discriminate Heq.
Qed.

(** C8 on the sample platform: two cycles of [Initialize] and [Close],
    one creation of the shared environment. *)
Lemma shared_env_created_once_witness :
  g_persist_env Sample.after_second_cycle = Some {| env_id := 1000 |} /\
  shared_env_creations Sample.after_second_cycle = 1%nat.
Proof.
  pose proof (shared_env_created_once (Sample.world true true true)
                (Sample.world true true true) new_engine new_engine
                Sample.encoder_asset Sample.decoder_asset Sample.embeddings_asset
                Sample.encoder_asset Sample.decoder_asset Sample.embeddings_asset
                {| env_id := 1000 |} eq_refl) as (_ & _ & Henv & _ & Hcount).
  split; [exact Henv | exact Hcount].
Defined.

(** * The further properties on the sample platform *)

Lemma Sample_engine_initialized :
  Initialize (Sample.world true true true) process_start new_engine
    Sample.encoder_asset Sample.decoder_asset Sample.embeddings_asset
  = (true,
     snd (fst (Initialize (Sample.world true true true) process_start new_engine
                 Sample.encoder_asset Sample.decoder_asset Sample.embeddings_asset)),
     Sample.engine).
Proof.
  unfold Sample.engine.
  destruct (Initialize (Sample.world true true true) process_start new_engine
              Sample.encoder_asset Sample.decoder_asset Sample.embeddings_asset)
    as [[ok p] e] eqn:Hinit.
  assert (ok = true) as ->.
  { change ok with (fst (fst (ok, p, e))). rewrite <- Hinit. reflexivity. }
  reflexivity.
Qed.

Lemma Sample_engine_sizes :
  length (attention_mask_ Sample.engine) = 300%nat /\
  length (embeddings_input_ Sample.engine) = (300 * 768)%nat /\
  (Z.to_nat (VOCAB_SIZE * HIDDEN_SIZE) <= length (embeddings_data_ Sample.engine))%nat.
Proof.
  destruct (Initialize_vectors _ _ _ _ _ _ _ _ Sample_engine_initialized)
    as (Hmask & Hemb & Hdata).
  split; [exact Hmask|]. split; [exact Hemb|].
  rewrite Hdata. unfold Sample.embeddings_asset. cbn [asset_floats].
  rewrite length_replicate. lia.
Qed.

Lemma Sample_count_positive :
  0 < fst (fst (InferTokens Sample.backend Sample.engine Sample.image
                  Sample.token_buffer 300)).
Proof.
  rewrite InferTokens_count_succeeding;
    [reflexivity | apply Sample_engine_in_service | apply Sample_encoder_succeeds
    | intros k _; apply Sample_step_succeeds].
Qed.

Lemma Sample_end_logits_length seq_len :
  1 <= seq_len <= MAX_SEQUENCE_LENGTH ->
  length (Sample.end_logits seq_len) = Z.to_nat (MAX_SEQUENCE_LENGTH * VOCAB_SIZE).
Proof.
  intros Hs. unfold Sample.end_logits.
  rewrite !length_app, !length_replicate. cbn [length].
  unfold MAX_SEQUENCE_LENGTH, VOCAB_SIZE, END_TOKEN_ID in *. lia.
Qed.

Lemma Sample_end_logits_row seq_len i :
  1 <= seq_len -> 0 <= i < VOCAB_SIZE ->
  read_at (Sample.end_logits seq_len) ((seq_len - 1) * VOCAB_SIZE) i
  = if i =? END_TOKEN_ID then 1%float else 0%float.
Proof.
  intros Hs Hi. unfold read_at, Sample.end_logits. cbn [fzero Sample.float_ops].
  set (a := (seq_len - 1) * VOCAB_SIZE + END_TOKEN_ID).
  assert (0 <= a) as Ha by (subst a; unfold VOCAB_SIZE, END_TOKEN_ID; lia).
  destruct (Z.lt_trichotomy i END_TOKEN_ID) as [Hlt|[->|Hgt]].
  - replace (i =? END_TOKEN_ID) with false by (symmetry; apply Z.eqb_neq; lia).
    rewrite app_nth1 by (rewrite length_replicate; subst a; unfold VOCAB_SIZE, END_TOKEN_ID in *; lia).
    apply (nth_replicate_same (T:=float)).
  - rewrite Z.eqb_refl.
    rewrite app_nth2 by (rewrite length_replicate; subst a; unfold VOCAB_SIZE, END_TOKEN_ID in *; lia).
    rewrite length_replicate. fold a. now rewrite Nat.sub_diag.
  - replace (i =? END_TOKEN_ID) with false by (symmetry; apply Z.eqb_neq; lia).
    rewrite app_nth2 by (rewrite length_replicate; subst a; unfold VOCAB_SIZE, END_TOKEN_ID in *; lia).
    rewrite length_replicate.
    replace (Z.to_nat ((seq_len - 1) * VOCAB_SIZE + i) - Z.to_nat a)%nat
      with (S (Z.to_nat (i - END_TOKEN_ID - 1))) by (subst a; unfold VOCAB_SIZE, END_TOKEN_ID in *; lia).
    cbn [app nth]. apply (nth_replicate_same (T:=float)).
Qed.

Lemma Sample_end_logits_selects_end seq_len :
  1 <= seq_len -> FindMaxLogitToken (Sample.end_logits seq_len) seq_len = END_TOKEN_ID.
Proof.
  intros Hs.
  apply (FindMaxLogitToken_spike (T:=float) _ _ END_TOKEN_ID 0%float 1%float);
    [unfold END_TOKEN_ID, VOCAB_SIZE; lia | | reflexivity..].
  intros i Hi. now apply Sample_end_logits_row.
Qed.

Lemma Sample_ending_encoder_succeeds : encoder_succeeds Sample.backend_ending_at_2.
Proof. repeat split; intros; discriminate. Qed.

Lemma Sample_ending_step_succeeds k :
  k <> 2 -> step_succeeds Sample.backend_ending_at_2 k.
Proof.
  intros Hk. repeat split; try reflexivity.
  intros ins. exists [Sample.flat_logits]. split.
  - cbn [decoder_run Sample.backend_ending_at_2].
    now replace (k =? 2) with false by (symmetry; now apply Z.eqb_neq).
  - intros seq_len. unfold first_output. cbn [nth].
    rewrite Sample_flat_logits. discriminate.
Qed.

Lemma Sample_ending_step_ends : step_ends Sample.backend_ending_at_2 2 3.
Proof.
  repeat split; try reflexivity.
  intros ins. exists [Sample.end_logits 3]. split; [reflexivity|].
  unfold first_output. cbn [nth]. apply Sample_end_logits_selects_end. lia.
Qed.

Lemma Sample_native_running_invariant : native_invariant Sample.native_running.
Proof.
  unfold Sample.native_running.
  exact (proj1 (nativeOcrInit_invariant Sample.vocabulary Sample.init_call
                  process_start native_start eq_refl eq_refl eq_refl)).
Qed.

Lemma Sample_image_length :
  length Sample.image = Z.to_nat (IMAGE_SIZE * IMAGE_SIZE * 3).
Proof. apply length_replicate. Qed.

Lemma UpdateEmbedding_copies_row_witness :
  length (UpdateEmbedding (asset_floats Sample.embeddings_asset)
            (replicate (Z.to_nat (MAX_SEQUENCE_LENGTH * HIDDEN_SIZE)) 0%float)
            START_TOKEN_ID 0)
  = length (replicate (Z.to_nat (MAX_SEQUENCE_LENGTH * HIDDEN_SIZE)) 0%float).
Proof.
  refine (proj1 (UpdateEmbedding_copies_row (asset_floats Sample.embeddings_asset)
                   (replicate (Z.to_nat (MAX_SEQUENCE_LENGTH * HIDDEN_SIZE)) 0%float)
                   START_TOKEN_ID 0 _ _ _ _)).
  - unfold START_TOKEN_ID. lia.
  - lia.
  - unfold Sample.embeddings_asset. cbn [asset_floats].
    rewrite length_replicate. unfold START_TOKEN_ID, VOCAB_SIZE, HIDDEN_SIZE. lia.
  - rewrite length_replicate. unfold MAX_SEQUENCE_LENGTH, HIDDEN_SIZE. lia.
Defined.

Lemma InferTokens_decoding_state_witness :
  attention_mask_
    (snd (InferTokens Sample.backend Sample.engine Sample.image Sample.token_buffer 300))
  = mask_of
      (Z.to_nat (fst (fst (InferTokens Sample.backend Sample.engine Sample.image
                             Sample.token_buffer 300))))
      300.
Proof.
  refine (proj1 (InferTokens_decoding_state Sample.backend Sample.engine Sample.image
                   Sample.token_buffer 300
                   (proj1 Sample_engine_sizes) (proj1 (proj2 Sample_engine_sizes))
                   (proj2 (proj2 Sample_engine_sizes)) _ Sample_count_positive)).
  rewrite Sample_token_buffer_length. lia.
Defined.

Lemma InferTokens_encoder_stage_witness :
  1 <= fst (fst (InferTokens Sample.backend Sample.engine Sample.image
                   Sample.token_buffer 300)).
Proof.
  exact (proj1 (proj1 (InferTokens_encoder_stage Sample.backend Sample.engine
                         Sample.image Sample.token_buffer 300
                         Sample_engine_in_service)
                  Sample_encoder_succeeds)).
Defined.

Lemma InferTokens_stops_at_end_witness :
  fst (fst (InferTokens Sample.backend_ending_at_2 Sample.engine Sample.image
              Sample.token_buffer 300)) = 3.
Proof.
  exact (proj1 (InferTokens_stops_at_end Sample.backend_ending_at_2 Sample.engine
                  Sample.image Sample.token_buffer 300 2 Sample_engine_in_service
                  Sample_ending_encoder_succeeds ltac:(lia)
                  (fun k Hk => Sample_ending_step_succeeds k ltac:(lia))
                  Sample_ending_step_ends ltac:(lia))).
Defined.

Lemma InferTokens_after_failed_Initialize_witness :
  IsInitialized
    (snd (Initialize Sample.world_without_backend process_start new_engine
            Sample.encoder_asset Sample.decoder_asset Sample.embeddings_asset))
  = false.
Proof.
  exact (proj1 (InferTokens_after_failed_Initialize Sample.backend
                  Sample.world_without_backend process_start new_engine
                  Sample.encoder_asset Sample.decoder_asset Sample.embeddings_asset
                  Sample.image Sample.token_buffer 300 eq_refl eq_refl)).
Defined.

Lemma Initialize_sizes_witness :
  length (attention_mask_ Sample.engine) = 300%nat.
Proof.
  exact (proj1 (Initialize_sizes _ _ _ _ _ _ _ _ Sample_engine_initialized)).
Defined.

Lemma FindMaxLogitToken_first_maximum_witness :
  0 <= FindMaxLogitToken (Sample.end_logits 3) 3 < VOCAB_SIZE.
Proof.
  refine (proj1 (FindMaxLogitToken_first_maximum (Sample.end_logits 3) 3 _ _ _ _)).
  - lia.
  - rewrite Sample_end_logits_length by (unfold MAX_SEQUENCE_LENGTH; lia).
    unfold MAX_SEQUENCE_LENGTH, VOCAB_SIZE. lia.
  - intros i j Hi Hj. rewrite !Sample_end_logits_row by (assumption || lia).
    destruct (i =? END_TOKEN_ID), (j =? END_TOKEN_ID); cbn; congruence.
  - intros i j k Hi Hj Hk. rewrite !Sample_end_logits_row by (assumption || lia).
    destruct (i =? END_TOKEN_ID), (j =? END_TOKEN_ID), (k =? END_TOKEN_ID);
      cbn; congruence.
Defined.

Lemma Initialize_then_Close_closes_assets_witness :
  asset_closes
    (calls
       (fst (Close
               (snd (fst (Initialize Sample.world_without_backend process_start
                            new_engine Sample.encoder_asset Sample.decoder_asset
                            Sample.embeddings_asset)))
               (snd (Initialize Sample.world_without_backend process_start
                       new_engine Sample.encoder_asset Sample.decoder_asset
                       Sample.embeddings_asset)))))
  = asset_closes (calls process_start)
    ++ [asset_id Sample.encoder_asset; asset_id Sample.decoder_asset;
        asset_id Sample.embeddings_asset].
Proof.
  exact (proj1 (Initialize_then_Close_closes_assets Sample.world_without_backend
                  process_start new_engine Sample.encoder_asset Sample.decoder_asset
                  Sample.embeddings_asset eq_refl)).
Defined.

Lemma Initialize_models_witness :
  exists l enc dec,
    litert_ Sample.engine = Some l /\
    compiled_encoder l = Some enc /\ compiled_decoder l = Some dec.
Proof.
  destruct (Initialize_models _ _ _ _ _ _ _ _ Sample_engine_initialized)
    as (l & enc & dec & Hl & Henc & Hdec & _).
  exists l, enc, dec. split; [exact Hl|]. split; [exact Henc | exact Hdec].
Defined.

Lemma ReleaseSystemPages_page_aligned_witness :
  fst (ReleaseSystemPages Sample.asset_address Sample.asset_size (2 ^ Sample.page_bits))
    mod 2 ^ Sample.page_bits = 0.
Proof.
  refine (proj1 (ReleaseSystemPages_page_aligned Sample.asset_address
                   Sample.asset_size Sample.page_bits _ _ _ _));
    unfold Sample.asset_address, Sample.asset_size, Sample.page_bits; lia.
Defined.

Lemma PreprocessBitmap_layout_witness :
  length (PreprocessBitmap Sample.normalize Sample.bitmap Sample.image)
  = length Sample.image.
Proof.
  exact (proj1 (PreprocessBitmap_layout Sample.normalize Sample.bitmap Sample.image
                  Sample_image_length)).
Defined.


Lemma Sample_native_running_ready : engine_ready Sample.native_running = true.
Proof.
  unfold Sample.native_running.
  rewrite <- (proj2 (nativeOcrInit_invariant Sample.vocabulary Sample.init_call
                       process_start native_start eq_refl eq_refl eq_refl)).
  unfold nativeOcrInit, Sample.init_call.
  cbn [engine_ready g_ocrInference native_start negb asset_manager open_encoder
       open_decoder open_embeddings init_world destroy_engine
       postprocessor_throws vocabulary_throws engine_alloc_throws
       image_resize_throws token_resize_throws set_postprocessor set_vocab].
  rewrite Sample_engine_initialized. reflexivity.
Qed.

Lemma native_clients_counted_witness :
  nativeOcrClose process_start
    (snd (nativeOcrInit Sample.vocabulary Sample.init_call process_start
            Sample.native_running))
  = (process_start, Sample.native_running).
Proof.
  exact (proj2 (proj2 (proj1 (native_clients_counted Sample.vocabulary
                                Sample.init_call process_start Sample.native_running
                                Sample_native_running_invariant)
                         Sample_native_running_ready))).
Defined.

Lemma nativeOcrInit_failure_closes_assets_witness :
  asset_closes
    (calls (snd (fst (nativeOcrInit Sample.vocabulary Sample.init_call_without_backend
                        process_start native_start))))
  = asset_closes (calls process_start)
    ++ asset_closes (opened_closes Sample.init_call_without_backend).
Proof.
  exact (nativeOcrInit_failure_closes_assets Sample.vocabulary
           Sample.init_call_without_backend process_start native_start
           eq_refl eq_refl).
Defined.
